(** * superhero/http-request: request resolution and retry loop

    A shallow embedding of the [Request] class of [index.js] and of the
    two further copies of that class that the repository carries, and the
    properties the specification states about them.

    - [IndexJs] embeds [src/index.js];
    - [Part000] embeds the first copy of the class in
      [src/unnamed/part_000], the one whose [#resolveRetryLoop] adds one to
      the budget and ends in the aggregate failure; the decoding of a
      response body has the same text in the second copy;
    - [Part000Second] embeds what the second copy of that file has of its
      own: its verbs and its public [fetch], [#normalizeUrl], and the
      [#resolveRetryLoop] that hands the failures recorded to the caller.

    The network is the environment: one attempt is driven by the event the
    transport emits, and a logical call by the sequence of such events. *)

From Stdlib Require Import Bool Arith ZArith QArith Qabs Qround Lia List Sorted Ascii String.
Import ListNotations.

Set Warnings "-register-all".

Local Open Scope string_scope.
Local Open Scope list_scope.
Local Open Scope Z_scope.

(** ** The JavaScript built-ins the class relies on

    Strings are sequences of code units; the embedding covers the code
    units below 256 (one [ascii] each). *)
Module Js.

(** [String.prototype.length] *)
Definition length (s : string) : Z := Z.of_nat (String.length s).

Definition code (c : ascii) : N := N_of_ascii c.

(** Lower case of one code unit below 256: [A-Z] and the upper case
    letters of the Latin-1 supplement move up by 32. *)
Definition lower_unit (c : ascii) : ascii :=
  let n := code c in
  if ((65 <=? n) && (n <=? 90))%N
     || ((192 <=? n) && (n <=? 222) && negb (n =? 215))%N
  then ascii_of_N (n + 32) else c.

(** [String.prototype.toLowerCase] *)
Fixpoint toLowerCase (s : string) : string :=
  match s with
  | EmptyString => EmptyString
  | String c s' => String (lower_unit c) (toLowerCase s')
  end.

(** [String.prototype.startsWith] *)
Definition startsWith (s p : string) : bool := String.prefix p s.

(** [String.prototype.endsWith] *)
Definition endsWith (s p : string) : bool :=
  (String.length p <=? String.length s)%nat
  && String.eqb (String.substring (String.length s - String.length p) (String.length p) s) p.

(** White space and line terminators below 256, as [trim] sees them. *)
Definition is_space (c : ascii) : bool :=
  let n := code c in
  (((9 <=? n) && (n <=? 13)) || (n =? 32) || (n =? 160))%N.

Fixpoint trimStart (s : string) : string :=
  match s with
  | EmptyString => EmptyString
  | String c s' => if is_space c then trimStart s' else s
  end.

Fixpoint trimEnd (s : string) : string :=
  match s with
  | EmptyString => EmptyString
  | String c s' =>
      match trimEnd s' with
      | EmptyString => if is_space c then EmptyString else String c EmptyString
      | t => String c t
      end
  end.

(** [String.prototype.trim] *)
Definition trim (s : string) : string := trimEnd (trimStart s).

(** [String.prototype.indexOf] for a one code unit needle: the first
    position, or [-1]. *)
Fixpoint indexOf_from (c : ascii) (s : string) (i : Z) : Z :=
  match s with
  | EmptyString => -1
  | String d s' => if Ascii.eqb d c then i else indexOf_from c s' (i + 1)
  end.

Definition indexOf (s : string) (c : ascii) : Z := indexOf_from c s 0.

(** A relative index of [slice]: negative counts from the end, and the
    result is clamped to the string. *)
Definition slice_index (len i : Z) : Z :=
  if i <? 0 then Z.max (len + i) 0 else Z.min i len.

(** [String.prototype.slice(start, end)] *)
Definition slice (s : string) (start stop : Z) : string :=
  let len := length s in
  let from := slice_index len start in
  let to := slice_index len stop in
  String.substring (Z.to_nat from) (Z.to_nat (Z.max (to - from) 0)) s.

(** [String.prototype.slice(start)] *)
Definition slice_from (s : string) (start : Z) : string :=
  slice s start (length s).

(** [String.prototype.split(sep)] for a separator that is not empty.
    [skip] counts the code units of a separator found that are still to
    be passed over, [cur] is the piece under construction. *)
Fixpoint split_go (sep s : string) (skip : nat) (cur : string) : list string :=
  match s with
  | EmptyString => [cur]
  | String c s' =>
      match skip with
      | S k => split_go sep s' k cur
      | O =>
          if String.prefix sep s
          then cur :: split_go sep s' (String.length sep - 1) EmptyString
          else split_go sep s' O (cur ++ String c EmptyString)%string
      end
  end.

Definition split (s sep : string) : list string := split_go sep s O EmptyString.

(** [Array.prototype.join] *)
Fixpoint join (sep : string) (l : list string) : string :=
  match l with
  | [] => EmptyString
  | [x] => x
  | x :: rest => (x ++ sep ++ join sep rest)%string
  end.

(** [Array.prototype.includes] on an array of numbers. *)
Definition includes (l : list Z) (x : Z) : bool := existsb (Z.eqb x) l.

(** [Math.floor] and [Math.abs]. Numbers are rationals: a finite double
    is one, and what the class does with [retry] (floor, absolute value,
    decrement by one) is exact on the integers up to [2^53]. *)
Definition Math_floor (x : Q) : Z := Qfloor x.
Definition Math_abs (x : Z) : Z := Z.abs x.

(** Truthiness of a finite number. *)
Definition truthy (x : Q) : bool := negb (Qeq_bool x 0).

Definition digit (c : ascii) : option N :=
  let n := code c in
  if ((48 <=? n) && (n <=? 57))%N then Some (n - 48)%N else None.

Fixpoint digits (s : string) (acc : N) : option N :=
  match s with
  | EmptyString => Some acc
  | String c s' =>
      match digit c with
      | Some d => digits s' (10 * acc + d)%N
      | None => None
      end
  end.

(** The natural number a string is the canonical decimal numeral of:
    digits only, and no leading zero but in ["0"]. *)
Definition numeral (s : string) : option N :=
  match s with
  | EmptyString => None
  | String c rest =>
      if Ascii.eqb c "0"%char && negb (String.eqb rest EmptyString) then None
      else digits s 0
  end.

End Js.

(** ** Objects as ordered property tables

    An object is the list of its own enumerable string keyed properties in
    the order [Object.keys] yields them: the keys that are array indices
    first, in ascending order, then the other keys in the order they were
    created. What an object inherits, the accessor [__proto__] included,
    is not part of the table. *)
Module JsObject.

(** The array index a key denotes, when it is the canonical numeral of
    an integer below [2^32 - 1]. *)
Definition array_index (k : string) : option N :=
  match Js.numeral k with
  | Some n => if (n <? 4294967295)%N then Some n else None
  | None => None
  end.

Section Properties.
Context {V : Type}.

Definition t : Type := list (string * V).

Definition keys (o : t) : list string := map fst o.

(** [o[k]] *)
Fixpoint get (o : t) (k : string) : option V :=
match o with
| [] => None
| (k', v) :: rest => if String.eqb k' k then Some v else get rest k
end.

Definition has (o : t) (k : string) : bool :=
match get o k with Some _ => true | None => false end.

(** Assignment to a property that exists keeps its place. *)
Fixpoint update (o : t) (k : string) (v : V) : t :=
match o with
| [] => []
| (k', v') :: rest =>
    if String.eqb k' k then (k', v) :: rest else (k', v') :: update rest k v
end.

(** A new array index key goes after the array index keys that are
  not greater. *)
Fixpoint add_index (o : t) (n : N) (k : string) (v : V) : t :=
match o with
| [] => [(k, v)]
| (k', v') :: rest =>
    match array_index k' with
    | Some m =>
        if (m <=? n)%N then (k', v') :: add_index rest n k v
        else (k, v) :: o
    | None => (k, v) :: o
    end
end.

(** [o[k] = v] *)
Definition set (o : t) (k : string) (v : V) : t :=
if has o k then update o k v
else match array_index k with
     | Some n => add_index o n k v
     | None => o ++ [(k, v)]
     end.

(** [delete o[k]] *)
Fixpoint delete (o : t) (k : string) : t :=
match o with
| [] => []
| (k', v) :: rest =>
    if String.eqb k' k then rest else (k', v) :: delete rest k
end.

(** [Object.assign(o, src)] *)
Definition assign (o src : t) : t :=
fold_left (fun acc kv => set acc (fst kv) (snd kv)) src o.

(** [Object.fromEntries(entries)] *)
Definition fromEntries (entries : list (string * V)) : t :=
assign [] entries.

(** The order of the keys of an object: array indices first and
    ascending, then the other keys. *)
Definition key_le (a b : string) : Prop :=
  match array_index a, array_index b with
  | Some m, Some n => (m <= n)%N
  | Some _, None => True
  | None, None => True
  | None, Some _ => False
  end.

(** An object holds a key once, and its keys are in order. *)
Definition well_formed (o : t) : Prop :=
  NoDup (keys o) /\ StronglySorted key_le (keys o).

End Properties.

Arguments t V : clear implicits.

End JsObject.

(** ** Data model *)

(** A value of the language, as far as the class handles one. *)
Inductive jsvalue : Type :=
| VUndefined
| VNull
| VBool (b : bool)
| VNum (x : Q)
| VStr (s : string)
| VArr (items : list jsvalue)
| VObj (props : list (string * jsvalue)).

(** The value of a header: a string, a number (the content length the
    class writes) or a list of strings (a repeated response header). *)
Inductive hvalue : Type :=
| HStr (s : string)
| HNum (n : Z)
| HList (l : list string).

Module Response.
(** [{ status, headers, body? }]; [body] is [None] while the property
    is absent. *)
Record t : Type := mk
  { status : Z;
    headers : JsObject.t hvalue;
    body : option jsvalue }.

Definition set_body (r : t) (b : jsvalue) : t :=
  mk (status r) (headers r) (Some b).
End Response.

(** An error object: its [name], its [code] if it has one, the response
    attached to it and its [cause]. Messages are left out. *)
Inductive Cause : Type :=
| NoCause
| CauseText (s : string)
| CauseError (e : JsError)
| CauseTrace (errorTrace : list JsError)
with JsError : Type :=
| MkError (name : string) (code : option string)
          (response : option Response.t) (cause : Cause).

Module Error.
Definition name (e : JsError) : string := let '(MkError n _ _ _) := e in n.
Definition code (e : JsError) : option string := let '(MkError _ c _ _) := e in c.
Definition response (e : JsError) : option Response.t := let '(MkError _ _ r _) := e in r.
Definition cause (e : JsError) : Cause := let '(MkError _ _ _ c) := e in c.

(** [error.code === c] *)
Definition has_code (e : JsError) (c : string) : bool :=
  match code e with
  | Some c' => String.eqb c' c
  | None => false
  end.
End Error.

Definition E_HTTP_REQUEST_CLIENT_ERROR := "E_HTTP_REQUEST_CLIENT_ERROR".
Definition E_HTTP_REQUEST_CLIENT_TIMEOUT := "E_HTTP_REQUEST_CLIENT_TIMEOUT".
Definition E_HTTP_REQUEST_DOWNSTREAM_ERROR := "E_HTTP_REQUEST_DOWNSTREAM_ERROR".
Definition E_HTTP_REQUEST_INVALID_RESPONSE_BODY_FORMAT :=
  "E_HTTP_REQUEST_INVALID_RESPONSE_BODY_FORMAT".
Definition E_HTTP_REQUEST_INVALID_RESPONSE_STATUS :=
  "E_HTTP_REQUEST_INVALID_RESPONSE_STATUS".
Definition E_HTTP_REQUEST_HTTP2_SESSION_DESTROYED :=
  "E_HTTP_REQUEST_HTTP2_SESSION_DESTROYED".
Definition E_HTTP_REQUEST_HTTP2_SESSION_CLOSED :=
  "E_HTTP_REQUEST_HTTP2_SESSION_CLOSED".
Definition E_HTTP_REQUEST_RETRY_ERROR := "E_HTTP_REQUEST_RETRY_ERROR".

(** Errors of the runtime itself. *)
Definition TypeError : JsError := MkError "TypeError" None None NoCause.
Definition ReferenceError : JsError := MkError "ReferenceError" None None NoCause.
Definition SyntaxError : JsError := MkError "SyntaxError" None None NoCause.

Module Options.
(** The request options after [#fetch] has merged the defaults, the
    configuration of the instance and the options of the call. A flag
    is the truthiness of its property; [upstream] holds the chunks the
    readable stream yields, [downstream] tells whether a writable stream
    was given. *)
Record t : Type := mk
  { method : string;
    url : string;
    base : option string;
    headers : JsObject.t hvalue;
    body : jsvalue;
    data : jsvalue;
    timeout : Z;
    retry : Q;
    retryDelay : Z;
    retryOnStatus : list Z;
    retryOnClientTimeout : bool;
    retryOnDownstreamError : bool;
    retryOnInvalidResponseBodyFormat : bool;
    retryOnErrorResponseStatus : bool;
    doNotThrowOnErrorStatus : bool;
    doNotThrowOnRedirectStatus : bool;
    upstream : option (list string);
    downstream : bool }.

(** The options with another [retry]. *)
Definition set_retry (value : Q) (o : t) : t :=
  mk (method o) (url o) (base o) (headers o) (body o) (data o) (timeout o)
     value (retryDelay o) (retryOnStatus o)
     (retryOnClientTimeout o) (retryOnDownstreamError o)
     (retryOnInvalidResponseBodyFormat o) (retryOnErrorResponseStatus o)
     (doNotThrowOnErrorStatus o) (doNotThrowOnRedirectStatus o)
     (upstream o) (downstream o).

(** The options with other [doNotThrowOnErrorStatus] and
    [doNotThrowOnRedirectStatus]. *)
Definition set_doNotThrow (onError onRedirect : bool) (o : t) : t :=
  mk (method o) (url o) (base o) (headers o) (body o) (data o) (timeout o)
     (retry o) (retryDelay o) (retryOnStatus o)
     (retryOnClientTimeout o) (retryOnDownstreamError o)
     (retryOnInvalidResponseBodyFormat o) (retryOnErrorResponseStatus o)
     onError onRedirect
     (upstream o) (downstream o).

(** The options with other [retryOnStatus], [retryOnClientTimeout] and
    [retryOnErrorResponseStatus]. *)
Definition set_retryOn (statuses : list Z) (onClientTimeout onErrorResponseStatus : bool)
           (o : t) : t :=
  mk (method o) (url o) (base o) (headers o) (body o) (data o) (timeout o)
     (retry o) (retryDelay o) statuses
     onClientTimeout (retryOnDownstreamError o)
     (retryOnInvalidResponseBodyFormat o) onErrorResponseStatus
     (doNotThrowOnErrorStatus o) (doNotThrowOnRedirectStatus o)
     (upstream o) (downstream o).

(** The options with another [url]. *)
Definition set_url (value : string) (o : t) : t :=
  mk (method o) value (base o) (headers o) (body o) (data o) (timeout o)
     (retry o) (retryDelay o) (retryOnStatus o)
     (retryOnClientTimeout o) (retryOnDownstreamError o)
     (retryOnInvalidResponseBodyFormat o) (retryOnErrorResponseStatus o)
     (doNotThrowOnErrorStatus o) (doNotThrowOnRedirectStatus o)
     (upstream o) (downstream o).

(** The options with another [base]. *)
Definition set_base (value : option string) (o : t) : t :=
  mk (method o) (url o) value (headers o) (body o) (data o) (timeout o)
     (retry o) (retryDelay o) (retryOnStatus o)
     (retryOnClientTimeout o) (retryOnDownstreamError o)
     (retryOnInvalidResponseBodyFormat o) (retryOnErrorResponseStatus o)
     (doNotThrowOnErrorStatus o) (doNotThrowOnRedirectStatus o)
     (upstream o) (downstream o).

(** The options with other [headers]. *)
Definition set_headers (value : JsObject.t hvalue) (o : t) : t :=
  mk (method o) (url o) (base o) value (body o) (data o) (timeout o)
     (retry o) (retryDelay o) (retryOnStatus o)
     (retryOnClientTimeout o) (retryOnDownstreamError o)
     (retryOnInvalidResponseBodyFormat o) (retryOnErrorResponseStatus o)
     (doNotThrowOnErrorStatus o) (doNotThrowOnRedirectStatus o)
     (upstream o) (downstream o).

(** The options with another [method]. *)
Definition set_method (value : string) (o : t) : t :=
  mk value (url o) (base o) (headers o) (body o) (data o) (timeout o)
     (retry o) (retryDelay o) (retryOnStatus o)
     (retryOnClientTimeout o) (retryOnDownstreamError o)
     (retryOnInvalidResponseBodyFormat o) (retryOnErrorResponseStatus o)
     (doNotThrowOnErrorStatus o) (doNotThrowOnRedirectStatus o)
     (upstream o) (downstream o).

(** The options with another [retryOnDownstreamError]. *)
Definition set_retryOnDownstreamError (value : bool) (o : t) : t :=
  mk (method o) (url o) (base o) (headers o) (body o) (data o) (timeout o)
     (retry o) (retryDelay o) (retryOnStatus o)
     (retryOnClientTimeout o) value
     (retryOnInvalidResponseBodyFormat o) (retryOnErrorResponseStatus o)
     (doNotThrowOnErrorStatus o) (doNotThrowOnRedirectStatus o)
     (upstream o) (downstream o).

(** The options with another [body]. *)
Definition set_body (value : jsvalue) (o : t) : t :=
  mk (method o) (url o) (base o) (headers o) value (data o) (timeout o)
     (retry o) (retryDelay o) (retryOnStatus o)
     (retryOnClientTimeout o) (retryOnDownstreamError o)
     (retryOnInvalidResponseBodyFormat o) (retryOnErrorResponseStatus o)
     (doNotThrowOnErrorStatus o) (doNotThrowOnRedirectStatus o)
     (upstream o) (downstream o).
End Options.

(** The persistent HTTP/2 session, as far as the class reads it. *)
Record Http2Session : Type := mkSession
  { destroyed : bool;
    closed : bool }.

(** What the incoming body stream does once it is resumed. *)
Inductive Readable : Type :=
| StreamEnd (chunks : list string)
| StreamError (chunks : list string) (reason : JsError).

Definition chunks_of (r : Readable) : list string :=
  match r with
  | StreamEnd chunks => chunks
  | StreamError chunks _ => chunks
  end.

(** The first event the transport emits for an exchange. [OnTimeout] is
    emitted only where a timeout was set. *)
Inductive TransportEvent : Type :=
| OnResponse (statusCode : Z) (headers : JsObject.t hvalue) (readable : Readable)
| OnError (reason : JsError)
| OnTimeout
| OnClose.

(** How the promise of one attempt settles. [Uncaught] is an exception
    that escapes an event listener. *)
Inductive Settled : Type :=
| Accept (response : Response.t)
| Reject (error : JsError)
| Uncaught (error : JsError).

(** What the class does to the outside, in order: a call of
    [http.request] ([secure] is [false]) or of [https.request], a call of
    [http2Session.request], [upstream.end(body)], the two [pipe] calls with
    the chunks the readable side yields, a call of [reconnect()] and a
    [wait]. *)
Inductive Io : Type :=
| Http1Request (secure : bool) (method url : string) (headers : JsObject.t hvalue)
| Http2Request (method path : string) (headers : JsObject.t hvalue)
| EndBody (body : option string)
| PipeUpstream (chunks : list string)
| PipeDownstream (chunks : list string)
| Reconnect
| Wait (ms : Z).

(** The collaborators of the class: [JSON.parse] ([None] when it throws a
    [SyntaxError]), [JSON.stringify] ([None] for [undefined]),
    [querystring.stringify], [new URL(url, base).toString()] ([None] when
    the constructor throws) and [pathname + search] of a URL; and the two
    facts about [JSON.parse] the properties below rely on. *)
Class Runtime : Type :=
  { JSON_parse : string -> option jsvalue;
    JSON_stringify : jsvalue -> option string;
    querystring_stringify : jsvalue -> string;
    new_URL : string -> option string -> option string;
    URL_path : string -> string;
    JSON_parse_empty_object : JSON_parse "{}" = Some (VObj []);
    JSON_parse_numeral :
      forall s n, Js.numeral s = Some n -> (n <= 9007199254740992)%N ->
                  JSON_parse s = Some (VNum (inject_Z (Z.of_N n))) }.

(** Statements that may throw. *)
Inductive completion (A : Type) : Type :=
| Normal (a : A)
| Throw (e : JsError).

Arguments Normal {A} a.
Arguments Throw {A} e.

Definition bind {A B : Type} (c : completion A) (k : A -> completion B) : completion B :=
  match c with
  | Normal a => k a
  | Throw e => Throw e
  end.

Notation "'let*' x ':=' c 'in' k" := (bind c (fun x => k))
  (at level 10, x name, c at level 100, k at level 200).

(** [a ?? b] *)
Definition nullish (a b : jsvalue) : jsvalue :=
  match a with
  | VUndefined | VNull => b
  | _ => a
  end.

(** [ToBoolean]: what a condition makes of a value. *)
Definition ToBoolean (v : jsvalue) : bool :=
  match v with
  | VUndefined | VNull => false
  | VBool b => b
  | VNum x => Js.truthy x
  | VStr s => negb (String.eqb s "")
  | VArr _ | VObj _ => true
  end.

(** [o.k]: [undefined] where the object has no such property of its own. *)
Definition prop (o : JsObject.t jsvalue) (k : string) : jsvalue :=
  match JsObject.get o k with
  | Some v => v
  | None => VUndefined
  end.

(** What a caller hands to the constructor or to a verb: a text, an
    object, or nothing. *)
Inductive Argument : Type :=
| ArgString (s : string)
| ArgObject (o : JsObject.t jsvalue)
| ArgUndefined.

(** [value === text] *)
Definition is_text (value : jsvalue) (text : string) : bool :=
  match value with
  | VStr s => String.eqb s text
  | _ => false
  end.

(** [value?.startsWith(p)]: [Normal None] stands for [undefined]. *)
Definition optional_startsWith (value : option hvalue) (p : string) : completion (option bool) :=
  match value with
  | None => Normal None
  | Some (HStr s) => Normal (Some (Js.startsWith s p))
  | Some _ => Throw TypeError
  end.

Definition is_true (b : option bool) : bool :=
  match b with Some true => true | _ => false end.

(** [value[0]]: the first code unit of a text, the first item of an array,
    the property [0] of an object; it throws on [undefined] and [null]. *)
Definition first_of (value : jsvalue) : completion jsvalue :=
  match value with
  | VUndefined | VNull => Throw TypeError
  | VStr (String c _) => Normal (VStr (String c EmptyString))
  | VArr (item :: _) => Normal item
  | VObj props => Normal (prop props "0")
  | _ => Normal VUndefined
  end.

Definition LF : string := String (ascii_of_N 10) EmptyString.

(** The environment of a logical call: the event the transport emits for
    each attempt, counted from [0]; what the peer has made of the session
    when the attempt starts; and how the [connect()] of a [reconnect()]
    after the attempt ends ([None]: connected, [Some reason]: rejected with
    [reason]). Whether the [close()] before that [connect()] settles is
    read off the session. *)
Record Environment : Type := mkEnvironment
  { transport : nat -> TransportEvent;
    peer : nat -> option Http2Session -> option Http2Session;
    reconnect : nat -> option JsError }.

(** How a logical call ends, and what it did on the way: the number of
    attempts ([#resolve] calls), the failures recorded and the actions on
    the outside. [NeverSettles] is a call that awaits a promise which
    nothing settles. *)
Inductive Outcome : Type :=
| Returned (response : Response.t)
| ReturnedUndefined
| Thrown (error : JsError)
| ThrownUndefined
| Crashed (error : JsError)
| NeverSettles.

Record Run : Type := mkRun
  { outcome : Outcome;
    attempts : nat;
    errorTrace : list JsError;
    io : list Io }.

Definition settled_outcome (s : Settled) : Outcome :=
  match s with
  | Accept response => Returned response
  | Reject error => Thrown error
  | Uncaught error => Crashed error
  end.

(** ** [src/index.js] *)
Module IndexJs.
Section Request.

Context {rt : Runtime}.

(** [#createBodyHeaderDelimiter]; [body.length] throws on [undefined]. *)
Definition createBodyHeaderDelimiter (body : option string) (isStreamed : bool)
  : completion (JsObject.t hvalue) :=
  if isStreamed
  then Normal [("transfer-encoding", HStr "chunked")]
  else match body with
       | Some body => Normal [("content-length", HNum (Js.length body))]
       | None => Throw TypeError
       end.

(** The callback [#normalizeHeaders] runs for each key. *)
Definition lower_set (normalized : JsObject.t hvalue) (entry : string * hvalue)
  : JsObject.t hvalue :=
  JsObject.set normalized (Js.toLowerCase (fst entry)) (snd entry).

(** [#normalizeHeaders]: [headers] lists the properties in the order of
    [Object.keys], so that [headers[key]] is the value next to [key]. *)
Definition normalizeHeaders (headers : JsObject.t hvalue) : JsObject.t hvalue :=
  fold_left lower_set headers [].

(** [#normalizeBody] *)
Definition normalizeBody (body : jsvalue) (contentType : option hvalue)
  : completion (option string) :=
  match body with
  | VStr body => Normal (Some body)
  | _ =>
      let* json := optional_startsWith contentType "application/json" in
      if is_true json
      then Normal (JSON_stringify body)
      else Normal (Some (querystring_stringify body))
  end.

(** [#normalizeUrl] *)
Definition normalizeUrl (url : string) (base : option string) : completion string :=
  let parsed :=
    if negb (String.eqb url "")
    then new_URL url base
    else new_URL (match base with Some b => b | None => "undefined" end) None in
  match parsed with
  | Some href => Normal href
  | None => Throw TypeError
  end.

(** [#resolveOnClientError] *)
Definition resolveOnClientError (reject : JsError -> Settled) (reason : JsError) : Settled :=
  if Error.has_code reason E_HTTP_REQUEST_CLIENT_TIMEOUT
  then reject reason
  else reject (MkError "Error" (Some E_HTTP_REQUEST_CLIENT_ERROR) None (CauseError reason)).

(** [#resolveOnClientTimeout]: [upstream.destroy(error)] emits ['error']
    with that error, which [#resolveOnClientError] receives. *)
Definition resolveOnClientTimeout (reject : JsError -> Settled) : Settled :=
  let error := MkError "Error" (Some E_HTTP_REQUEST_CLIENT_TIMEOUT) None NoCause in
  resolveOnClientError reject error.

(** [#connectionClosed] *)
Definition connectionClosed (reject : JsError -> Settled) : Settled :=
  reject (MkError "Error" (Some E_HTTP_REQUEST_CLIENT_ERROR) None NoCause).

(** [#onStreamError]: the body names [reject], which is not in scope,
    so that the listener throws. *)
Definition onStreamError (response : Response.t) (reason : JsError) : Settled :=
  Uncaught ReferenceError.

(** [#onStreamEnd]; [response] carries the buffered text in [body]. *)
Definition onStreamEnd (response : Response.t) (buffered : string)
           (accept : Response.t -> Settled) (reject : JsError -> Settled) : Settled :=
  match optional_startsWith (JsObject.get (Response.headers response) "content-type")
                            "application/json" with
  | Throw e => Uncaught e
  | Normal json =>
      if is_true json
      then match JSON_parse (if String.eqb buffered "" then "{}" else buffered) with
           | Some parsed => accept (Response.set_body response parsed)
           | None =>
               reject (MkError "TypeError"
                               (Some E_HTTP_REQUEST_INVALID_RESPONSE_BODY_FORMAT)
                               (Some response) (CauseError SyntaxError))
           end
      else accept response
  end.

(** [#bufferResponseBody] *)
Definition bufferResponseBody (readable : Readable) (response : Response.t)
           (accept : Response.t -> Settled) (reject : JsError -> Settled) : Settled :=
  let buffered := String.concat "" (chunks_of readable) in
  let response := Response.set_body response (VStr buffered) in
  match readable with
  | StreamEnd _ => onStreamEnd response buffered accept reject
  | StreamError _ reason => onStreamError response reason
  end.

(** The condition of [#resolveOnResponse] under which the status is
    thrown. *)
Definition throws_on_status (options : Options.t) (status : Z) : bool :=
  ((status >=? 400) && Bool.eqb false (Options.doNotThrowOnErrorStatus options))
  || ((status >=? 300) && Bool.eqb false (Options.doNotThrowOnRedirectStatus options)
      && (status <? 400)).

(** [#resolveOnResponse]. In the first branch [error.response] is the
    object the body is buffered into, and the reason of a failed
    buffering holds the same object. *)
Definition resolveOnResponse (options : Options.t)
           (accept : Response.t -> Settled) (reject : JsError -> Settled)
           (statusCode : Z) (headers : JsObject.t hvalue) (readable : Readable)
  : Settled * list Io :=
  let response := Response.mk statusCode headers None in
  if throws_on_status options (Response.status response)
  then
    let error r cause :=
      MkError "Error" (Some E_HTTP_REQUEST_INVALID_RESPONSE_STATUS) r cause in
    (bufferResponseBody readable response
       (fun buffered => reject (error (Some buffered) NoCause))
       (fun reason => reject (error (Error.response reason) (CauseError reason))),
     [])
  else if Options.downstream options
  then (accept response, [PipeDownstream (chunks_of readable)])
  else (bufferResponseBody readable response accept reject, []).

(** The listeners both clients install, applied to the event. *)
Definition on_event (options : Options.t) (ev : TransportEvent) : Settled * list Io :=
  match ev with
  | OnResponse statusCode headers readable =>
      resolveOnResponse options Accept Reject statusCode headers readable
  | OnError reason => (resolveOnClientError Reject reason, [])
  | OnTimeout => (resolveOnClientTimeout Reject, [])
  | OnClose => (connectionClosed Reject, [])
  end.

(** Whether the stream [http2Session.request] returns is writable: the
    session ends the stream of a [GET], a [HEAD] or a [DELETE] itself, the
    options of a request having no [endStream]. *)
Definition http2_writable (method : string) : bool :=
  negb (String.eqb method "DELETE" || String.eqb method "GET" || String.eqb method "HEAD").

(** [#resolveHttp2Client]. [http2Session.request] throws on a session
    that is destroyed ([ERR_HTTP2_INVALID_SESSION]) or closed
    ([ERR_HTTP2_GOAWAY_SESSION]); the exception rejects the promise. The
    headers are taken to be ones [http2Session.request] accepts, none of
    them a pseudo-header. *)
Definition resolveHttp2Client (http2Session : Http2Session) (options : Options.t)
           (method : string) (headers : JsObject.t hvalue) (url : string)
           (ev : TransportEvent) : Settled * list Io * option bool :=
  let headers := JsObject.delete headers "transfer-encoding" in
  if destroyed http2Session
  then (Reject (MkError "Error" (Some "ERR_HTTP2_INVALID_SESSION") None NoCause), [], None)
  else if closed http2Session
  then (Reject (MkError "Error" (Some "ERR_HTTP2_GOAWAY_SESSION") None NoCause), [], None)
  else
    let '(settled, io) := on_event options ev in
    (settled, Http2Request method (URL_path url) headers :: io,
     Some (http2_writable method)).

(** [#resolveHttp1Client]. [url] is a string, whose [protocol] is
    [undefined], so that the request is always made with [http.request];
    [http.request] throws a [TypeError] ([ERR_INVALID_PROTOCOL]) when the
    protocol of the URL is not [http:], which is the case exactly when the
    text [#normalizeUrl] gave does not start with it. The exception rejects
    the promise: no listener is installed and nothing is sent. The method
    and the headers are taken to be ones [http.request] accepts. *)
Definition resolveHttp1Client (options : Options.t) (method : string)
           (headers : JsObject.t hvalue) (url : string) (ev : TransportEvent)
  : Settled * list Io * option bool :=
  if Js.startsWith url "http:"
  then let '(settled, io) := on_event options ev in
       (settled, Http1Request false method url headers :: io, Some true)
  else (Reject TypeError, [Http1Request false method url headers], None).

(** [options.upstream ? options.upstream.pipe(upstream) :
    upstream.writable && upstream.end(body)], on the stream the client
    returned: [None] where it returned none, the statement being not
    reached or throwing into a promise that is settled, and [Some writable]
    otherwise. The body goes out once the request exists and before the
    transport answers. *)
Definition send_body (options : Options.t) (upstream : option bool) (body : option string)
           (io : list Io) : list Io :=
  match upstream, io with
  | Some writable, request :: rest =>
      match Options.upstream options with
      | Some chunks => request :: PipeUpstream chunks :: rest
      | None => if writable then request :: EndBody body :: rest else request :: rest
      end
  | _, _ => io
  end.

(** The [const] declarations that open the executor of [#resolve], and
    [Object.assign(headers, delimiter)]: the body, the headers and the URL
    of the request. [http2Session] is [this.http2Session]. *)
Definition prepare (http2Session : option Http2Session) (options : Options.t)
  : completion (option string * JsObject.t hvalue * string) :=
  let headers := normalizeHeaders (Options.headers options) in
  let* body := normalizeBody (nullish (Options.body options) (Options.data options))
                             (JsObject.get headers "content-type") in
  let* delimiter :=
    createBodyHeaderDelimiter
      body
      (match Options.upstream options with Some _ => true | None => false end
       || match http2Session with Some _ => true | None => false end) in
  let* url := normalizeUrl (Options.url options) (Options.base options) in
  Normal (body, JsObject.assign headers delimiter, url).

(** [#resolve]: an exception in the executor rejects the promise. *)
Definition resolve (http2Session : option Http2Session) (options : Options.t)
           (ev : TransportEvent) : Settled * list Io :=
  let method := Options.method options in
  match prepare http2Session options with
  | Throw e => (Reject e, [])
  | Normal (body, headers, url) =>
      let '(settled, io, upstream) :=
        match http2Session with
        | Some session => resolveHttp2Client session options method headers url ev
        | None => resolveHttp1Client options method headers url ev
        end in
      (settled, send_body options upstream body io)
  end.

(** [#resolveRetryLoopError]: the new [errorTrace], or the error
    thrown. *)
Definition resolveRetryLoopError (options : Options.t) (errorTrace : list JsError)
           (error : JsError) : completion (list JsError) :=
  let push := Normal (errorTrace ++ [error]) in
  if Error.has_code error E_HTTP_REQUEST_CLIENT_ERROR then push
  else if Error.has_code error E_HTTP_REQUEST_CLIENT_TIMEOUT then
    if Options.retryOnClientTimeout options then push else Throw error
  else if Error.has_code error E_HTTP_REQUEST_DOWNSTREAM_ERROR then
    if Options.retryOnDownstreamError options then push else Throw error
  else if Error.has_code error E_HTTP_REQUEST_INVALID_RESPONSE_BODY_FORMAT then
    if Options.retryOnInvalidResponseBodyFormat options then push else Throw error
  else if Error.has_code error E_HTTP_REQUEST_INVALID_RESPONSE_STATUS then
    if Options.retryOnErrorResponseStatus options then push
    else match Error.response error with
         | Some response =>
             if Js.includes (Options.retryOnStatus options) (Response.status response)
             then push else Throw error
         | None => Throw TypeError
         end
  else Throw error.

Variable env : Environment.

(** The [while(retry--)] loop of [#resolveRetryLoop]. The argument is the
    value of [retry] the condition tests; the body runs with one less.
    [attempt] counts the calls of [#resolve] made so far. *)
Fixpoint retry_while (options : Options.t) (retry : nat) (attempt : nat)
         (http2Session : option Http2Session)
         (errorTrace : list JsError) (io : list Io) : Run :=
  match retry with
  | O => mkRun ReturnedUndefined attempt errorTrace io
  | S retry =>
      let http2Session := peer env attempt http2Session in
      let '(settled, io1) := resolve http2Session options (transport env attempt) in
      let io := io ++ io1 in
      match settled with
      | Accept response =>
          if (Response.status response >=? 400)
             && (0 <? retry)%nat
             && (Js.includes (Options.retryOnStatus options) (Response.status response)
                 || Options.retryOnErrorResponseStatus options)
          then retry_while options retry (S attempt) http2Session errorTrace io
          else mkRun (Returned response) (S attempt) errorTrace io
      | Reject error =>
          if (retry =? 0)%nat
          then mkRun (Thrown error) (S attempt) errorTrace io
          else match resolveRetryLoopError options errorTrace error with
               | Throw thrown => mkRun (Thrown thrown) (S attempt) errorTrace io
               | Normal errorTrace =>
                   retry_while options retry (S attempt) http2Session errorTrace
                               (io ++ [Wait (Options.retryDelay options)])
               end
      | Uncaught error => mkRun (Crashed error) (S attempt) errorTrace io
      end
  end.

(** [Math.abs(Math.floor(options.retry))] *)
Definition retry_budget (options : Options.t) : Z :=
  Js.Math_abs (Js.Math_floor (Options.retry options)).

(** [#resolveRetryLoop] *)
Definition resolveRetryLoop (http2Session : option Http2Session) (options : Options.t)
  : Run :=
  retry_while options (Z.to_nat (retry_budget options)) 0 http2Session [] [].

(** The end of [#fetch], on the merged options. *)
Definition fetch (http2Session : option Http2Session) (options : Options.t) : Run :=
  if Js.truthy (Options.retry options)
  then resolveRetryLoop http2Session options
  else let http2Session := peer env 0%nat http2Session in
       let '(settled, io) := resolve http2Session options (transport env 0%nat) in
       mkRun (settled_outcome settled) 1 [] io.

(** [this.http2Session] as [#resolve] reads it in the attempt numbered
    [attempt + k], when it was [http2Session] before the attempt numbered
    [attempt]. *)
Fixpoint session_from (http2Session : option Http2Session) (attempt k : nat)
  : option Http2Session :=
  match k with
  | O => peer env attempt http2Session
  | S k => session_from (peer env attempt http2Session) (S attempt) k
  end.

Definition session_at (http2Session : option Http2Session) (k : nat)
  : option Http2Session :=
  session_from http2Session 0 k.

(** Whether the loop takes another turn after an attempt that settled
    so, while attempts remain: a response it retries, or a failure it
    records. *)
Definition goes_on (options : Options.t) (settled : Settled) : bool :=
  match settled with
  | Accept response =>
      (Response.status response >=? 400)
      && (Js.includes (Options.retryOnStatus options) (Response.status response)
          || Options.retryOnErrorResponseStatus options)
  | Reject error =>
      match resolveRetryLoopError options [] error with
      | Normal _ => true
      | Throw _ => false
      end
  | Uncaught _ => false
  end.

End Request.

(** [constructor]: the configuration the instance keeps. The object the
    caller gives is the one that is kept, and changed. *)
Definition constructor (config : Argument) : JsObject.t jsvalue :=
  let config := match config with
                | ArgString base => [("base", VStr base)]
                | ArgObject config => config
                | ArgUndefined => []
                end in
  let base := prop config "base" in
  let url := prop config "url" in
  JsObject.delete (JsObject.set config "base" (nullish base url)) "url".

(** The object literal [#fetch] merges the configuration and the options
    into. *)
Definition defaults (method : string) : JsObject.t jsvalue :=
  [("method", VStr method);
   ("headers", VObj []);
   ("retry", VNum 3%Q);
   ("retryDelay", VNum 200%Q);
   ("url", VStr "");
   ("timeout", VNum 30000%Q);
   ("retryOnStatus", VArr [])].

Section Fetch.

(** [a + b]; the one use the class makes of it is on two texts. *)
Variable plus : jsvalue -> jsvalue -> jsvalue.

(** [#fetch] up to the merged options; [config] is [this.#config]. The
    function is not [async]: what it throws, the verb throws. *)
Definition fetch_options (config : JsObject.t jsvalue) (method : string)
           (options : Argument) : completion (JsObject.t jsvalue) :=
  let options := match options with
                 | ArgString url => ArgObject [("url", VStr url)]
                 | _ => options
                 end in
  let* options :=
    if ToBoolean (prop config "url")
    then match options with
         | ArgObject o =>
             if ToBoolean (prop o "url")
             then let* first := first_of (prop o "url") in
                  Normal (ArgObject
                            (JsObject.set o "url"
                                          (if is_text first "/"
                                           then prop o "url"
                                           else plus (prop config "url") (prop o "url"))))
             else Normal options
         | _ => Throw TypeError
         end
    else Normal options in
  Normal (JsObject.assign (JsObject.assign (defaults method) config)
                          (match options with
                           | ArgObject o => o
                           | _ => []
                           end)).

End Fetch.

(** [options.retry ? this.#resolveRetryLoop(options) : this.#resolve(options)]:
    whether the merged options send the call into the loop. *)
Definition retries (options : JsObject.t jsvalue) : bool :=
  ToBoolean (prop options "retry").

End IndexJs.

(** ** The class in [src/unnamed/part_000]

    The file holds two further copies of the class. This module embeds
    the first one; the functions it takes from [IndexJs] have the same
    text there. [#onStreamEnd], [#contentTypeApplicationJson] and
    [#contentTypeTextEventStream] have the same text in both copies. *)
Module Part000.

(** How a promise of [close], [connect] or [reconnect] ends. [Pending] is
    a promise that never settles: the executor of [connect] is an [async]
    function, and when that function throws, its own promise is rejected,
    which nothing handles, while [accept] and [reject] are never called.
    [Unsettled] is a promise that never settles either, nothing being
    thrown: it waits for a callback that is never called. *)
Inductive Promise : Type :=
| Fulfilled
| Rejected (reason : JsError)
| Pending (unhandled : JsError)
| Unsettled.

(** The executor of [close], on [this.http2Session]: how the promise ends,
    and what [this.http2Session] is from then on. [closing] is what the
    callback of [http2Session.close] receives once the session has closed.
    [http2Session.close] returns at once on a session that is destroyed,
    and the callback is then never registered: [accept] and [reject] are
    never called and the property stays. *)
Definition close_session (http2Session : option Http2Session) (closing : option JsError)
  : Promise * option Http2Session :=
  match http2Session with
  | Some session =>
      if Bool.eqb false (closed session)
      then if destroyed session
           then (Unsettled, Some session)
           else (match closing with
                 | Some error => Rejected error
                 | None => Fulfilled
                 end,
                 None)
      else (Fulfilled, None)
  | None => (Fulfilled, None)
  end.

Section Request.

Context {rt : Runtime}.

(** [#createBodyHeaderDelimiter]: [body?.length || 0] *)
Definition createBodyHeaderDelimiter (body : option string) (isStreamed : bool)
  : JsObject.t hvalue :=
  if isStreamed
  then [("transfer-encoding", HStr "chunked")]
  else [("content-length",
         HNum (match body with Some body => Js.length body | None => 0 end))].

(** [#contentTypeApplicationJson] *)
Definition contentTypeApplicationJson (body : string) : completion jsvalue :=
  match JSON_parse (if String.eqb body "" then "{}" else body) with
  | Some parsed => Normal parsed
  | None => Throw (MkError "TypeError" None None (CauseError SyntaxError))
  end.

(** One [field] of an event, as the inner callback of
    [#contentTypeTextEventStream] turns it into an entry. *)
Definition eventStreamEntry (field : string) : string * jsvalue :=
  let separator := Js.indexOf field ":"%char in
  let param := Js.slice field 0 separator in
  let value := Js.trim (Js.slice_from field (separator + 1)) in
  match JSON_parse value with
  | Some parsed => (param, parsed)
  | None => (param, VStr value)
  end.

(** [#contentTypeTextEventStream] *)
Definition contentTypeTextEventStream (body : string) : jsvalue :=
  VArr (map (fun fields =>
               VObj (JsObject.fromEntries (map eventStreamEntry (Js.split fields LF))))
            (Js.split (Js.trim body) (LF ++ LF)%string)).

(** [#onStreamEnd]; [response] carries the buffered text in [body]. *)
Definition onStreamEnd (response : Response.t) (buffered : string)
           (accept : Response.t -> Settled) (reject : JsError -> Settled) : Settled :=
  let contentType := JsObject.get (Response.headers response) "content-type" in
  let decoded :=
    let* json := optional_startsWith contentType "application/json" in
    if is_true json
    then let* parsed := contentTypeApplicationJson buffered in
         Normal (Response.set_body response parsed)
    else let* eventStream := optional_startsWith contentType "text/event-stream" in
         if is_true eventStream
         then Normal (Response.set_body response (contentTypeTextEventStream buffered))
         else Normal response in
  match decoded with
  | Normal response => accept response
  | Throw reason =>
      reject (MkError "TypeError" (Some E_HTTP_REQUEST_INVALID_RESPONSE_BODY_FORMAT)
                      (Some response) (CauseError reason))
  end.

(** [#bufferResponseBody] *)
Definition bufferResponseBody (readable : Readable) (response : Response.t)
           (accept : Response.t -> Settled) (reject : JsError -> Settled) : Settled :=
  let buffered := String.concat "" (chunks_of readable) in
  let response := Response.set_body response (VStr buffered) in
  match readable with
  | StreamEnd _ => onStreamEnd response buffered accept reject
  | StreamError _ reason => IndexJs.onStreamError response reason
  end.

(** [#resolveOnResponse] *)
Definition resolveOnResponse (options : Options.t)
           (accept : Response.t -> Settled) (reject : JsError -> Settled)
           (statusCode : Z) (headers : JsObject.t hvalue) (readable : Readable)
  : Settled * list Io :=
  let response := Response.mk statusCode headers None in
  if IndexJs.throws_on_status options (Response.status response)
  then
    let error r cause :=
      MkError "Error" (Some E_HTTP_REQUEST_INVALID_RESPONSE_STATUS) r cause in
    (bufferResponseBody readable response
       (fun buffered => reject (error (Some buffered) NoCause))
       (fun reason => reject (error (Error.response reason) (CauseError reason))),
     [])
  else if Options.downstream options
  then (accept response, [PipeDownstream (chunks_of readable)])
  else (bufferResponseBody readable response accept reject, []).

Definition on_event (options : Options.t) (ev : TransportEvent) : Settled * list Io :=
  match ev with
  | OnResponse statusCode headers readable =>
      resolveOnResponse options Accept Reject statusCode headers readable
  | OnError reason => (IndexJs.resolveOnClientError Reject reason, [])
  | OnTimeout => (IndexJs.resolveOnClientTimeout Reject, [])
  | OnClose => (IndexJs.connectionClosed Reject, [])
  end.

(** [#resolveHttp2Client]; after [return reject(error)] the caller has
    no stream. *)
Definition resolveHttp2Client (http2Session : Http2Session) (options : Options.t)
           (method : string) (headers : JsObject.t hvalue) (url : string)
           (ev : TransportEvent) : Settled * list Io * option bool :=
  if Bool.eqb true (destroyed http2Session)
  then (Reject (MkError "Error" (Some E_HTTP_REQUEST_HTTP2_SESSION_DESTROYED) None
                        (CauseText ("Can not perform request over a destroyed HTTP2 session to: "
                                    ++ url)%string)),
        [], None)
  else if Bool.eqb true (closed http2Session)
  then (Reject (MkError "Error" (Some E_HTTP_REQUEST_HTTP2_SESSION_CLOSED) None
                        (CauseText ("Can not perform request over a closed HTTP2 session to: "
                                    ++ url)%string)),
        [], None)
  else
    let headers := JsObject.delete headers "transfer-encoding" in
    let '(settled, io) := on_event options ev in
    (settled, Http2Request method (URL_path url) headers :: io,
     Some (IndexJs.http2_writable method)).

(** [#resolveHttp1Client]: [https.request] for a URL that starts with
    [https:] and [http.request] for any other, which is taken to be an
    [http:] URL, the one protocol [http.request] accepts. *)
Definition resolveHttp1Client (options : Options.t) (method : string)
           (headers : JsObject.t hvalue) (url : string) (ev : TransportEvent)
  : Settled * list Io * option bool :=
  let '(settled, io) := on_event options ev in
  (settled, Http1Request (Js.startsWith url "https:") method url headers :: io, Some true).

(** The [const] declarations that open the executor of [#resolve], and
    [Object.assign(headers, delimiter)]. *)
Definition prepare (http2Session : option Http2Session) (options : Options.t)
  : completion (option string * JsObject.t hvalue * string) :=
  let headers := IndexJs.normalizeHeaders (Options.headers options) in
  let* body := IndexJs.normalizeBody
                 (nullish (Options.body options) (Options.data options))
                 (JsObject.get headers "content-type") in
  let delimiter :=
    createBodyHeaderDelimiter
      body
      (match Options.upstream options with Some _ => true | None => false end
       || match http2Session with Some _ => true | None => false end) in
  let* url := IndexJs.normalizeUrl (Options.url options) (Options.base options) in
  Normal (body, JsObject.assign headers delimiter, url).

(** [#resolve]. After [#resolveHttp2Client] has rejected there is no
    request to write the body to: the exception of that statement goes
    to a promise that is settled. *)
Definition resolve (http2Session : option Http2Session) (options : Options.t)
           (ev : TransportEvent) : Settled * list Io :=
  let method := Options.method options in
  match prepare http2Session options with
  | Throw e => (Reject e, [])
  | Normal (body, headers, url) =>
      let '(settled, io, upstream) :=
        match http2Session with
        | Some session => resolveHttp2Client session options method headers url ev
        | None => resolveHttp1Client options method headers url ev
        end in
      (settled, IndexJs.send_body options upstream body io)
  end.

(** [await this.reconnect()], as [#resolveRetryLoopError] runs it on
    [this.http2Session]: the promise of its [close()] comes first, whose
    callback receives nothing, the ['close'] event having no argument;
    [reconnected] tells how the [connect()] that follows ends, [None] when
    it connects and [Some reason] when it rejects with [reason]. The
    session of a reconnect that succeeds is a new, open one. *)
Definition reconnecting (http2Session : option Http2Session) (reconnected : option JsError)
  : Promise * option Http2Session :=
  match close_session http2Session None with
  | (Fulfilled, http2Session) =>
      match reconnected with
      | Some reason => (Rejected reason, http2Session)
      | None => (Fulfilled, Some (mkSession false false))
      end
  | ended => ended
  end.

(** [#resolveRetryLoopError]: the new [errorTrace] and session, or the
    error thrown, or [None] where the function never returns; and the
    actions taken. When [reconnect()] fails, the [reconnectError] the
    function builds is dropped, and what it throws is the [reason] of the
    failure; when [reconnect()] never settles, neither does the function. *)
Definition resolveRetryLoopError (options : Options.t) (errorTrace : list JsError)
           (http2Session : option Http2Session) (reconnected : option JsError)
           (error : JsError)
  : option (completion (list JsError * option Http2Session)) * list Io :=
  let push := Some (Normal (errorTrace ++ [error], http2Session)) in
  let throw := Some (Throw error) in
  if Error.has_code error E_HTTP_REQUEST_CLIENT_ERROR then (push, [])
  else if Error.has_code error E_HTTP_REQUEST_HTTP2_SESSION_DESTROYED
          || Error.has_code error E_HTTP_REQUEST_HTTP2_SESSION_CLOSED then
    match reconnecting http2Session reconnected with
    | (Fulfilled, http2Session) =>
        (Some (Normal (errorTrace ++ [error], http2Session)), [Reconnect])
    | (Rejected reason, _) => (Some (Throw reason), [Reconnect])
    | (Pending _, _) | (Unsettled, _) => (None, [Reconnect])
    end
  else if Error.has_code error E_HTTP_REQUEST_CLIENT_TIMEOUT then
    (if Options.retryOnClientTimeout options then push else throw, [])
  else if Error.has_code error E_HTTP_REQUEST_DOWNSTREAM_ERROR then
    (if Options.retryOnDownstreamError options then push else throw, [])
  else if Error.has_code error E_HTTP_REQUEST_INVALID_RESPONSE_BODY_FORMAT then
    (if Options.retryOnInvalidResponseBodyFormat options then push else throw, [])
  else if Error.has_code error E_HTTP_REQUEST_INVALID_RESPONSE_STATUS then
    (if Options.retryOnErrorResponseStatus options then push
     else match Error.response error with
          | Some response =>
              if Js.includes (Options.retryOnStatus options) (Response.status response)
              then push else throw
          | None => Some (Throw TypeError)
          end, [])
  else (throw, []).

(** [errorTrace.every((error) => error.code === errorTrace[0].code)] *)
Definition same_code (a b : JsError) : bool :=
  match Error.code a, Error.code b with
  | Some x, Some y => String.eqb x y
  | None, None => true
  | _, _ => false
  end.

Definition every_same_code (errorTrace : list JsError) : bool :=
  match errorTrace with
  | [] => true
  | first :: _ => forallb (fun error => same_code error first) errorTrace
  end.

(** The statements of [#resolveRetryLoop] after the loop. *)
Definition after_loop (errorTrace : list JsError) : Outcome :=
  if every_same_code errorTrace
  then match rev errorTrace with
       | last :: _ => Thrown last
       | [] => ThrownUndefined
       end
  else Thrown (MkError "Error" (Some E_HTTP_REQUEST_RETRY_ERROR) None
                       (CauseTrace errorTrace)).

Variable env : Environment.

(** The [while(retry--)] loop of [#resolveRetryLoop]; [after] stands for
    the statements that follow it. *)
Fixpoint retry_while (after : list JsError -> Outcome)
         (options : Options.t) (retry : nat) (attempt : nat)
         (http2Session : option Http2Session)
         (errorTrace : list JsError) (io : list Io) : Run :=
  match retry with
  | O => mkRun (after errorTrace) attempt errorTrace io
  | S retry =>
      let http2Session := peer env attempt http2Session in
      let '(settled, io1) := resolve http2Session options (transport env attempt) in
      let io := io ++ io1 in
      match settled with
      | Accept response =>
          if (Response.status response >=? 400)
             && (0 <? retry)%nat
             && (Js.includes (Options.retryOnStatus options) (Response.status response)
                 || Options.retryOnErrorResponseStatus options)
          then retry_while after options retry (S attempt) http2Session errorTrace io
          else mkRun (Returned response) (S attempt) errorTrace io
      | Reject error =>
          if (retry =? 0)%nat
          then mkRun (Thrown error) (S attempt) errorTrace io
          else match resolveRetryLoopError options errorTrace http2Session
                                           (reconnect env attempt) error with
               | (Some (Throw thrown), io2) =>
                   mkRun (Thrown thrown) (S attempt) errorTrace (io ++ io2)
               | (Some (Normal (errorTrace, http2Session)), io2) =>
                   retry_while after options retry (S attempt) http2Session errorTrace
                               (io ++ io2 ++ [Wait (Options.retryDelay options)])
               | (None, io2) => mkRun NeverSettles (S attempt) errorTrace (io ++ io2)
               end
      | Uncaught error => mkRun (Crashed error) (S attempt) errorTrace io
      end
  end.

(** [Math.abs(Math.floor(options.retry)) + 1] *)
Definition retry_budget (options : Options.t) : Z :=
  Js.Math_abs (Js.Math_floor (Options.retry options)) + 1.

(** [#resolveRetryLoop] *)
Definition resolveRetryLoop (http2Session : option Http2Session) (options : Options.t)
  : Run :=
  retry_while after_loop options (Z.to_nat (retry_budget options)) 0 http2Session [] [].

(** The end of [#fetch], on the merged options. *)
Definition fetch (http2Session : option Http2Session) (options : Options.t) : Run :=
  if Js.truthy (Options.retry options)
  then resolveRetryLoop http2Session options
  else let http2Session := peer env 0%nat http2Session in
       let '(settled, io) := resolve http2Session options (transport env 0%nat) in
       mkRun (settled_outcome settled) 1 [] io.

End Request.

(** What [connect] reads of [new URL(value)]. *)
Record URL : Type := mkURL
  { protocol : string;
    host : string;
    pathname : string;
    search : string }.

(** The instance: [this.config] and [this.http2Session]. *)
Record Instance : Type := mkInstance
  { config : JsObject.t jsvalue;
    http2Session : option Http2Session }.

Definition E_HTTP_REQUEST_CONNECT_ERROR := "E_HTTP_REQUEST_CONNECT_ERROR".

Section Session.

(** [new URL(value)]; [None] when the constructor throws. *)
Variable new_URL_of : jsvalue -> option URL.

(** [close], on the instance: the configuration stays as it is. *)
Definition close (this : Instance) (closing : option JsError) : Promise * Instance :=
  let '(ended, http2Session) := close_session (http2Session this) closing in
  (ended, mkInstance (config this) http2Session).

(** [connect(authority, options)]; [options] is empty where none are
    given. [http2.connect] is taken to return a session: [connecting] is
    the reason of the ['error'] that session emits, [None] when it
    connects, and [session] is the session as it is when the promise
    settles. *)
Definition connect (this : Instance) (authority : jsvalue) (options : JsObject.t jsvalue)
           (closing connecting : option JsError) (session : Http2Session)
  : Promise * Instance :=
  let '(ended, this) := close this closing in
  match ended with
  | Fulfilled =>
      match new_URL_of (if ToBoolean authority then authority
                        else prop (config this) "base") with
      | None => (Pending TypeError, this)
      | Some url =>
          let authority := (protocol url ++ "//" ++ host url)%string in
          let config := JsObject.assign (config this) options in
          let config := JsObject.set config "base" (VStr authority) in
          let config := JsObject.set config "url" (VStr (pathname url ++ search url)) in
          (match connecting with
           | None => Fulfilled
           | Some reason =>
               Rejected (MkError "Error" (Some E_HTTP_REQUEST_CONNECT_ERROR) None
                                 (CauseError reason))
           end,
           mkInstance config (Some session))
      end
  | Rejected error | Pending error => (Pending error, this)
  | Unsettled => (Unsettled, this)
  end.

(** [reconnect]: [close], then [connect] without arguments, which finds
    no session left to close. *)
Definition reconnect (this : Instance) (closing connecting : option JsError)
           (session : Http2Session) : Promise * Instance :=
  let '(ended, this) := close this closing in
  match ended with
  | Fulfilled => connect this VUndefined [] closing connecting session
  | _ => (ended, this)
  end.

End Session.
End Part000.

(** ** The second copy of the class in [src/unnamed/part_000]

    The copy whose [fetch] is public. Its [#resolveHttp2Client],
    [#resolveHttp1Client], [#resolveOnResponse] and what they call, and its
    [#resolveRetryLoopError], have the text of the first copy up to the
    names of the variables; they are taken from [Part000]. The second copy
    reads one more option, [authority], which is a parameter here. *)
Module Part000Second.

(** What [lastIndexOf] compares in [#resolveRetryLoop]: the codes the
    array holds, and the arrow function it is asked to find. *)
Inductive Searched : Type :=
| CodeOf (code : option string)
| ArrowFunction.

(** [a === b] on such values. *)
Definition strictly_equal (a b : Searched) : bool :=
  match a, b with
  | CodeOf (Some x), CodeOf (Some y) => String.eqb x y
  | CodeOf None, CodeOf None => true
  | ArrowFunction, ArrowFunction => true
  | _, _ => false
  end.

(** [Array.prototype.lastIndexOf]: [found] is the last index met so
    far. *)
Fixpoint lastIndexOf_from (items : list Searched) (searchElement : Searched)
         (index found : Z) : Z :=
  match items with
  | [] => found
  | item :: rest =>
      lastIndexOf_from rest searchElement (index + 1)
                       (if strictly_equal item searchElement then index else found)
  end.

Definition lastIndexOf (items : list Searched) (searchElement : Searched) : Z :=
  lastIndexOf_from items searchElement 0 (-1).

(** [Array.prototype.filter], whose callback is given the index. *)
Fixpoint filter_from {A : Type} (callback : A -> Z -> bool) (items : list A) (index : Z)
  : list A :=
  match items with
  | [] => []
  | item :: rest =>
      if callback item index
      then item :: filter_from callback rest (index + 1)
      else filter_from callback rest (index + 1)
  end.

(** [reasons.filter((reason, i) => [i, -1].includes(
       reasons.map(e => e.code).lastIndexOf(code => code === reason.code)))] *)
Definition unique (reasons : list JsError) : list JsError :=
  filter_from
    (fun reason i =>
       Js.includes [i; -1]
                   (lastIndexOf (map (fun e => CodeOf (Error.code e)) reasons)
                                ArrowFunction))
    reasons 0.

(** How a call ends: it resolves; it rejects with [reason], [undefined]
    when it is [None], on which [retried] was set when it is not [None];
    [fetch] rejects with an error of code [E_HTTP_REQUEST_FAILED] whose
    cause is such a reason; an exception escapes a listener; or the call
    awaits a promise that nothing settles. *)
Inductive Ending : Type :=
| Resolved (response : Response.t)
| Rejected (reason : option JsError) (retried : option (list JsError))
| Failed (cause : option JsError) (retried : option (list JsError))
| Unhandled (error : JsError)
| Unsettled.

(** A call, with the number of its attempts, the reasons it recorded and
    its actions on the outside. *)
Record Call : Type := mkCall
  { ending : Ending;
    made : nat;
    reasons : list JsError;
    actions : list Io }.

(** The statements of [#resolveRetryLoop] after the loop. *)
Definition after_loop (reasons : list JsError) : Ending :=
  match rev (unique reasons) with
  | [] => Rejected None None
  | reason :: earlier =>
      Rejected (Some reason)
               match earlier with
               | [] => None
               | _ => Some (rev earlier)
               end
  end.

Section Request.

Context {rt : Runtime}.

(** [new URL(href).pathname] and [String.prototype.toUpperCase]. *)
Variable URL_pathname : string -> string.
Variable toUpperCase : string -> string.

(** A text that is given and not empty. *)
Definition given (value : option string) : bool :=
  match value with
  | Some text => negb (String.eqb text "")
  | None => false
  end.

(** The text [new URL] makes of its argument. *)
Definition text_of (value : option string) : string :=
  match value with
  | Some text => text
  | None => "undefined"
  end.

Definition href_of (parsed : option string) : completion string :=
  match parsed with
  | Some href => Normal href
  | None => Throw TypeError
  end.

(** [#normalizeUrl] *)
Definition normalizeUrl (authority base : option string) (url : string)
  : completion string :=
  let* baseURL :=
    href_of (if given authority && given base
             then new_URL (text_of base) (Some (text_of authority))
             else new_URL (text_of (if given base then base else authority)) None) in
  let* baseURL :=
    if negb (String.eqb url "") && Bool.eqb false (Js.endsWith (URL_pathname baseURL) "/")
    then href_of (new_URL (URL_pathname baseURL ++ "/") (Some baseURL))
    else Normal baseURL in
  if negb (String.eqb url "")
  then href_of (new_URL url (Some baseURL))
  else Normal baseURL.

(** The [const] declarations that open the executor of [#resolve], and
    [Object.assign(headers, delimiter)]. *)
Definition prepare (http2Session : option Http2Session) (authority : option string)
           (options : Options.t)
  : completion (option string * JsObject.t hvalue * string) :=
  let headers := IndexJs.normalizeHeaders (Options.headers options) in
  let* body := IndexJs.normalizeBody
                 (nullish (Options.body options) (Options.data options))
                 (JsObject.get headers "content-type") in
  let delimiter :=
    Part000.createBodyHeaderDelimiter
      body
      (match Options.upstream options with Some _ => true | None => false end
       || match http2Session with Some _ => true | None => false end) in
  let* url := normalizeUrl authority (Options.base options) (Options.url options) in
  Normal (body, JsObject.assign headers delimiter, url).

(** [#resolve] *)
Definition resolve (http2Session : option Http2Session) (authority : option string)
           (options : Options.t) (ev : TransportEvent) : Settled * list Io :=
  let method := Options.method options in
  match prepare http2Session authority options with
  | Throw e => (Reject e, [])
  | Normal (body, headers, url) =>
      let '(settled, io, upstream) :=
        match http2Session with
        | Some session => Part000.resolveHttp2Client session options method headers url ev
        | None => Part000.resolveHttp1Client options method headers url ev
        end in
      (settled, IndexJs.send_body options upstream body io)
  end.

Variable env : Environment.

(** The [while(retry--)] loop of [#resolveRetryLoop] and the statements
    after it. A rejection on the last turn is recorded, and the condition
    of the loop is tested once more. *)
Fixpoint retry_while (authority : option string) (options : Options.t)
         (retry : nat) (attempt : nat) (http2Session : option Http2Session)
         (reasons : list JsError) (io : list Io) : Call :=
  match retry with
  | O => mkCall (after_loop reasons) attempt reasons io
  | S retry =>
      let http2Session := peer env attempt http2Session in
      let '(settled, io1) :=
        resolve http2Session authority options (transport env attempt) in
      let io := io ++ io1 in
      match settled with
      | Accept response =>
          if (Response.status response >=? 400)
             && (0 <? retry)%nat
             && (Js.includes (Options.retryOnStatus options) (Response.status response)
                 || Options.retryOnErrorResponseStatus options)
          then retry_while authority options retry (S attempt) http2Session reasons io
          else mkCall (Resolved response) (S attempt) reasons io
      | Reject reason =>
          if (retry <=? 0)%nat
          then retry_while authority options retry (S attempt) http2Session
                           (reasons ++ [reason]) io
          else match Part000.resolveRetryLoopError options reasons http2Session
                                                   (reconnect env attempt) reason with
               | (Some (Throw thrown), io2) =>
                   mkCall (Rejected (Some thrown) None) (S attempt) reasons (io ++ io2)
               | (Some (Normal (reasons, http2Session)), io2) =>
                   retry_while authority options retry (S attempt) http2Session reasons
                               (io ++ io2 ++ [Wait (Options.retryDelay options)])
               | (None, io2) => mkCall Unsettled (S attempt) reasons (io ++ io2)
               end
      | Uncaught error => mkCall (Unhandled error) (S attempt) reasons io
      end
  end.

(** [#resolveRetryLoop] *)
Definition resolveRetryLoop (http2Session : option Http2Session)
           (authority : option string) (options : Options.t) : Call :=
  retry_while authority options (Z.to_nat (IndexJs.retry_budget options)) 0
              http2Session [] [].

(** The [catch] of [fetch]: a rejection becomes the cause of an error of
    code [E_HTTP_REQUEST_FAILED]. *)
Definition failed (e : Ending) : Ending :=
  match e with
  | Rejected reason retried => Failed reason retried
  | _ => e
  end.

(** [fetch], from [options.method = options.method.toUpperCase()] on: the
    options are the merged ones, whose [method] is a text. *)
Definition fetch (http2Session : option Http2Session) (authority : option string)
           (options : Options.t) : Call :=
  let options := Options.set_method (toUpperCase (Options.method options)) options in
  if Js.truthy (Options.retry options)
  then let call := resolveRetryLoop http2Session authority options in
       mkCall (failed (ending call)) (made call) (reasons call) (actions call)
  else let http2Session := peer env 0%nat http2Session in
       let '(settled, io) :=
         resolve http2Session authority options (transport env 0%nat) in
       mkCall match settled with
              | Accept response => Resolved response
              | Reject reason => Failed (Some reason) None
              | Uncaught error => Unhandled error
              end
              1 [] io.

End Request.

(** [#normalizeOptions] *)
Definition normalizeOptions (options : Argument) : Argument :=
  match options with
  | ArgString url => ArgObject [("url", VStr url)]
  | _ => options
  end.

(** The object literal [fetch] merges the configuration and the options
    into; it has no [method]. *)
Definition defaults : JsObject.t jsvalue :=
  [("headers", VObj []);
   ("retry", VNum 3%Q);
   ("retryDelay", VNum 200%Q);
   ("url", VStr "");
   ("timeout", VNum 30000%Q);
   ("retryOnStatus", VArr [])].

Definition E_HTTP_REQUEST_INVALID_METHOD := "E_HTTP_REQUEST_INVALID_METHOD".

Section Verbs.

Variable toUpperCase : string -> string.

(** [fetch] up to [options.method = options.method.toUpperCase()];
    [config] is [this.config]. What it throws rejects the promise of
    [fetch], outside of the [try] that wraps the later failures. *)
Definition fetch_options (config : JsObject.t jsvalue) (options : Argument)
  : completion (JsObject.t jsvalue) :=
  let options := normalizeOptions options in
  let options := JsObject.assign (JsObject.assign defaults config)
                                 (match options with
                                  | ArgObject o => o
                                  | _ => []
                                  end) in
  match prop options "method" with
  | VStr method => Normal (JsObject.set options "method" (VStr (toUpperCase method)))
  | _ => Throw (MkError "TypeError" (Some E_HTTP_REQUEST_INVALID_METHOD) None NoCause)
  end.

(** A verb: [options = this.#normalizeOptions(options)],
    [options.method = method], [return this.fetch(options)]. The assignment
    throws where there are no options. *)
Definition verb (config : JsObject.t jsvalue) (method : string) (options : Argument)
  : completion (JsObject.t jsvalue) :=
  match normalizeOptions options with
  | ArgObject o => fetch_options config (ArgObject (JsObject.set o "method" (VStr method)))
  | _ => Throw TypeError
  end.

End Verbs.
End Part000Second.

(** ** The words of the specification *)
Module Spec.

(** "Attempt budget = max(1, floor(abs(requested retry value)))" *)
Definition attempt_budget (retry : Q) : Z := Z.max 1 (Qfloor (Qabs retry)).

(** "status >= 400 is a failure unless doNotThrowOnErrorStatus is set;
    status in [300,400) is a failure unless doNotThrowOnRedirectStatus is
    set" *)
Definition status_gate (options : Options.t) (status : Z) : Prop :=
  (400 <= status /\ Options.doNotThrowOnErrorStatus options = false)
  \/ (300 <= status < 400 /\ Options.doNotThrowOnRedirectStatus options = false).

(** The failure kinds the retry engine tells apart. *)
Inductive FailureKind : Type :=
| ClientError
| ClientTimeout
| DownstreamError
| InvalidResponseBodyFormat
| InvalidResponseStatus
| OtherKind.

Definition kind_of (error : JsError) : FailureKind :=
  if Error.has_code error E_HTTP_REQUEST_CLIENT_ERROR then ClientError
  else if Error.has_code error E_HTTP_REQUEST_CLIENT_TIMEOUT then ClientTimeout
  else if Error.has_code error E_HTTP_REQUEST_DOWNSTREAM_ERROR then DownstreamError
  else if Error.has_code error E_HTTP_REQUEST_INVALID_RESPONSE_BODY_FORMAT
       then InvalidResponseBodyFormat
  else if Error.has_code error E_HTTP_REQUEST_INVALID_RESPONSE_STATUS
       then InvalidResponseStatus
  else OtherKind.

(** The status of the response a failure carries. *)
Definition failing_status (error : JsError) : option Z :=
  option_map Response.status (Error.response error).

(** Retry eligibility per failure kind (section 4.4, step 3). *)
Definition retryable (options : Options.t) (kind : FailureKind) (status : option Z) : bool :=
  match kind with
  | ClientError => true
  | ClientTimeout => Options.retryOnClientTimeout options
  | DownstreamError => Options.retryOnDownstreamError options
  | InvalidResponseBodyFormat => Options.retryOnInvalidResponseBodyFormat options
  | InvalidResponseStatus =>
      Options.retryOnErrorResponseStatus options
      || match status with
         | Some status => Js.includes (Options.retryOnStatus options) status
         | None => false
         end
  | OtherKind => false
  end.

(** The content type of a response is one string, or absent. *)
Definition textual (value : option hvalue) : Prop :=
  match value with
  | Some (HStr _) | None => True
  | Some _ => False
  end.

(** The byte length of a string as the transport writes it (UTF-8): one
    byte for a code unit below 128, two for one from 128 to 255. *)
Fixpoint byte_length (s : string) : Z :=
  match s with
  | EmptyString => 0
  | String c s' => (if (Js.code c <? 128)%N then 1 else 2) + byte_length s'
  end.

(** Every code unit of a string passes a test. *)
Fixpoint every (test : ascii -> bool) (s : string) : bool :=
  match s with
  | EmptyString => true
  | String c s' => test c && every test s'
  end.

(** A field name of an event: no white space, no line end, no colon. *)
Definition field_name (s : string) : Prop :=
  every (fun c => negb (Js.is_space c) && negb (Ascii.eqb c ":"%char)) s = true.

(** The text of an event with one field. *)
Definition event_text (field value : string) : string :=
  (field ++ ": " ++ value)%string.

Definition is_wait (a : Io) : bool :=
  match a with Wait _ => true | _ => false end.

(** The number of times a call was suspended for [retryDelay]. *)
Definition waits (io : list Io) : nat := List.length (filter is_wait io).

(** The codes of the failures an attempt is rejected with: the four the
    class gives, and the two of [http2Session.request]. *)
Definition attempt_codes : list string :=
  [E_HTTP_REQUEST_CLIENT_ERROR; E_HTTP_REQUEST_CLIENT_TIMEOUT;
   E_HTTP_REQUEST_INVALID_RESPONSE_STATUS; E_HTTP_REQUEST_INVALID_RESPONSE_BODY_FORMAT;
   "ERR_HTTP2_INVALID_SESSION"; "ERR_HTTP2_GOAWAY_SESSION"].

(** A failure of an attempt: a [TypeError] of the runtime, or an error
    with one of those codes. *)
Definition attempt_failure (error : JsError) : Prop :=
  error = TypeError
  \/ exists code, Error.code error = Some code /\ In code attempt_codes.

Definition is_request (a : Io) : bool :=
  match a with
  | Http1Request _ _ _ _ | Http2Request _ _ _ => true
  | _ => false
  end.

(** The number of requests a call made: its calls of [http.request],
    [https.request] and [http2Session.request]. *)
Definition requests (io : list Io) : nat := List.length (filter is_request io).

(** Whether the content type of a response is a text that starts with
    [prefix]. *)
Definition declares (headers : JsObject.t hvalue) (prefix : string) : bool :=
  match JsObject.get headers "content-type" with
  | Some (HStr contentType) => Js.startsWith contentType prefix
  | _ => false
  end.

(** What an attempt gives for a response of a failing status whose body
    came as [text]: the rejection for the status, and no action on the
    outside. Where the body decodes, to [Some body], the failure carries
    the response with [body] and has no cause; where it does not, [None],
    the failure carries the response with [text] as it came, and its cause
    is the failure of the format, which carries the same response. *)
Definition status_failure (result : Settled * list Io)
           (statusCode : Z) (headers : JsObject.t hvalue) (text : string)
           (decoded : option jsvalue) : Prop :=
  match decoded with
  | Some body =>
      result
      = (Reject (MkError "Error" (Some E_HTTP_REQUEST_INVALID_RESPONSE_STATUS)
                         (Some (Response.mk statusCode headers (Some body))) NoCause), [])
  | None =>
      exists reason,
        result
        = (Reject (MkError "Error" (Some E_HTTP_REQUEST_INVALID_RESPONSE_STATUS)
                           (Some (Response.mk statusCode headers (Some (VStr text))))
                           (CauseError reason)), [])
        /\ Error.code reason = Some E_HTTP_REQUEST_INVALID_RESPONSE_BODY_FORMAT
        /\ Error.response reason = Some (Response.mk statusCode headers (Some (VStr text)))
  end.

(** What the value of a field becomes: what [parse] makes of the text,
    or the text where [parse] fails. *)
Definition parsed_or_text (parse : string -> option jsvalue) (text : string) : jsvalue :=
  match parse text with
  | Some parsed => parsed
  | None => VStr text
  end.

(** A text without a colon. *)
Definition no_colon (s : string) : Prop :=
  every (fun c => negb (Ascii.eqb c ":"%char)) s = true.

(** A text without its last code unit. *)
Fixpoint without_last (s : string) : string :=
  match s with
  | EmptyString => EmptyString
  | String c EmptyString => EmptyString
  | String c s' => String c (without_last s')
  end.

End Spec.

(** ** Sample data

    A runtime and requests to run the class on. [JSON_parse] knows the
    texts the samples use; the base and the path of a URL are joined as
    they are. *)
Module Sample.

Definition DQ : string := String (ascii_of_N 34) EmptyString.

(** The text of [JSON.stringify({ success: true })]. *)
Definition success_text : string := ("{" ++ DQ ++ "success" ++ DQ ++ ":true}")%string.

Definition decode (numeral : option N) (s : string) : option jsvalue :=
  match numeral with
  | Some n => Some (VNum (inject_Z (Z.of_N n)))
  | None =>
      if String.eqb s "{}" then Some (VObj [])
      else if String.eqb s success_text
           then Some (VObj [("success", VBool true)])
           else None
  end.

#[export] Instance runtime : Runtime :=
  {| JSON_parse := fun s => decode (Js.numeral s) s;
     JSON_stringify := fun _ => None;
     querystring_stringify := fun _ => "";
     new_URL := fun url base =>
                  Some (match base with Some b => b | None => "" end ++ url)%string;
     URL_path := fun url => url;
     JSON_parse_empty_object := eq_refl;
     JSON_parse_numeral := fun s n H _ =>
       @eq_ind_r _ (Some n) (fun o => decode o s = Some (VNum (inject_Z (Z.of_N n))))
                 eq_refl _ H |}.

(** [request.get({ url: '/retry-test' })] on an instance with a base, after
    the defaults of [#fetch]. *)
Definition options : Options.t :=
  {| Options.method := "GET";
     Options.url := "/retry-test";
     Options.base := Some "http://localhost:8080";
     Options.headers := [];
     Options.body := VUndefined;
     Options.data := VUndefined;
     Options.timeout := 30000;
     Options.retry := 3;
     Options.retryDelay := 200;
     Options.retryOnStatus := [];
     Options.retryOnClientTimeout := false;
     Options.retryOnDownstreamError := false;
     Options.retryOnInvalidResponseBodyFormat := false;
     Options.retryOnErrorResponseStatus := false;
     Options.doNotThrowOnErrorStatus := false;
     Options.doNotThrowOnRedirectStatus := false;
     Options.upstream := None;
     Options.downstream := false |}.

Definition json_headers : JsObject.t hvalue := [("content-type", HStr "application/json")].

(** A response with a JSON body. *)
Definition respond (status : Z) (text : string) : TransportEvent :=
  OnResponse status json_headers (StreamEnd [text]).

(** A server whose socket is destroyed: the transport reports an error. *)
Definition socket_error : JsError := MkError "Error" (Some "ECONNRESET") None NoCause.
Definition reset : TransportEvent := OnError socket_error.

(** An environment from the events of the attempts: the last one repeats,
    the session stays as it is and a reconnect succeeds. *)
Definition environment (events : list TransportEvent) : Environment :=
  {| transport := fun attempt => nth attempt events (last events OnClose);
     peer := fun _ session => session;
     reconnect := fun _ => None |}.

(** [retry: 0.5] and [retry: -1.5]. *)
Definition half : Options.t := Options.set_retry (1 # 2) options.
Definition negative : Options.t := Options.set_retry (- (3 # 2)) options.

(** A server that resets every connection. *)
Definition unreachable : Environment := environment [reset].

(** [retry: 2, retryOnClientTimeout: true], against a connection reset, a
    timeout and a connection reset. *)
Definition patient : Options.t :=
  Options.set_retryOn [] true false (Options.set_retry 2 options).
Definition mixed : Environment := environment [reset; OnTimeout; reset].

(** [retryOnErrorResponseStatus: true, doNotThrowOnErrorStatus: true],
    against a server that answers 503 twice and then 200. *)
Definition lenient : Options.t :=
  Options.set_doNotThrow true false (Options.set_retryOn [] false true options).
Definition unavailable : Environment :=
  environment [respond 503 "{}"; respond 503 "{}"; respond 200 success_text].

(** [retryOnStatus: [503]]. *)
Definition on_503 : Options.t := Options.set_retryOn [503] false false options.

(** The failure of a response with a status. *)
Definition status_error (status : Z) : JsError :=
  MkError "Error" (Some E_HTTP_REQUEST_INVALID_RESPONSE_STATUS)
          (Some (Response.mk status json_headers (Some (VObj [])))) NoCause.

(** The one letter text of code unit 233, an e with an acute accent, and
    [request.get({ body })] with it. *)
Definition accented : string := String (ascii_of_N 233) EmptyString.
Definition accented_request : Options.t := Options.set_body (VStr accented) options.

(** A session that is destroyed and not closed. *)
Definition dead : Http2Session := mkSession true false.

Definition event_headers : JsObject.t hvalue := [("content-type", HStr "text/event-stream")].

(** Two events, [a: 1] and [b: 2]. *)
Definition events_text : string :=
  (Spec.event_text "a" "1" ++ LF ++ LF ++ Spec.event_text "b" "2")%string.

(** Headers of which two differ in case only. *)
Definition mixed_case : JsObject.t hvalue :=
  [("Content-Type", HStr "text/plain"); ("X-Id", HStr "7");
   ("content-type", HStr "application/json")].

(** A form body under headers of the caller, one of which is a content
    length that is not the one of the body. *)
Definition form_request : Options.t :=
  Options.set_headers [("Content-Length", HStr "99"); ("Custom-Header", HStr "foo")]
                      (Options.set_body (VStr "bar=baz") options).

(** The same request on a base whose protocol is [https:]. *)
Definition secure_request : Options.t :=
  Options.set_base (Some "https://localhost:8443") form_request.

(** An object as the body, declared as plain text. *)
Definition object_request : Options.t :=
  Options.set_headers [("Content-Type", HStr "text/plain")]
                      (Options.set_body (VObj [("bar", VStr "baz")]) options).

(** A request that declares JSON and has no body. *)
Definition json_request : Options.t :=
  Options.set_headers [("Content-Type", HStr "application/json")] options.

(** A request for a path that is relative to the base. *)
Definition relative : Options.t := Options.set_url "retry-test" options.

(** A session that is open, and one that is closed and not destroyed. *)
Definition live : Http2Session := mkSession false false.
Definition shut : Http2Session := mkSession false true.

(** A body stream that fails after its first chunk, and a server that
    answers 404 with such a body. *)
Definition broken : Readable := StreamError ["{"] socket_error.
Definition cut_off : Environment := environment [OnResponse 404 json_headers broken].

(** [a + b] on two texts. *)
Definition plus (a b : jsvalue) : jsvalue :=
  match a, b with
  | VStr x, VStr y => VStr (x ++ y)
  | _, _ => VUndefined
  end.

(** The configuration of an instance that is connected under a path, and
    the options of a call on it. *)
Definition connected : JsObject.t jsvalue :=
  [("base", VStr "https://example.com"); ("url", VStr "/api"); ("timeout", VNum 5000%Q)].
Definition call : JsObject.t jsvalue :=
  [("url", VStr "users"); ("retry", VUndefined); ("method", VStr "DELETE")].

(** The path of a URL of the samples, which are on [http://localhost:8080]. *)
Definition pathname (href : string) : string :=
  Js.slice_from href (Js.length "http://localhost:8080").

(** Upper case of the letters [a] to [z]. *)
Fixpoint toUpperCase (s : string) : string :=
  match s with
  | EmptyString => EmptyString
  | String c s' =>
      String (if ((97 <=? Js.code c) && (Js.code c <=? 122))%N
              then ascii_of_N (Js.code c - 32) else c)
             (toUpperCase s')
  end.

(** [new URL] on the two values the samples connect to. *)
Definition new_URL_of (value : jsvalue) : option Part000.URL :=
  match value with
  | VStr text =>
      if String.eqb text "https://example.com/api?x=1"
      then Some (Part000.mkURL "https:" "example.com" "/api" "?x=1")
      else if String.eqb text "https://example.com"
           then Some (Part000.mkURL "https:" "example.com" "/" "")
           else None
  | _ => None
  end.

(** An instance as the constructor leaves it when it is given nothing. *)
Definition instance : Part000.Instance := Part000.mkInstance [("base", VUndefined)] None.

End Sample.

(** Simplify, and read [map fst] as the keys again. *)
Ltac simpl_keys :=
  cbn;
  repeat match goal with
         | |- context [@map (string * ?W) string fst ?x] =>
             change (@map (string * W) string fst x) with (@JsObject.keys W x)
         | H : context [@map (string * ?W) string fst ?x] |- _ =>
             change (@map (string * W) string fst x) with (@JsObject.keys W x) in H
         end.

(** * Properties *)

(** ** The retry loop of [src/index.js] *)
Section RetryLoop.

Context {rt : Runtime}.
Variable env : Environment.

Lemma resolveRetryLoopError_push options errorTrace error errorTrace' :
  IndexJs.resolveRetryLoopError options errorTrace error = Normal errorTrace' ->
  errorTrace' = errorTrace ++ [error].
Proof.
  unfold IndexJs.resolveRetryLoopError.
  repeat match goal with
         | |- context [if ?b then _ else _] => destruct b
         | |- context [match ?x with _ => _ end] => destruct x
         end; intros H; inversion H; reflexivity.
Qed.

(** Whether a failure is recorded does not depend on the failures
    recorded before. *)
Lemma resolveRetryLoopError_trace options errorTrace error :
  IndexJs.resolveRetryLoopError options errorTrace error
  = match IndexJs.resolveRetryLoopError options [] error with
    | Normal _ => Normal (errorTrace ++ [error])
    | Throw e => Throw e
    end.
Proof.
  unfold IndexJs.resolveRetryLoopError.
  repeat match goal with
         | |- context [if ?b then _ else _] => destruct b
         | |- context [match ?x with Some _ => _ | None => _ end] => destruct x
         end; reflexivity.
Qed.

(** One turn of the loop. *)
Lemma retry_while_S options retry attempt http2Session errorTrace io :
  IndexJs.retry_while env options (S retry) attempt http2Session errorTrace io
  = let http2Session := peer env attempt http2Session in
    let '(settled, io1) := IndexJs.resolve http2Session options (transport env attempt) in
    match settled with
    | Accept response =>
        if (Response.status response >=? 400)
           && (0 <? retry)%nat
           && (Js.includes (Options.retryOnStatus options) (Response.status response)
               || Options.retryOnErrorResponseStatus options)
        then IndexJs.retry_while env options retry (S attempt) http2Session errorTrace
                                 (io ++ io1)
        else mkRun (Returned response) (S attempt) errorTrace (io ++ io1)
    | Reject error =>
        if (retry =? 0)%nat
        then mkRun (Thrown error) (S attempt) errorTrace (io ++ io1)
        else match IndexJs.resolveRetryLoopError options errorTrace error with
             | Throw thrown => mkRun (Thrown thrown) (S attempt) errorTrace (io ++ io1)
             | Normal errorTrace =>
                 IndexJs.retry_while env options retry (S attempt) http2Session errorTrace
                                     ((io ++ io1) ++ [Wait (Options.retryDelay options)])
             end
    | Uncaught error => mkRun (Crashed error) (S attempt) errorTrace (io ++ io1)
    end.
Proof. reflexivity. Qed.

(** The loop makes at most [retry] further attempts, at least one when
    [retry] is positive, and all of them when every attempt but the last
    goes on. *)
Lemma retry_while_attempts options retry :
  forall attempt http2Session errorTrace io,
    let run := IndexJs.retry_while env options retry attempt http2Session errorTrace io in
    (attempt <= attempts run <= attempt + retry)%nat
    /\ ((1 <= retry)%nat -> (attempt + 1 <= attempts run)%nat)
    /\ ((forall k, (S k < retry)%nat ->
                   IndexJs.goes_on
                     options
                     (fst (IndexJs.resolve (IndexJs.session_from env http2Session attempt k)
                                           options (transport env (attempt + k))))
                   = true) ->
        attempts run = (attempt + retry)%nat).
Proof.
  induction retry as [|retry IH]; intros attempt http2Session errorTrace io.
  - cbn. repeat split; lia.
  - cbv zeta. rewrite retry_while_S. cbv zeta.
    destruct (IndexJs.resolve (peer env attempt http2Session) options (transport env attempt))
      as [settled io1] eqn:Hresolve.
    assert (Hnext : forall trace' io',
               let run := IndexJs.retry_while env options retry (S attempt)
                                              (peer env attempt http2Session) trace' io' in
               (attempt <= attempts run <= attempt + S retry)%nat
               /\ ((1 <= S retry)%nat -> (attempt + 1 <= attempts run)%nat)
               /\ ((forall k, (S k < S retry)%nat ->
                              IndexJs.goes_on
                                options
                                (fst (IndexJs.resolve
                                        (IndexJs.session_from env http2Session attempt k)
                                        options (transport env (attempt + k))))
                              = true) ->
                   attempts run = (attempt + S retry)%nat)).
    { intros trace' io'. cbv zeta.
      destruct (IH (S attempt) (peer env attempt http2Session) trace' io') as (Hle & _ & Hall).
      cbv zeta in Hle, Hall.
      repeat split; try lia.
      intros Hgo. rewrite Hall; [lia|].
      intros k Hk. specialize (Hgo (S k) ltac:(lia)).
      cbn [IndexJs.session_from] in Hgo.
      replace (S attempt + k)%nat with (attempt + S k)%nat by lia. exact Hgo. }
    assert (Hstop : forall o trace' io',
               (retry = 0%nat \/
                IndexJs.goes_on options settled = false) ->
               let run := mkRun o (S attempt) trace' io' in
               (attempt <= attempts run <= attempt + S retry)%nat
               /\ ((1 <= S retry)%nat -> (attempt + 1 <= attempts run)%nat)
               /\ ((forall k, (S k < S retry)%nat ->
                              IndexJs.goes_on
                                options
                                (fst (IndexJs.resolve
                                        (IndexJs.session_from env http2Session attempt k)
                                        options (transport env (attempt + k))))
                              = true) ->
                   attempts run = (attempt + S retry)%nat)).
    { intros o trace' io' Hwhy. cbn [attempts]. repeat split; try lia.
      intros Hgo. destruct Hwhy as [-> | Hstop]; [lia|].
      destruct retry as [|retry']; [lia|].
      specialize (Hgo 0%nat ltac:(lia)).
      cbn [IndexJs.session_from] in Hgo. rewrite Nat.add_0_r, Hresolve in Hgo.
      cbn [fst] in Hgo. congruence. }
    destruct settled as [response | error | error].
    + destruct ((Response.status response >=? 400)
                && (0 <? retry)%nat
                && (Js.includes (Options.retryOnStatus options) (Response.status response)
                    || Options.retryOnErrorResponseStatus options)) eqn:Hc.
      * apply Hnext.
      * apply Hstop. cbn [IndexJs.goes_on].
        destruct retry; [left; reflexivity|right].
        cbn [Nat.ltb Nat.leb] in Hc. rewrite andb_true_r in Hc. exact Hc.
    + destruct (retry =? 0)%nat eqn:Hr.
      * apply Hstop. left. apply Nat.eqb_eq. exact Hr.
      * rewrite resolveRetryLoopError_trace.
        destruct (IndexJs.resolveRetryLoopError options [] error) eqn:Hcl.
        -- apply Hnext.
        -- apply Hstop. right. cbn [IndexJs.goes_on]. rewrite Hcl. reflexivity.
    + apply Hstop. right. reflexivity.
Qed.

(** C1, as amended: when [retry] is truthy and
    [Math.abs(Math.floor(retry))] is at least one, [#fetch] runs the retry
    loop, which makes at least one and at most
    [Math.abs(Math.floor(retry))] attempts, the first one included, and
    exactly that many when every attempt but the last is one the loop goes
    on after. *)
Theorem retry_budget_attempts http2Session options :
  Js.truthy (Options.retry options) = true ->
  1 <= IndexJs.retry_budget options ->
  (1 <= Z.of_nat (attempts (IndexJs.fetch env http2Session options))
   <= Js.Math_abs (Js.Math_floor (Options.retry options)))
  /\ ((forall k,
          Z.of_nat (S k) < IndexJs.retry_budget options ->
          IndexJs.goes_on
            options
            (fst (IndexJs.resolve (IndexJs.session_at env http2Session k)
                                  options (transport env k)))
          = true) ->
      Z.of_nat (attempts (IndexJs.fetch env http2Session options))
      = Js.Math_abs (Js.Math_floor (Options.retry options))).
Proof.
  intros Htruthy Hbudget.
  unfold IndexJs.fetch. rewrite Htruthy. unfold IndexJs.resolveRetryLoop.
  fold (IndexJs.retry_budget options).
  destruct (retry_while_attempts options (Z.to_nat (IndexJs.retry_budget options))
                                 0%nat http2Session [] []) as (Hle & Hone & Hall).
  cbv zeta in Hle, Hone, Hall.
  split; [lia|].
  intros Hgo. rewrite Hall; [lia|].
  intros k Hk. apply Hgo. lia.
Qed.

(** C7: when an attempt resolves with a status of 400 or more, the loop
    takes its next turn with the same recorded failures and without a
    delay if attempts remain and the status is in [retryOnStatus] or
    [retryOnErrorResponseStatus] is set, and returns that very response
    otherwise. *)
Theorem retry_on_accepted_error_status
        options retry attempt http2Session errorTrace io response io1 :
  IndexJs.resolve (peer env attempt http2Session) options (transport env attempt)
  = (Accept response, io1) ->
  400 <= Response.status response ->
  IndexJs.retry_while env options (S retry) attempt http2Session errorTrace io
  = if (0 <? retry)%nat
       && (Js.includes (Options.retryOnStatus options) (Response.status response)
           || Options.retryOnErrorResponseStatus options)
    then IndexJs.retry_while env options retry (S attempt)
                             (peer env attempt http2Session) errorTrace (io ++ io1)
    else mkRun (Returned response) (S attempt) errorTrace (io ++ io1).
Proof.
  intros Hresolve Hstatus.
  rewrite retry_while_S. cbv zeta. rewrite Hresolve.
  replace (Response.status response >=? 400) with true
    by (symmetry; apply Z.geb_le; lia).
  reflexivity.
Qed.

(** The classification of [#resolveRetryLoopError] is the one of the
    specification. *)
Lemma resolveRetryLoopError_spec options errorTrace error :
  (Spec.kind_of error = Spec.InvalidResponseStatus -> Error.response error <> None) ->
  IndexJs.resolveRetryLoopError options errorTrace error
  = if Spec.retryable options (Spec.kind_of error) (Spec.failing_status error)
    then Normal (errorTrace ++ [error])
    else Throw error.
Proof.
  unfold IndexJs.resolveRetryLoopError, Spec.kind_of, Spec.failing_status.
  intros Hresponse.
  destruct (Error.has_code error E_HTTP_REQUEST_CLIENT_ERROR); [reflexivity|].
  destruct (Error.has_code error E_HTTP_REQUEST_CLIENT_TIMEOUT); [reflexivity|].
  destruct (Error.has_code error E_HTTP_REQUEST_DOWNSTREAM_ERROR); [reflexivity|].
  destruct (Error.has_code error E_HTTP_REQUEST_INVALID_RESPONSE_BODY_FORMAT);
    [reflexivity|].
  destruct (Error.has_code error E_HTTP_REQUEST_INVALID_RESPONSE_STATUS);
    [|reflexivity].
  cbn [Spec.retryable].
  destruct (Options.retryOnErrorResponseStatus options); [reflexivity|].
  destruct (Error.response error) as [response|]; [reflexivity|].
  exfalso. apply Hresponse; reflexivity.
Qed.

(** C4: a failure met while attempts remain is recorded, and the loop
    goes on after the delay, exactly when its kind is retryable: a client
    error always, a client timeout under [retryOnClientTimeout], a
    downstream error under [retryOnDownstreamError], an invalid body format
    under [retryOnInvalidResponseBodyFormat], an invalid status under
    [retryOnErrorResponseStatus] or when the status is in [retryOnStatus];
    any other failure is thrown again at once, and no delay follows. *)
Theorem retry_classification options error :
  (Spec.kind_of error = Spec.InvalidResponseStatus -> Error.response error <> None) ->
  (forall errorTrace,
      IndexJs.resolveRetryLoopError options errorTrace error
      = if Spec.retryable options (Spec.kind_of error) (Spec.failing_status error)
        then Normal (errorTrace ++ [error])
        else Throw error)
  /\ (forall retry attempt http2Session errorTrace io io1,
         IndexJs.resolve (peer env attempt http2Session) options (transport env attempt)
         = (Reject error, io1) ->
         (0 < retry)%nat ->
         IndexJs.retry_while env options (S retry) attempt http2Session errorTrace io
         = if Spec.retryable options (Spec.kind_of error) (Spec.failing_status error)
           then IndexJs.retry_while env options retry (S attempt)
                                    (peer env attempt http2Session)
                                    (errorTrace ++ [error])
                                    ((io ++ io1) ++ [Wait (Options.retryDelay options)])
           else mkRun (Thrown error) (S attempt) errorTrace (io ++ io1)).
Proof.
  intros Hresponse. split.
  - intros errorTrace. apply resolveRetryLoopError_spec. exact Hresponse.
  - intros retry attempt http2Session errorTrace io io1 Hresolve Hretry.
    rewrite retry_while_S. cbv zeta. rewrite Hresolve.
    replace (retry =? 0)%nat with false by (symmetry; apply Nat.eqb_neq; lia).
    rewrite (resolveRetryLoopError_spec options errorTrace error Hresponse).
    destruct (Spec.retryable options (Spec.kind_of error) (Spec.failing_status error));
      reflexivity.
Qed.

Lemma waits_app io1 io2 : Spec.waits (io1 ++ io2) = (Spec.waits io1 + Spec.waits io2)%nat.
Proof. unfold Spec.waits. rewrite filter_app, length_app. reflexivity. Qed.

(** One attempt never waits. *)
Lemma resolve_no_wait http2Session options ev :
  Spec.waits (snd (IndexJs.resolve http2Session options ev)) = 0%nat.
Proof.
  assert (Hevent : Spec.waits (snd (IndexJs.on_event options ev)) = 0%nat).
  { destruct ev; cbn; try reflexivity. unfold IndexJs.resolveOnResponse.
    destruct (IndexJs.throws_on_status _ _); [reflexivity|].
    destruct (Options.downstream options); reflexivity. }
  unfold IndexJs.resolve.
  destruct (IndexJs.prepare http2Session options) as [[[body headers] url]|e];
    [|reflexivity].
  unfold IndexJs.resolveHttp2Client, IndexJs.resolveHttp1Client.
  destruct (IndexJs.on_event options ev) as [settled io] eqn:Hon. cbn [snd] in Hevent.
  destruct http2Session as [session|];
    [destruct (destroyed session); [reflexivity|];
     destruct (closed session); [reflexivity|]
    |destruct (Js.startsWith url "http:"); [|reflexivity]];
    cbn [snd IndexJs.send_body]; destruct (Options.upstream options);
    try destruct (IndexJs.http2_writable _); exact Hevent.
Qed.

(** The delays of a run are as many as the failures it records: a turn
    either records a failure and waits, or does neither. *)
Lemma retry_while_waits options retry :
  forall attempt http2Session recorded done,
    (Spec.waits (io (IndexJs.retry_while env options retry attempt http2Session
                                         recorded done))
     + List.length recorded
     = List.length (errorTrace (IndexJs.retry_while env options retry attempt http2Session
                                                    recorded done))
       + Spec.waits done)%nat.
Proof.
  induction retry as [|retry IH]; intros attempt http2Session recorded done.
  - cbn [IndexJs.retry_while io errorTrace]. lia.
  - rewrite retry_while_S. cbv zeta.
    pose proof (resolve_no_wait (peer env attempt http2Session) options
                                (transport env attempt)) as Hquiet.
    destruct (IndexJs.resolve (peer env attempt http2Session) options (transport env attempt))
      as [[response | error | error] io1]; cbn [snd] in Hquiet.
    + match goal with |- context [if ?c then _ else _] => destruct c end.
      * rewrite IH, waits_app. lia.
      * cbn [io errorTrace]. rewrite waits_app. lia.
    + destruct (retry =? 0)%nat; [cbn [io errorTrace]; rewrite waits_app; lia|].
      destruct (IndexJs.resolveRetryLoopError options recorded error) as [trace'|thrown]
        eqn:Hcl; [|cbn [io errorTrace]; rewrite waits_app; lia].
      apply resolveRetryLoopError_push in Hcl. subst trace'.
      pose proof (IH (S attempt) (peer env attempt http2Session) (recorded ++ [error])
                     ((done ++ io1) ++ [Wait (Options.retryDelay options)])) as Hnext.
      rewrite !waits_app, length_app in Hnext.
      change (Spec.waits [Wait (Options.retryDelay options)]) with 1%nat in Hnext.
      cbn [List.length] in Hnext. lia.
    + cbn [io errorTrace]. rewrite waits_app. lia.
Qed.

(** A call of [#resolveRetryLoop] waits once for each failure it
    records; a response of 400 or more that it retries adds neither a
    failure nor a delay. *)
Lemma waits_count_recorded_failures http2Session options :
  Spec.waits (io (IndexJs.resolveRetryLoop env http2Session options))
  = List.length (errorTrace (IndexJs.resolveRetryLoop env http2Session options)).
Proof.
  unfold IndexJs.resolveRetryLoop.
  pose proof (retry_while_waits options (Z.to_nat (IndexJs.retry_budget options))
                                0%nat http2Session [] []) as H.
  change (Spec.waits []) with 0%nat in H. cbn [List.length] in H. lia.
Qed.

End RetryLoop.

(** ** The class of [part_000]: dead sessions and the end of the loop *)
Section Part000Properties.

Context {rt : Runtime}.

(** C5: while [this.http2Session] is destroyed or closed, [#resolve]
    rejects without a request, a body or a pipe reaching the transport,
    whatever the transport would have answered; once the options have
    given a body, headers and a URL, the rejection is the session failure:
    [E_HTTP_REQUEST_HTTP2_SESSION_DESTROYED] for a destroyed session,
    [E_HTTP_REQUEST_HTTP2_SESSION_CLOSED] for one that is only closed. *)
Theorem dead_session_rejects_before_io http2Session options ev :
  destroyed http2Session = true \/ closed http2Session = true ->
  snd (Part000.resolve (Some http2Session) options ev) = []
  /\ (exists error, fst (Part000.resolve (Some http2Session) options ev) = Reject error)
  /\ (forall prepared,
         Part000.prepare (Some http2Session) options = Normal prepared ->
         exists error,
           fst (Part000.resolve (Some http2Session) options ev) = Reject error
           /\ Error.code error
              = Some (if destroyed http2Session
                      then E_HTTP_REQUEST_HTTP2_SESSION_DESTROYED
                      else E_HTTP_REQUEST_HTTP2_SESSION_CLOSED)).
Proof.
  intros Hdead. unfold Part000.resolve.
  destruct (Part000.prepare (Some http2Session) options) as [[[body headers] url]|e].
  - unfold Part000.resolveHttp2Client.
    destruct (destroyed http2Session) eqn:Hd; cbn [Bool.eqb].
    + cbn. repeat split; eauto.
    + destruct Hdead as [Hdead|Hdead]; [discriminate|]. rewrite Hdead. cbn [Bool.eqb].
      cbn. repeat split; eauto.
  - cbn. repeat split; eauto. intros prepared H. discriminate H.
Qed.

(** One turn of the loop. *)
Lemma part000_retry_while_S env after options retry attempt http2Session errorTrace io :
  Part000.retry_while env after options (S retry) attempt http2Session errorTrace io
  = let http2Session := peer env attempt http2Session in
    let '(settled, io1) := Part000.resolve http2Session options (transport env attempt) in
    match settled with
    | Accept response =>
        if (Response.status response >=? 400)
           && (0 <? retry)%nat
           && (Js.includes (Options.retryOnStatus options) (Response.status response)
               || Options.retryOnErrorResponseStatus options)
        then Part000.retry_while env after options retry (S attempt) http2Session
                                 errorTrace (io ++ io1)
        else mkRun (Returned response) (S attempt) errorTrace (io ++ io1)
    | Reject error =>
        if (retry =? 0)%nat
        then mkRun (Thrown error) (S attempt) errorTrace (io ++ io1)
        else match Part000.resolveRetryLoopError options errorTrace http2Session
                                                 (reconnect env attempt) error with
             | (Some (Throw thrown), io2) =>
                 mkRun (Thrown thrown) (S attempt) errorTrace ((io ++ io1) ++ io2)
             | (Some (Normal (errorTrace, http2Session)), io2) =>
                 Part000.retry_while env after options retry (S attempt) http2Session
                                     errorTrace
                                     ((io ++ io1) ++ io2
                                      ++ [Wait (Options.retryDelay options)])
             | (None, io2) => mkRun NeverSettles (S attempt) errorTrace ((io ++ io1) ++ io2)
             end
    | Uncaught error => mkRun (Crashed error) (S attempt) errorTrace (io ++ io1)
    end.
Proof. reflexivity. Qed.

(** When the last attempt of the budget is rejected, the loop throws that
    rejection as it is, whatever was recorded before. *)
Lemma part000_last_attempt_throws
      env after options attempt http2Session errorTrace io error io1 :
  Part000.resolve (peer env attempt http2Session) options (transport env attempt)
  = (Reject error, io1) ->
  outcome (Part000.retry_while env after options 1 attempt http2Session errorTrace io)
  = Thrown error.
Proof.
  intros Hresolve. rewrite part000_retry_while_S. cbv zeta. rewrite Hresolve.
  reflexivity.
Qed.

(** The same holds in [src/index.js]: on the last turn a rejection is
    thrown as it is, in both files. *)
Lemma last_attempt_throws
      env after options attempt http2Session recorded done error io1 error' io1' :
  IndexJs.resolve (peer env attempt http2Session) options (transport env attempt)
  = (Reject error, io1) ->
  Part000.resolve (peer env attempt http2Session) options (transport env attempt)
  = (Reject error', io1') ->
  outcome (IndexJs.retry_while env options 1 attempt http2Session recorded done)
  = Thrown error
  /\ outcome (Part000.retry_while env after options 1 attempt http2Session recorded done)
     = Thrown error'.
Proof.
  intros Hresolve Hresolve'. split.
  - cbn [IndexJs.retry_while]. rewrite Hresolve. reflexivity.
  - eapply part000_last_attempt_throws. exact Hresolve'.
Qed.

(** A loop that starts with a positive [retry] ends inside its body: the
    statements after the loop have no part in the run. *)
Lemma part000_after_loop_unreached env after after' options retry :
  forall attempt http2Session errorTrace io,
    (1 <= retry)%nat ->
    Part000.retry_while env after options retry attempt http2Session errorTrace io
    = Part000.retry_while env after' options retry attempt http2Session errorTrace io.
Proof.
  induction retry as [|retry IH]; intros attempt http2Session errorTrace io Hretry; [lia|].
  rewrite !part000_retry_while_S. cbv zeta.
  destruct (Part000.resolve (peer env attempt http2Session) options (transport env attempt))
    as [[response | error | error] io1]; [| |reflexivity].
  - destruct retry as [|retry].
    + cbn [Nat.ltb Nat.leb]. rewrite andb_false_r. reflexivity.
    + rewrite IH by lia. reflexivity.
  - destruct retry as [|retry]; [reflexivity|].
    cbn [Nat.eqb].
    destruct (Part000.resolveRetryLoopError options errorTrace
                                            (peer env attempt http2Session)
                                            (reconnect env attempt) error)
      as [[[[trace' session']|thrown]|] io2]; [|reflexivity|reflexivity].
    apply IH. lia.
Qed.

(** [#resolveRetryLoop] always starts the loop with a positive [retry]:
    the aggregate failure of the statements after the loop is never
    what a call throws on their account. *)
Lemma part000_aggregate_unreached env after http2Session options :
  Part000.resolveRetryLoop env http2Session options
  = Part000.retry_while env after options (Z.to_nat (Part000.retry_budget options)) 0
                        http2Session [] [].
Proof.
  unfold Part000.resolveRetryLoop. apply part000_after_loop_unreached.
  unfold Part000.retry_budget, Js.Math_abs. lia.
Qed.

(** The loop of [part_000] makes at most [retry] further attempts, and at
    least one when [retry] is positive. *)
Lemma part000_retry_while_attempts env after options retry :
  forall attempt http2Session errorTrace io,
    (attempt
     <= attempts (Part000.retry_while env after options retry attempt http2Session
                                      errorTrace io)
     <= attempt + retry)%nat
    /\ ((1 <= retry)%nat ->
        (attempt + 1
         <= attempts (Part000.retry_while env after options retry attempt http2Session
                                          errorTrace io))%nat).
Proof.
  induction retry as [|retry IH]; intros attempt http2Session errorTrace io.
  - cbn. lia.
  - rewrite part000_retry_while_S. cbv zeta.
    destruct (Part000.resolve (peer env attempt http2Session) options (transport env attempt))
      as [[response | error | error] io1]; [| |cbn; lia].
    + destruct (_ && _); [|cbn; lia].
      pose proof (IH (S attempt) (peer env attempt http2Session) errorTrace (io ++ io1)).
      lia.
    + destruct (retry =? 0)%nat; [cbn; lia|].
      destruct (Part000.resolveRetryLoopError _ _ _ _ _)
        as [[[[trace' session']|thrown]|] io2]; [|cbn; lia|cbn; lia].
      pose proof (IH (S attempt) session' trace'
                     ((io ++ io1) ++ io2 ++ [Wait (Options.retryDelay options)])).
      lia.
Qed.

(** In [part_000] a call with a truthy [retry] makes at least one attempt
    and at most [Math.abs(Math.floor(retry)) + 1]. *)
Lemma part000_retry_budget_attempts env http2Session options :
  1 <= Z.of_nat (attempts (Part000.resolveRetryLoop env http2Session options))
    <= Js.Math_abs (Js.Math_floor (Options.retry options)) + 1.
Proof.
  unfold Part000.resolveRetryLoop.
  destruct (part000_retry_while_attempts
              env Part000.after_loop options
              (Z.to_nat (Part000.retry_budget options)) 0%nat http2Session [] [])
    as [Hle Hone].
  unfold Part000.retry_budget, Js.Math_abs in *. lia.
Qed.

End Part000Properties.

(** ** The response: the status gate and the decoding of the body *)
Section ResponseProperties.

Context {rt : Runtime}.

Lemma throws_on_status_spec options status :
  IndexJs.throws_on_status options status = true <-> Spec.status_gate options status.
Proof.
  unfold IndexJs.throws_on_status, Spec.status_gate.
  rewrite orb_true_iff, !andb_true_iff, Z.ltb_lt, !Z.geb_le, !eqb_true_iff.
  intuition (try lia; congruence).
Qed.

Lemma throws_on_status_below_300 options status :
  status < 300 -> IndexJs.throws_on_status options status = false.
Proof.
  intros H. apply not_true_iff_false. rewrite throws_on_status_spec.
  unfold Spec.status_gate. lia.
Qed.

(** After the gate, buffering a body that ends accepts the response or
    rejects it for its format; it does not crash when the content type is
    textual. *)
Lemma bufferResponseBody_settles headers statusCode chunks accept reject :
  Spec.textual (JsObject.get headers "content-type") ->
  (exists response,
      Response.status response = statusCode
      /\ IndexJs.bufferResponseBody (StreamEnd chunks)
                                    (Response.mk statusCode headers None) accept reject
         = accept response)
  \/ (exists error,
         Error.code error = Some E_HTTP_REQUEST_INVALID_RESPONSE_BODY_FORMAT
         /\ option_map Response.status (Error.response error) = Some statusCode
         /\ IndexJs.bufferResponseBody (StreamEnd chunks)
                                       (Response.mk statusCode headers None) accept reject
            = reject error).
Proof.
  intros Htext. unfold IndexJs.bufferResponseBody, IndexJs.onStreamEnd.
  cbn [chunks_of Response.set_body Response.headers Response.status].
  destruct (JsObject.get headers "content-type") as [[ct| |]|]; cbn in Htext; try tauto;
    cbn [optional_startsWith is_true].
  - destruct (Js.startsWith ct "application/json"); cbn [is_true].
    + destruct (JSON_parse _).
      * left. eexists. split; [|reflexivity]. reflexivity.
      * right. eexists. split; [|split; [|reflexivity]]; reflexivity.
    + left. eexists. split; [|reflexivity]. reflexivity.
  - left. eexists. split; [|reflexivity]. reflexivity.
Qed.

(** The status gate on a response whose body stream ends: such a
    response fails the attempt with
    [E_HTTP_REQUEST_INVALID_RESPONSE_STATUS] exactly when its status is 400
    or more and [doNotThrowOnErrorStatus] is not set, or from 300 to 399
    and [doNotThrowOnRedirectStatus] is not set; a status below 300 passes
    the gate whatever the two flags are, and the attempt then resolves
    with the response, unless the body is not of the format it declares. *)
Theorem status_gate_decides options statusCode headers chunks :
  Spec.textual (JsObject.get headers "content-type") ->
  ((exists error,
       fst (IndexJs.resolveOnResponse options Accept Reject statusCode headers
                                      (StreamEnd chunks))
       = Reject error
       /\ Error.code error = Some E_HTTP_REQUEST_INVALID_RESPONSE_STATUS)
   <-> Spec.status_gate options statusCode)
  /\ (statusCode < 300 ->
      (forall onError onRedirect,
          IndexJs.resolveOnResponse (Options.set_doNotThrow onError onRedirect options)
                                    Accept Reject statusCode headers (StreamEnd chunks)
          = IndexJs.resolveOnResponse options Accept Reject statusCode headers
                                      (StreamEnd chunks))
      /\ ((exists response,
              fst (IndexJs.resolveOnResponse options Accept Reject statusCode headers
                                             (StreamEnd chunks))
              = Accept response)
          \/ (exists error,
                 fst (IndexJs.resolveOnResponse options Accept Reject statusCode headers
                                                (StreamEnd chunks))
                 = Reject error
                 /\ Error.code error = Some E_HTTP_REQUEST_INVALID_RESPONSE_BODY_FORMAT))).
Proof.
  intros Htext. split.
  - rewrite <- throws_on_status_spec. unfold IndexJs.resolveOnResponse.
    cbn [Response.status].
    destruct (IndexJs.throws_on_status options statusCode).
    + cbn [fst]. split; [reflexivity|intros _].
      destruct (bufferResponseBody_settles
                  headers statusCode chunks
                  (fun buffered =>
                     Reject (MkError "Error" (Some E_HTTP_REQUEST_INVALID_RESPONSE_STATUS)
                                     (Some buffered) NoCause))
                  (fun reason =>
                     Reject (MkError "Error" (Some E_HTTP_REQUEST_INVALID_RESPONSE_STATUS)
                                     (Error.response reason) (CauseError reason)))
                  Htext)
        as [(response & _ & ->)|(error & _ & _ & ->)];
        eexists; split; reflexivity.
    + split; [|discriminate]. intros (error & Hfst & Hcode).
      destruct (Options.downstream options); cbn [fst] in Hfst; [discriminate|].
      destruct (bufferResponseBody_settles headers statusCode chunks Accept Reject Htext)
        as [(response & _ & Heq)|(error' & Hcode' & _ & Heq)];
        rewrite Heq in Hfst; [discriminate|].
      inversion Hfst; subst. rewrite Hcode in Hcode'. discriminate.
  - intros Hbelow. split.
    + intros onError onRedirect. unfold IndexJs.resolveOnResponse.
      cbn [Response.status]. rewrite !throws_on_status_below_300 by exact Hbelow.
      reflexivity.
    + unfold IndexJs.resolveOnResponse. cbn [Response.status].
      rewrite throws_on_status_below_300 by exact Hbelow.
      destruct (Options.downstream options); cbn [fst].
      * left. eexists. reflexivity.
      * destruct (bufferResponseBody_settles headers statusCode chunks Accept Reject Htext)
          as [(response & _ & ->)|(error & Hcode & _ & ->)].
        -- left. eexists. reflexivity.
        -- right. eexists. split; [reflexivity|exact Hcode].
Qed.

(** C10: a response that passes the gate and is buffered, declares
    [application/json] and has an empty body resolves with the empty
    object as its body, in [src/index.js] and in [part_000] alike. *)
Theorem empty_json_body_is_empty_object options statusCode headers chunks contentType :
  IndexJs.throws_on_status options statusCode = false ->
  Options.downstream options = false ->
  JsObject.get headers "content-type" = Some (HStr contentType) ->
  Js.startsWith contentType "application/json" = true ->
  String.concat "" chunks = "" ->
  fst (IndexJs.resolveOnResponse options Accept Reject statusCode headers (StreamEnd chunks))
  = Accept (Response.mk statusCode headers (Some (VObj [])))
  /\ fst (Part000.resolveOnResponse options Accept Reject statusCode headers
                                    (StreamEnd chunks))
     = Accept (Response.mk statusCode headers (Some (VObj []))).
Proof.
  intros Hgate Hdown Hget Hjson Hempty.
  unfold IndexJs.resolveOnResponse, Part000.resolveOnResponse.
  cbn [Response.status]. rewrite Hgate, Hdown. cbn [fst].
  unfold IndexJs.bufferResponseBody, Part000.bufferResponseBody,
    IndexJs.onStreamEnd, Part000.onStreamEnd, Part000.contentTypeApplicationJson.
  cbn [chunks_of Response.set_body Response.headers Response.status].
  rewrite Hget, Hempty. cbn [optional_startsWith bind]. rewrite Hjson.
  cbn [is_true String.eqb]. rewrite JSON_parse_empty_object.
  split; reflexivity.
Qed.

(** A read failure of the body stream reaches [#onStreamError], which
    names a [reject] that is not in scope: the listener throws, and the
    attempt does not settle with [E_HTTP_REQUEST_DOWNSTREAM_ERROR], whatever
    the status and the options are. *)
Lemma stream_error_is_uncaught options statusCode headers chunks reason :
  Options.downstream options = false ->
  fst (IndexJs.resolveOnResponse options Accept Reject statusCode headers
                                 (StreamError chunks reason))
  = Uncaught ReferenceError
  /\ fst (Part000.resolveOnResponse options Accept Reject statusCode headers
                                    (StreamError chunks reason))
     = Uncaught ReferenceError.
Proof.
  intros Hdown. unfold IndexJs.resolveOnResponse, Part000.resolveOnResponse.
  rewrite Hdown. destruct (IndexJs.throws_on_status _ _); split; reflexivity.
Qed.

End ResponseProperties.

(** ** Objects *)
Section ObjectProperties.

Context {V : Type}.
Implicit Types (o : JsObject.t V) (k : string) (v : V).

Lemma has_keys o k : JsObject.has o k = true <-> In k (JsObject.keys o).
Proof.
  unfold JsObject.has. induction o as [|[k' v'] o IH]; cbn.
  - split; [discriminate|tauto].
  - destruct (String.eqb k' k) eqn:E.
    + apply String.eqb_eq in E. split; [auto|reflexivity].
    + apply String.eqb_neq in E. rewrite IH. split; [auto|intros [H|H]; [congruence|exact H]].
Qed.

Lemma keys_update o k v : JsObject.keys (JsObject.update o k v) = JsObject.keys o.
Proof.
  unfold JsObject.keys.
  induction o as [|[k' v'] o IH]; cbn; [reflexivity|].
  destruct (String.eqb k' k); cbn; [reflexivity|]. rewrite IH. reflexivity.
Qed.

Lemma keys_add_index o n k v k' :
  In k' (JsObject.keys (JsObject.add_index o n k v)) <-> k' = k \/ In k' (JsObject.keys o).
Proof.
  induction o as [|[k0 v0] o IH]; cbn.
  - intuition congruence.
  - destruct (JsObject.array_index k0) as [m|]; [destruct (m <=? n)%N|]; cbn;
      rewrite ?IH; intuition congruence.
Qed.

Lemma keys_set o k v k' :
  In k' (JsObject.keys (JsObject.set o k v)) <-> k' = k \/ In k' (JsObject.keys o).
Proof.
  unfold JsObject.set. destruct (JsObject.has o k) eqn:Hhas.
  - rewrite keys_update. apply has_keys in Hhas. intuition congruence.
  - destruct (JsObject.array_index k) as [n|].
    + apply keys_add_index.
    + unfold JsObject.keys. rewrite map_app, in_app_iff. cbn. intuition congruence.
Qed.

Lemma nodup_add_index o n k v :
  ~ In k (JsObject.keys o) -> NoDup (JsObject.keys o) ->
  NoDup (JsObject.keys (JsObject.add_index o n k v)).
Proof.
  induction o as [|[k0 v0] o IH]; simpl_keys; intros Hin Hnd.
  - constructor; [tauto|constructor].
  - inversion Hnd as [|? ? Hk0 Hnd']; subst.
    destruct (JsObject.array_index k0) as [m|]; [destruct (m <=? n)%N|]; simpl_keys.
    + constructor.
      * rewrite keys_add_index. intros [->|H]; tauto.
      * apply IH; tauto.
    + constructor; [cbn; tauto|exact Hnd].
    + constructor; [cbn; tauto|exact Hnd].
Qed.

Lemma sorted_add_index o n k v :
  JsObject.array_index k = Some n ->
  StronglySorted JsObject.key_le (JsObject.keys o) ->
  StronglySorted JsObject.key_le (JsObject.keys (JsObject.add_index o n k v)).
Proof.
  intros Hk. induction o as [|[k0 v0] o IH]; simpl_keys; intros Hs.
  - repeat constructor.
  - inversion Hs as [|? ? Hs' Hall]; subst.
    destruct (JsObject.array_index k0) as [m|] eqn:Hk0; [destruct (m <=? n)%N eqn:Hmn|]; simpl_keys.
    + constructor; [apply IH; exact Hs'|].
      apply Forall_forall. intros x Hx. apply keys_add_index in Hx.
      destruct Hx as [->|Hx].
      * unfold JsObject.key_le. rewrite Hk0, Hk. apply N.leb_le. exact Hmn.
      * rewrite Forall_forall in Hall. apply Hall. exact Hx.
    + constructor; [exact Hs|]. constructor.
      * unfold JsObject.key_le. rewrite Hk, Hk0. apply N.leb_gt in Hmn. lia.
      * apply Forall_forall. intros x Hx. rewrite Forall_forall in Hall.
        specialize (Hall x Hx). unfold JsObject.key_le in *. rewrite Hk. rewrite Hk0 in Hall.
        destruct (JsObject.array_index x); [|exact I]. apply N.leb_gt in Hmn. lia.
    + constructor; [exact Hs|]. constructor.
      * unfold JsObject.key_le. rewrite Hk, Hk0. exact I.
      * apply Forall_forall. intros x Hx. rewrite Forall_forall in Hall.
        specialize (Hall x Hx). unfold JsObject.key_le in *. rewrite Hk. rewrite Hk0 in Hall.
        destruct (JsObject.array_index x); [contradiction|exact I].
Qed.

Lemma sorted_snoc (l : list string) k :
  JsObject.array_index k = None ->
  StronglySorted JsObject.key_le l ->
  StronglySorted JsObject.key_le (l ++ [k]).
Proof.
  intros Hk. induction l as [|a l IH]; cbn; intros Hs.
  - repeat constructor.
  - inversion Hs as [|? ? Hs' Hall]; subst. constructor; [apply IH; exact Hs'|].
    apply Forall_app. split; [exact Hall|]. constructor; [|constructor].
    unfold JsObject.key_le. rewrite Hk. destruct (JsObject.array_index a); exact I.
Qed.

(** Assignment keeps an object well formed. *)
Lemma well_formed_set o k v :
  JsObject.well_formed o -> JsObject.well_formed (JsObject.set o k v).
Proof.
  intros [Hnd Hs]. unfold JsObject.well_formed, JsObject.set.
  destruct (JsObject.has o k) eqn:Hhas.
  - rewrite keys_update. split; assumption.
  - assert (Hin : ~ In k (JsObject.keys o)).
    { rewrite <- has_keys. congruence. }
    destruct (JsObject.array_index k) as [n|] eqn:Hk.
    + split; [apply nodup_add_index; assumption|apply sorted_add_index; assumption].
    + unfold JsObject.keys. rewrite map_app. cbn. split.
      * apply NoDup_app; [exact Hnd|repeat constructor; tauto|].
        intros x Hx [<-|[]]. exact (Hin Hx).
      * apply sorted_snoc; assumption.
Qed.

Lemma add_index_last o n k v :
  (forall x, In x (JsObject.keys o) ->
             exists m, JsObject.array_index x = Some m /\ (m <= n)%N) ->
  JsObject.add_index o n k v = o ++ [(k, v)].
Proof.
  induction o as [|[k0 v0] o IH]; cbn; intros Hall; [reflexivity|].
  destruct (Hall k0 (or_introl eq_refl)) as (m & -> & Hm).
  apply N.leb_le in Hm. rewrite Hm. rewrite IH; [reflexivity|].
  intros x Hx. apply Hall. right. exact Hx.
Qed.

(** Assignment to a key that is new and not before any key of the object
    puts the property last. *)
Lemma set_last o k v :
  ~ In k (JsObject.keys o) ->
  Forall (fun x => JsObject.key_le x k) (JsObject.keys o) ->
  JsObject.set o k v = o ++ [(k, v)].
Proof.
  intros Hin Hall. unfold JsObject.set.
  destruct (JsObject.has o k) eqn:Hhas; [apply has_keys in Hhas; contradiction|].
  destruct (JsObject.array_index k) as [n|] eqn:Hk; [|reflexivity].
  apply add_index_last. intros x Hx. rewrite Forall_forall in Hall.
  specialize (Hall x Hx). unfold JsObject.key_le in Hall. rewrite Hk in Hall.
  destruct (JsObject.array_index x) as [m|]; [|contradiction]. eauto.
Qed.

Lemma sorted_middle (l1 l2 : list string) a :
  StronglySorted JsObject.key_le (l1 ++ a :: l2) ->
  Forall (fun x => JsObject.key_le x a) l1.
Proof.
  induction l1 as [|b l1 IH]; cbn; intros Hs; [constructor|].
  inversion Hs as [|? ? Hs' Hall]; subst. constructor; [|apply IH; exact Hs'].
  rewrite Forall_forall in Hall. apply Hall. apply in_or_app. right. left. reflexivity.
Qed.

(** Writing the properties of a well formed object one by one, in their
    order, builds that object. *)
Lemma assign_rebuilds o2 :
  forall o1,
    JsObject.well_formed (o1 ++ o2) -> JsObject.assign o1 o2 = o1 ++ o2.
Proof.
  unfold JsObject.assign.
  induction o2 as [|[k v] o2 IH]; intros o1 Hwf; cbn [fold_left fst snd].
  - rewrite app_nil_r. reflexivity.
  - destruct Hwf as [Hnd Hs]. unfold JsObject.keys in Hnd, Hs.
    rewrite map_app in Hnd, Hs. cbn [map fst] in Hnd, Hs.
    rewrite set_last.
    + rewrite IH; [rewrite <- app_assoc; reflexivity|].
      rewrite <- app_assoc. cbn [app]. split; unfold JsObject.keys; rewrite map_app; assumption.
    + apply NoDup_remove_2 in Hnd. intros Hin. apply Hnd. apply in_or_app. left. exact Hin.
    + apply sorted_middle in Hs. exact Hs.
Qed.

Lemma get_update_eq o k v :
  In k (JsObject.keys o) -> JsObject.get (JsObject.update o k v) k = Some v.
Proof.
  induction o as [|[k' v'] o IH]; cbn; [tauto|]. intros Hin.
  destruct (String.eqb k' k) eqn:E; cbn; rewrite E; [reflexivity|].
  apply IH. destruct Hin as [H|H]; [|exact H]. apply String.eqb_neq in E. congruence.
Qed.

Lemma get_update_ne o k v k' :
  k' <> k -> JsObject.get (JsObject.update o k v) k' = JsObject.get o k'.
Proof.
  intros Hne. induction o as [|[k0 v0] o IH]; cbn; [reflexivity|].
  destruct (String.eqb k0 k) eqn:E; cbn.
  - apply String.eqb_eq in E. subst k0.
    destruct (String.eqb k k') eqn:E'; [apply String.eqb_eq in E'; congruence|reflexivity].
  - rewrite IH. reflexivity.
Qed.

Lemma get_app o1 o2 k :
  JsObject.get (o1 ++ o2) k
  = match JsObject.get o1 k with Some v => Some v | None => JsObject.get o2 k end.
Proof.
  induction o1 as [|[k' v'] o1 IH]; cbn; [reflexivity|].
  destruct (String.eqb k' k); [reflexivity|exact IH].
Qed.

Lemma get_add_index o n k v k' :
  ~ In k (JsObject.keys o) ->
  JsObject.get (JsObject.add_index o n k v) k'
  = if String.eqb k k' then Some v else JsObject.get o k'.
Proof.
  induction o as [|[k0 v0] o IH]; cbn; intros Hin.
  - reflexivity.
  - destruct (JsObject.array_index k0) as [m|]; [destruct (m <=? n)%N|]; cbn;
      try reflexivity.
    rewrite IH by tauto.
    destruct (String.eqb k0 k') eqn:E0; [|reflexivity].
    destruct (String.eqb k k') eqn:E; [|reflexivity].
    apply String.eqb_eq in E0, E. exfalso. apply Hin. left. congruence.
Qed.

(** Reading after assignment. *)
Lemma get_set o k v k' :
  JsObject.get (JsObject.set o k v) k'
  = if String.eqb k k' then Some v else JsObject.get o k'.
Proof.
  unfold JsObject.set. destruct (JsObject.has o k) eqn:Hhas.
  - destruct (String.eqb k k') eqn:E.
    + apply String.eqb_eq in E. subst k'. apply get_update_eq. apply has_keys. exact Hhas.
    + apply get_update_ne. apply String.eqb_neq in E. congruence.
  - assert (Hin : ~ In k (JsObject.keys o)) by (rewrite <- has_keys; congruence).
    destruct (JsObject.array_index k); [apply get_add_index; exact Hin|].
    rewrite get_app. cbn.
    destruct (JsObject.get o k') eqn:Hget; [|reflexivity].
    destruct (String.eqb k k') eqn:E; [|reflexivity].
    apply String.eqb_eq in E. subst k'. exfalso. apply Hin. apply has_keys.
    unfold JsObject.has. rewrite Hget. reflexivity.
Qed.

End ObjectProperties.

(** ** The request: headers and framing *)
Section RequestProperties.

Lemma lower_unit_idempotent c : Js.lower_unit (Js.lower_unit c) = Js.lower_unit c.
Proof. destruct c as [[] [] [] [] [] [] [] []]; vm_compute; reflexivity. Qed.

Lemma toLowerCase_idempotent s : Js.toLowerCase (Js.toLowerCase s) = Js.toLowerCase s.
Proof.
  induction s as [|c s IH]; cbn; [reflexivity|].
  rewrite lower_unit_idempotent, IH. reflexivity.
Qed.

Lemma normalize_well_formed headers :
  forall normalized,
    JsObject.well_formed normalized ->
    JsObject.well_formed (fold_left IndexJs.lower_set headers normalized).
Proof.
  induction headers as [|entry headers IH]; intros normalized Hwf; cbn; [exact Hwf|].
  apply IH. unfold IndexJs.lower_set. apply well_formed_set. exact Hwf.
Qed.

Lemma normalize_keys_lower headers :
  forall normalized,
    (forall k, In k (JsObject.keys normalized) -> Js.toLowerCase k = k) ->
    forall k, In k (JsObject.keys (fold_left IndexJs.lower_set headers normalized)) ->
              Js.toLowerCase k = k.
Proof.
  induction headers as [|entry headers IH]; intros normalized Hlow; cbn; [exact Hlow|].
  apply IH. intros k Hk. unfold IndexJs.lower_set in Hk.
  apply keys_set in Hk. destruct Hk as [->|Hk].
  - apply toLowerCase_idempotent.
  - apply Hlow. exact Hk.
Qed.

Lemma normalize_get_other headers key :
  forall normalized,
    (forall k, In k (JsObject.keys headers) -> Js.toLowerCase k <> key) ->
    JsObject.get (fold_left IndexJs.lower_set headers normalized) key = JsObject.get normalized key.
Proof.
  induction headers as [|[k v] headers IH]; intros normalized Hne; cbn [fold_left];
    [reflexivity|].
  rewrite IH.
  - unfold IndexJs.lower_set. rewrite get_set. cbn [fst snd].
    destruct (String.eqb (Js.toLowerCase k) key) eqn:E; [|reflexivity].
    apply String.eqb_eq in E. exfalso. apply (Hne k); [left; reflexivity|exact E].
  - intros k' Hk'. apply Hne. right. exact Hk'.
Qed.

Lemma fold_left_lower_fixed (headers : JsObject.t hvalue) :
  (forall k, In k (JsObject.keys headers) -> Js.toLowerCase k = k) ->
  forall normalized,
    fold_left IndexJs.lower_set headers normalized = JsObject.assign normalized headers.
Proof.
  unfold JsObject.assign.
  induction headers as [|[k v] headers IH]; intros Hlow normalized; cbn [fold_left fst snd];
    [reflexivity|].
  unfold IndexJs.lower_set at 2. cbn [fst snd].
  rewrite (Hlow k) by (left; reflexivity).
  apply IH. intros k' Hk'. apply Hlow. right. exact Hk'.
Qed.

(** C8: [#normalizeHeaders] applied to its own result gives that result
    again; every key of the result is in lower case; and of the keys that
    are equal in lower case, the value of the last one in the order of
    [Object.keys] is the one kept. *)
Theorem normalizeHeaders_idempotent headers :
  IndexJs.normalizeHeaders (IndexJs.normalizeHeaders headers)
  = IndexJs.normalizeHeaders headers
  /\ (forall k, In k (JsObject.keys (IndexJs.normalizeHeaders headers)) ->
                Js.toLowerCase k = k)
  /\ (forall before k v after,
         headers = before ++ (k, v) :: after ->
         (forall k', In k' (JsObject.keys after) ->
                     Js.toLowerCase k' <> Js.toLowerCase k) ->
         JsObject.get (IndexJs.normalizeHeaders headers) (Js.toLowerCase k) = Some v).
Proof.
  assert (Hlow : forall k, In k (JsObject.keys (IndexJs.normalizeHeaders headers)) ->
                           Js.toLowerCase k = k).
  { apply normalize_keys_lower. intros k []. }
  split; [|split; [exact Hlow|]].
  - unfold IndexJs.normalizeHeaders at 1.
    rewrite fold_left_lower_fixed by exact Hlow.
    apply (assign_rebuilds (IndexJs.normalizeHeaders headers) []).
    cbn [app]. apply normalize_well_formed.
    split; constructor.
  - intros before k v after -> Hafter.
    unfold IndexJs.normalizeHeaders. rewrite fold_left_app. cbn [fold_left].
    rewrite normalize_get_other by exact Hafter.
    unfold IndexJs.lower_set. cbn [fst snd].
    rewrite get_set, String.eqb_refl. reflexivity.
Qed.

(** The framing header is chunked exactly when the request is streamed,
    and the content length is the [length] of the body otherwise. *)
Lemma createBodyHeaderDelimiter_spec body isStreamed :
  IndexJs.createBodyHeaderDelimiter (Some body) isStreamed
  = Normal (if isStreamed
            then [("transfer-encoding", HStr "chunked")]
            else [("content-length", HNum (Js.length body))]).
Proof. destruct isStreamed; reflexivity. Qed.

(** The [length] of a string is its byte length when every code unit is
    below 128, and less otherwise. *)
Lemma length_le_byte_length body : Js.length body <= Spec.byte_length body.
Proof.
  unfold Js.length. induction body as [|c body IH]; cbn [String.length Spec.byte_length];
    [reflexivity|].
  destruct (Js.code c <? 128)%N; lia.
Qed.

Lemma length_byte_length body :
  Js.length body = Spec.byte_length body
  <-> (forall c, In c (list_ascii_of_string body) -> (Js.code c < 128)%N).
Proof.
  unfold Js.length.
  induction body as [|c body IH];
    cbn [String.length Spec.byte_length list_ascii_of_string].
  - split; [intros _ c []|reflexivity].
  - pose proof (length_le_byte_length body) as Hle. unfold Js.length in Hle.
    destruct (Js.code c <? 128)%N eqn:Hc.
    + apply N.ltb_lt in Hc. split.
      * intros Heq c' [<-|Hin]; [exact Hc|]. apply IH; [lia|exact Hin].
      * intros Hall. assert (Z.of_nat (String.length body) = Spec.byte_length body).
        { apply IH. intros c' Hin. apply Hall. right. exact Hin. }
        lia.
    + apply N.ltb_ge in Hc. split; [lia|].
      intros Hall. specialize (Hall c (or_introl eq_refl)). lia.
Qed.

(** For a body of code units below 128 that is not streamed, the content
    length written is the byte length of the body. *)
Lemma content_length_ascii body :
  Spec.every (fun c => (Js.code c <? 128)%N) body = true ->
  IndexJs.createBodyHeaderDelimiter (Some body) false
  = Normal [("content-length", HNum (Spec.byte_length body))].
Proof.
  intros Hascii. unfold IndexJs.createBodyHeaderDelimiter.
  replace (Js.length body) with (Spec.byte_length body); [reflexivity|].
  symmetry. apply length_byte_length.
  induction body as [|c body IH]; cbn [list_ascii_of_string]; [intros c []|].
  cbn in Hascii. apply andb_true_iff in Hascii. destruct Hascii as [Hc Hbody].
  intros c' [<-|Hin]; [apply N.ltb_lt; exact Hc|apply IH; assumption].
Qed.

End RequestProperties.

(** ** Strings *)
Section StringProperties.

Implicit Types (s t : string) (c : ascii).

Lemma append_assoc s t u : ((s ++ t) ++ u = s ++ t ++ u)%string.
Proof. induction s as [|c s IH]; cbn; [reflexivity|]. rewrite IH. reflexivity. Qed.

Lemma append_empty_r s : (s ++ "" = s)%string.
Proof. induction s as [|c s IH]; cbn; [reflexivity|]. rewrite IH. reflexivity. Qed.

Lemma length_append s t :
  String.length (s ++ t) = (String.length s + String.length t)%nat.
Proof. induction s as [|c s IH]; cbn; [reflexivity|]. rewrite IH. reflexivity. Qed.

Lemma every_append test s t :
  Spec.every test (s ++ t) = Spec.every test s && Spec.every test t.
Proof.
  induction s as [|c s IH]; cbn; [reflexivity|]. rewrite IH, andb_assoc. reflexivity.
Qed.

Lemma every_impl (test test' : ascii -> bool) s :
  (forall c, test c = true -> test' c = true) ->
  Spec.every test s = true -> Spec.every test' s = true.
Proof.
  intros Himpl. induction s as [|c s IH]; cbn; [reflexivity|].
  rewrite !andb_true_iff. intros [Hc Hs]. split; [apply Himpl; exact Hc|apply IH; exact Hs].
Qed.

Lemma substring_all s : String.substring 0 (String.length s) s = s.
Proof. induction s as [|c s IH]; cbn; [reflexivity|]. rewrite IH. reflexivity. Qed.

Lemma substring_prefix s t : String.substring 0 (String.length s) (s ++ t) = s.
Proof.
  induction s as [|c s IH]; cbn; [destruct t; reflexivity|]. rewrite IH. reflexivity.
Qed.

Lemma substring_suffix s t :
  String.substring (String.length s) (String.length t) (s ++ t) = t.
Proof. induction s as [|c s IH]; cbn; [apply substring_all|exact IH]. Qed.

(** [trim] leaves a text alone that neither starts nor ends with white
    space. *)
Lemma trimEnd_solid t :
  t <> EmptyString -> Spec.every (fun c => negb (Js.is_space c)) t = true ->
  Js.trimEnd t = t.
Proof.
  induction t as [|c t IH]; [congruence|]. intros _. cbn.
  rewrite andb_true_iff, negb_true_iff. intros [Hc Ht].
  destruct t as [|c' t'].
  - cbn. rewrite Hc. reflexivity.
  - rewrite IH by (congruence || exact Ht). reflexivity.
Qed.

Lemma trimEnd_append s t :
  t <> EmptyString -> Spec.every (fun c => negb (Js.is_space c)) t = true ->
  Js.trimEnd (s ++ t) = (s ++ t)%string.
Proof.
  intros Hne Ht. induction s as [|c s IH]; cbn [String.append].
  - apply trimEnd_solid; assumption.
  - cbn [Js.trimEnd]. rewrite IH.
    destruct (s ++ t)%string eqn:E; [|reflexivity].
    destruct s; cbn in E; [congruence|discriminate].
Qed.

Lemma trimStart_solid c s : Js.is_space c = false -> Js.trimStart (String c s) = String c s.
Proof. intros H. cbn. rewrite H. reflexivity. Qed.

(** [split] finds nothing to cut where the first code unit of the
    separator does not occur. *)
Lemma split_go_whole c sep s :
  Spec.every (fun d => negb (Ascii.eqb d c)) s = true ->
  forall cur, Js.split_go (String c sep) s 0 cur = [(cur ++ s)%string].
Proof.
  induction s as [|d s IH]; intros Hs cur; cbn [Js.split_go].
  - rewrite append_empty_r. reflexivity.
  - cbn in Hs. apply andb_true_iff in Hs. destruct Hs as [Hd Hs].
    apply negb_true_iff in Hd.
    cbn [String.prefix]. destruct (ascii_dec c d) as [->|Hne].
    + rewrite Ascii.eqb_refl in Hd. discriminate.
    + rewrite IH by exact Hs. rewrite append_assoc. reflexivity.
Qed.

Lemma split_whole c sep s :
  Spec.every (fun d => negb (Ascii.eqb d c)) s = true ->
  Js.split s (String c sep) = [s].
Proof. intros Hs. unfold Js.split. rewrite split_go_whole by exact Hs. reflexivity. Qed.

(** Passing over the rest of a separator. *)
Lemma split_go_skip sep passed :
  forall rest cur,
    Js.split_go sep (passed ++ rest) (String.length passed) cur
    = Js.split_go sep rest 0 cur.
Proof.
  induction passed as [|c passed IH]; intros rest cur; cbn [String.append String.length].
  - destruct rest; reflexivity.
  - cbn [Js.split_go]. apply IH.
Qed.

Lemma prefix_append sep :
  forall s, String.prefix sep s = true -> exists rest, s = (sep ++ rest)%string.
Proof.
  induction sep as [|c sep IH]; intros s H; cbn [String.append].
  - exists s. reflexivity.
  - destruct s as [|d s]; cbn [String.prefix] in H; [discriminate|].
    destruct (ascii_dec c d) as [<-|]; [|discriminate].
    destruct (IH s H) as [rest ->]. exists rest. reflexivity.
Qed.

Lemma split_go_not_empty sep s : forall skip cur, Js.split_go sep s skip cur <> [].
Proof.
  induction s as [|c s IH]; intros skip cur; cbn [Js.split_go]; [discriminate|].
  destruct skip; [|apply IH].
  destruct (String.prefix sep (String c s)); [discriminate|apply IH].
Qed.

Lemma join_cons sep x l :
  l <> [] -> Js.join sep (x :: l) = (x ++ sep ++ Js.join sep l)%string.
Proof. destruct l; [congruence|reflexivity]. Qed.

(** Joining the pieces of [split] with the separator gives the text
    back: [s.split(sep).join(sep) === s]. *)
Lemma join_split_go c sep n :
  forall s cur,
    (String.length s <= n)%nat ->
    Js.join (String c sep) (Js.split_go (String c sep) s 0 cur) = (cur ++ s)%string.
Proof.
  induction n as [|n IH]; intros s cur Hn.
  - destruct s; [|cbn in Hn; lia]. cbn. rewrite append_empty_r. reflexivity.
  - destruct s as [|d s]; [cbn; rewrite append_empty_r; reflexivity|].
    cbn [String.length] in Hn. cbn [Js.split_go].
    destruct (String.prefix (String c sep) (String d s)) eqn:Hprefix.
    + destruct (prefix_append _ _ Hprefix) as [rest Hrest].
      cbn [String.append] in Hrest. inversion Hrest; subst d s.
      cbn [String.length Nat.sub]. rewrite Nat.sub_0_r, split_go_skip.
      rewrite join_cons by apply split_go_not_empty.
      rewrite IH by (rewrite length_append in Hn; lia).
      reflexivity.
    + rewrite IH by lia. rewrite append_assoc. reflexivity.
Qed.

Lemma join_split c sep s : Js.join (String c sep) (Js.split s (String c sep)) = s.
Proof. unfold Js.split. rewrite (join_split_go c sep (String.length s)); auto. Qed.

Lemma LF_code : LF = String (ascii_of_N 10) EmptyString.
Proof. reflexivity. Qed.

(** A text with one blank line and no other line end splits in two at
    the blank line. *)
Lemma split_go_blank_line s t :
  Spec.every (fun d => negb (Ascii.eqb d (ascii_of_N 10))) s = true ->
  Spec.every (fun d => negb (Ascii.eqb d (ascii_of_N 10))) t = true ->
  forall cur,
    Js.split_go (LF ++ LF) (s ++ LF ++ LF ++ t) 0 cur = [(cur ++ s)%string; t].
Proof.
  intros Hs Ht. induction s as [|d s IH]; intros cur.
  - rewrite append_empty_r. change (LF ++ LF)%string with (String (ascii_of_N 10) LF).
    cbn [String.append Js.split_go]. rewrite LF_code.
    cbn [String.append String.prefix String.length Nat.sub Js.split_go].
    destruct (ascii_dec (ascii_of_N 10) (ascii_of_N 10)) as [_|Hne]; [|congruence].
    destruct t; cbn [String.prefix].
    + reflexivity.
    + change (String (ascii_of_N 10) (String (ascii_of_N 10) EmptyString))
        with (String (ascii_of_N 10) LF).
      rewrite split_go_whole by exact Ht. reflexivity.
  - cbn in Hs. apply andb_true_iff in Hs. destruct Hs as [Hd Hs].
    apply negb_true_iff in Hd.
    change (LF ++ LF)%string with (String (ascii_of_N 10) LF) in *.
    cbn [String.append Js.split_go String.prefix].
    destruct (ascii_dec (ascii_of_N 10) d) as [<-|Hne].
    + rewrite Ascii.eqb_refl in Hd. discriminate.
    + rewrite IH by exact Hs. rewrite append_assoc. reflexivity.
Qed.

Lemma indexOf_from_first c s t :
  Spec.every (fun d => negb (Ascii.eqb d c)) s = true ->
  forall i, Js.indexOf_from c (s ++ String c t) i = i + Z.of_nat (String.length s).
Proof.
  induction s as [|d s IH]; intros Hs i; cbn [String.append Js.indexOf_from String.length].
  - rewrite Ascii.eqb_refl. lia.
  - cbn in Hs. apply andb_true_iff in Hs. destruct Hs as [Hd Hs].
    apply negb_true_iff in Hd. rewrite Hd, IH by exact Hs. lia.
Qed.

(** [slice] up to the length of a prefix gives the prefix, and from it
    the rest. *)
Lemma slice_prefix s t : Js.slice (s ++ t) 0 (Js.length s) = s.
Proof.
  unfold Js.slice, Js.slice_index, Js.length. rewrite length_append.
  cbn [Z.ltb Z.compare].
  destruct (Z.of_nat (String.length s) <? 0) eqn:E; [apply Z.ltb_lt in E; lia|].
  replace (Z.to_nat (Z.min 0 (Z.of_nat (String.length s + String.length t)))) with 0%nat
    by lia.
  replace (Z.to_nat _) with (String.length s) by lia.
  apply substring_prefix.
Qed.

Lemma slice_from_suffix s t : Js.slice_from (s ++ t) (Js.length s) = t.
Proof.
  unfold Js.slice_from, Js.slice, Js.slice_index, Js.length. rewrite length_append.
  destruct (Z.of_nat (String.length s) <? 0) eqn:E; [apply Z.ltb_lt in E; lia|].
  destruct (Z.of_nat (String.length s + String.length t) <? 0) eqn:E';
    [apply Z.ltb_lt in E'; lia|].
  replace (Z.to_nat (Z.min (Z.of_nat (String.length s))
                           (Z.of_nat (String.length s + String.length t))))
    with (String.length s) by lia.
  replace (Z.to_nat _) with (String.length t) by lia.
  apply substring_suffix.
Qed.

(** A numeral is not empty and made of digits, which are neither white
    space nor a colon. *)
Lemma digit_plain c d :
  Js.digit c = Some d ->
  Js.is_space c = false /\ Ascii.eqb c ":"%char = false.
Proof.
  destruct c as [[] [] [] [] [] [] [] []]; vm_compute; intros H;
    first [discriminate H | split; reflexivity].
Qed.

Lemma digits_plain s :
  forall acc n,
    Js.digits s acc = Some n ->
    Spec.every (fun c => negb (Js.is_space c) && negb (Ascii.eqb c ":"%char)) s = true.
Proof.
  induction s as [|c s IH]; intros acc n; cbn [Js.digits Spec.every]; [reflexivity|].
  destruct (Js.digit c) as [d|] eqn:Hd; [|discriminate].
  intros H. destruct (digit_plain c d Hd) as [-> ->]. cbn. exact (IH _ _ H).
Qed.

Lemma numeral_plain s n :
  Js.numeral s = Some n ->
  s <> EmptyString
  /\ Spec.every (fun c => negb (Js.is_space c) && negb (Ascii.eqb c ":"%char)) s = true.
Proof.
  unfold Js.numeral. destruct s as [|c s]; [discriminate|].
  destruct (_ && _); [discriminate|]. intros H. split; [discriminate|].
  exact (digits_plain _ _ _ H).
Qed.

Lemma plain_no_space s :
  Spec.every (fun c => negb (Js.is_space c) && negb (Ascii.eqb c ":"%char)) s = true ->
  Spec.every (fun c => negb (Js.is_space c)) s = true.
Proof.
  apply every_impl. intros c H. apply andb_true_iff in H. tauto.
Qed.

Lemma plain_no_colon s :
  Spec.every (fun c => negb (Js.is_space c) && negb (Ascii.eqb c ":"%char)) s = true ->
  Spec.every (fun c => negb (Ascii.eqb c ":"%char)) s = true.
Proof.
  apply every_impl. intros c H. apply andb_true_iff in H. tauto.
Qed.

Lemma no_space_no_LF s :
  Spec.every (fun c => negb (Js.is_space c)) s = true ->
  Spec.every (fun d => negb (Ascii.eqb d (ascii_of_N 10))) s = true.
Proof.
  apply every_impl. intros c H. apply negb_true_iff in H. apply negb_true_iff.
  destruct (Ascii.eqb c (ascii_of_N 10)) eqn:E; [|reflexivity].
  apply Ascii.eqb_eq in E. subst c. vm_compute in H. discriminate.
Qed.

(** The content types the class tells apart exclude each other. *)
Lemma event_stream_not_json contentType :
  Js.startsWith contentType "text/event-stream" = true ->
  Js.startsWith contentType "application/json" = false.
Proof.
  unfold Js.startsWith. destruct contentType as [|c rest]; [discriminate|].
  cbn [String.prefix]. destruct (ascii_dec "t"%char c) as [<-|]; [|discriminate].
  intros _. destruct (ascii_dec "a"%char "t"%char); [discriminate|reflexivity].
Qed.

End StringProperties.

(** ** Event streams *)
Section EventStream.

Context {rt : Runtime}.

Lemma event_text_no_LF field value n :
  Spec.field_name field -> Js.numeral value = Some n ->
  Spec.every (fun d => negb (Ascii.eqb d (ascii_of_N 10))) (Spec.event_text field value)
  = true.
Proof.
  intros Hfield Hvalue. destruct (numeral_plain _ _ Hvalue) as [_ Hplain].
  unfold Spec.event_text. rewrite !every_append.
  rewrite (no_space_no_LF _ (plain_no_space _ Hfield)).
  rewrite (no_space_no_LF _ (plain_no_space _ Hplain)). reflexivity.
Qed.

(** A field [name: numeral] becomes the entry of the name and the
    number. *)
Lemma eventStreamEntry_numeral field value n :
  Spec.field_name field -> Js.numeral value = Some n -> (n <= 9007199254740992)%N ->
  Part000.eventStreamEntry (Spec.event_text field value)
  = (field, VNum (inject_Z (Z.of_N n))).
Proof.
  intros Hfield Hvalue Hn. destruct (numeral_plain _ _ Hvalue) as [Hne Hplain].
  unfold Part000.eventStreamEntry, Spec.event_text, Js.indexOf.
  change (": " ++ value)%string with (String ":"%char (String " "%char value)).
  rewrite indexOf_from_first by (apply plain_no_colon; exact Hfield).
  rewrite Z.add_0_l. fold (Js.length field). rewrite slice_prefix.
  replace (field ++ String ":"%char (String " "%char value))%string
    with ((field ++ ":") ++ String " "%char value)%string
    by (rewrite append_assoc; reflexivity).
  replace (Js.length field + 1) with (Js.length (field ++ ":"))
    by (unfold Js.length; rewrite length_append; cbn [String.length]; lia).
  rewrite slice_from_suffix.
  assert (Htrim : Js.trim (String " "%char value) = value).
  { unfold Js.trim. cbn [Js.trimStart].
    change (Js.is_space " "%char) with true. cbv iota.
    destruct value as [|c value]; [congruence|].
    pose proof (plain_no_space _ Hplain) as Hsolid.
    assert (Hc : Js.is_space c = false).
    { cbn in Hsolid. apply andb_true_iff in Hsolid. destruct Hsolid as [Hc _].
      apply negb_true_iff in Hc. exact Hc. }
    rewrite trimStart_solid by exact Hc.
    apply trimEnd_solid; [discriminate|exact Hsolid]. }
  rewrite Htrim, (JSON_parse_numeral _ _ Hvalue Hn). reflexivity.
Qed.

Lemma fromEntries_one {V : Type} k (v : V) : JsObject.fromEntries [(k, v)] = [(k, v)].
Proof.
  unfold JsObject.fromEntries, JsObject.assign, JsObject.set. cbn.
  destruct (JsObject.array_index k); reflexivity.
Qed.

(** The text of two events with one numeral field each, a blank line
    between them, decodes to the two records in that order. *)
Lemma contentTypeTextEventStream_two field1 value1 n1 field2 value2 n2 :
  Spec.field_name field1 -> Js.numeral value1 = Some n1 -> (n1 <= 9007199254740992)%N ->
  Spec.field_name field2 -> Js.numeral value2 = Some n2 -> (n2 <= 9007199254740992)%N ->
  Part000.contentTypeTextEventStream
    (Spec.event_text field1 value1 ++ LF ++ LF ++ Spec.event_text field2 value2)
  = VArr [VObj [(field1, VNum (inject_Z (Z.of_N n1)))];
          VObj [(field2, VNum (inject_Z (Z.of_N n2)))]].
Proof.
  intros Hf1 Hv1 Hn1 Hf2 Hv2 Hn2.
  destruct (numeral_plain _ _ Hv2) as [Hne2 Hplain2].
  unfold Part000.contentTypeTextEventStream.
  assert (Htrim : Js.trim (Spec.event_text field1 value1 ++ LF ++ LF
                           ++ Spec.event_text field2 value2)
                  = (Spec.event_text field1 value1 ++ LF ++ LF
                     ++ Spec.event_text field2 value2)%string).
  { unfold Js.trim.
    assert (Hstart : forall rest,
               Js.trimStart (Spec.event_text field1 value1 ++ rest)
               = (Spec.event_text field1 value1 ++ rest)%string).
    { intros rest. unfold Spec.event_text. destruct field1 as [|c field1].
      - reflexivity.
      - cbn [String.append]. apply trimStart_solid.
        pose proof (plain_no_space _ Hf1) as Hsolid. cbn in Hsolid.
        apply andb_true_iff in Hsolid. destruct Hsolid as [Hc _].
        apply negb_true_iff in Hc. exact Hc. }
    rewrite Hstart.
    replace (Spec.event_text field1 value1 ++ LF ++ LF
             ++ Spec.event_text field2 value2)%string
      with ((Spec.event_text field1 value1 ++ LF ++ LF ++ field2 ++ ": ")
            ++ value2)%string
      by (unfold Spec.event_text; rewrite !append_assoc; reflexivity).
    apply trimEnd_append; [exact Hne2|apply plain_no_space; exact Hplain2]. }
  rewrite Htrim. unfold Js.split at 2.
  rewrite split_go_blank_line
    by (eapply event_text_no_LF; eassumption).
  cbn [String.append map].
  rewrite !(split_whole (ascii_of_N 10) EmptyString)
    by (eapply event_text_no_LF; eassumption).
  cbn [map].
  rewrite (eventStreamEntry_numeral _ _ _ Hf1 Hv1 Hn1),
    (eventStreamEntry_numeral _ _ _ Hf2 Hv2 Hn2), !fromEntries_one.
  reflexivity.
Qed.

(** C9: a response that passes the gate and is buffered and that declares
    [text/event-stream] resolves with the list of its events in the order
    of the body: the trimmed body is cut at the blank lines, each event at
    the line ends, each field at its first colon, and the value of a field
    is what [JSON.parse] makes of the trimmed text behind the colon, or
    that text when it is no JSON. In particular two events with one
    numeral field each give the two records with the numbers. *)
Theorem event_stream_decoded options statusCode headers chunks contentType :
  IndexJs.throws_on_status options statusCode = false ->
  Options.downstream options = false ->
  JsObject.get headers "content-type" = Some (HStr contentType) ->
  Js.startsWith contentType "text/event-stream" = true ->
  fst (Part000.resolveOnResponse options Accept Reject statusCode headers (StreamEnd chunks))
  = Accept
      (Response.mk
         statusCode headers
         (Some (VArr (map (fun fields =>
                             VObj (JsObject.fromEntries
                                     (map Part000.eventStreamEntry (Js.split fields LF))))
                          (Js.split (Js.trim (String.concat "" chunks))
                                    (LF ++ LF)%string)))))
  /\ (forall field,
         Part000.eventStreamEntry field
         = (Js.slice field 0 (Js.indexOf field ":"%char),
            match JSON_parse (Js.trim (Js.slice_from field (Js.indexOf field ":"%char + 1)))
            with
            | Some parsed => parsed
            | None => VStr (Js.trim (Js.slice_from field (Js.indexOf field ":"%char + 1)))
            end))
  /\ (forall field1 value1 n1 field2 value2 n2,
         Spec.field_name field1 -> Js.numeral value1 = Some n1 ->
         (n1 <= 9007199254740992)%N ->
         Spec.field_name field2 -> Js.numeral value2 = Some n2 ->
         (n2 <= 9007199254740992)%N ->
         String.concat "" chunks
         = (Spec.event_text field1 value1 ++ LF ++ LF ++ Spec.event_text field2 value2)%string ->
         fst (Part000.resolveOnResponse options Accept Reject statusCode headers
                                        (StreamEnd chunks))
         = Accept (Response.mk statusCode headers
                               (Some (VArr [VObj [(field1, VNum (inject_Z (Z.of_N n1)))];
                                            VObj [(field2, VNum (inject_Z (Z.of_N n2)))]])))).
Proof.
  intros Hgate Hdown Hget Hstream.
  assert (Hdecoded :
            fst (Part000.resolveOnResponse options Accept Reject statusCode headers
                                           (StreamEnd chunks))
            = Accept (Response.mk statusCode headers
                                  (Some (Part000.contentTypeTextEventStream
                                           (String.concat "" chunks))))).
  { unfold Part000.resolveOnResponse. cbn [Response.status]. rewrite Hgate, Hdown.
    cbn [fst]. unfold Part000.bufferResponseBody, Part000.onStreamEnd.
    cbn [chunks_of Response.set_body Response.headers Response.status].
    rewrite Hget. cbn [optional_startsWith bind].
    rewrite (event_stream_not_json _ Hstream), Hstream. reflexivity. }
  split; [exact Hdecoded|split].
  - intros field. unfold Part000.eventStreamEntry.
    destruct (JSON_parse _); reflexivity.
  - intros field1 value1 n1 field2 value2 n2 Hf1 Hv1 Hn1 Hf2 Hv2 Hn2 Hbody.
    rewrite Hdecoded, Hbody.
    rewrite (contentTypeTextEventStream_two _ _ _ _ _ _ Hf1 Hv1 Hn1 Hf2 Hv2 Hn2).
    reflexivity.
Qed.

End EventStream.

(** ** What an attempt is rejected with *)
Section AttemptFailures.

Context {rt : Runtime}.

Lemma has_code_eq error code :
  Error.has_code error code = true <-> Error.code error = Some code.
Proof.
  unfold Error.has_code. destruct (Error.code error) as [c|].
  - rewrite String.eqb_eq. split; congruence.
  - split; discriminate.
Qed.

Lemma attempt_failure_code error code :
  Error.code error = Some code -> In code Spec.attempt_codes -> Spec.attempt_failure error.
Proof. intros Hcode Hin. right. exists code. split; assumption. Qed.

(** No failure of an attempt is a downstream error, nor a failure of the
    session that [part_000] tells apart. *)
Lemma attempt_failure_other error code :
  Spec.attempt_failure error -> ~ In code Spec.attempt_codes ->
  Error.has_code error code = false.
Proof.
  intros [->|(c & Hc & Hin)] Hout; [reflexivity|].
  apply not_true_iff_false. rewrite has_code_eq, Hc. intros H. inversion H; subst.
  contradiction.
Qed.

Lemma optional_startsWith_throws value p e :
  optional_startsWith value p = Throw e -> e = TypeError.
Proof. destruct value as [[]|]; cbn; intros H; inversion H; reflexivity. Qed.

Lemma normalizeBody_throws body contentType e :
  IndexJs.normalizeBody body contentType = Throw e -> e = TypeError.
Proof.
  unfold IndexJs.normalizeBody.
  destruct body; try discriminate;
    destruct (optional_startsWith contentType "application/json") as [json|e'] eqn:H;
    cbn [bind]; try (destruct (is_true json); discriminate);
    intros He; inversion He; subst; eapply optional_startsWith_throws; exact H.
Qed.

Lemma normalizeUrl_throws url base e :
  IndexJs.normalizeUrl url base = Throw e -> e = TypeError.
Proof.
  unfold IndexJs.normalizeUrl.
  destruct (if negb (String.eqb url "") then _ else _); intros H; inversion H; reflexivity.
Qed.

(** What the executor of [#resolve] throws before a request exists is a
    [TypeError]. *)
Lemma prepare_throws http2Session options e :
  IndexJs.prepare http2Session options = Throw e -> e = TypeError.
Proof.
  unfold IndexJs.prepare.
  destruct (IndexJs.normalizeBody _ _) as [body|e1] eqn:Hbody; cbn [bind].
  - destruct (IndexJs.createBodyHeaderDelimiter _ _) as [delimiter|e2] eqn:Hdelimiter;
      cbn [bind].
    + destruct (IndexJs.normalizeUrl _ _) as [url|e3] eqn:Hurl; cbn [bind];
        [discriminate|].
      intros H; inversion H; subst. eapply normalizeUrl_throws. exact Hurl.
    + intros H; inversion H; subst. unfold IndexJs.createBodyHeaderDelimiter in Hdelimiter.
      destruct (_ || _); [discriminate|]. destruct body; [discriminate|].
      inversion Hdelimiter. reflexivity.
  - intros H; inversion H; subst. eapply normalizeBody_throws. exact Hbody.
Qed.

Lemma part000_prepare_throws http2Session options e :
  Part000.prepare http2Session options = Throw e -> e = TypeError.
Proof.
  unfold Part000.prepare.
  destruct (IndexJs.normalizeBody _ _) as [body|e1] eqn:Hbody; cbn [bind].
  - destruct (IndexJs.normalizeUrl _ _) as [url|e3] eqn:Hurl; cbn [bind];
      [discriminate|].
    intros H; inversion H; subst. eapply normalizeUrl_throws. exact Hurl.
  - intros H; inversion H; subst. eapply normalizeBody_throws. exact Hbody.
Qed.

Ltac known_code :=
  eapply attempt_failure_code; [reflexivity|cbn; tauto].

Lemma client_error_failure reason error :
  IndexJs.resolveOnClientError Reject reason = Reject error -> Spec.attempt_failure error.
Proof.
  unfold IndexJs.resolveOnClientError.
  destruct (Error.has_code reason E_HTTP_REQUEST_CLIENT_TIMEOUT) eqn:Hcode;
    intros H; inversion H; subst.
  - apply has_code_eq in Hcode. eapply attempt_failure_code; [exact Hcode|cbn; tauto].
  - known_code.
Qed.

(** The listeners of [src/index.js] reject with one of the four codes of
    the class. *)
Lemma on_event_failure options ev error :
  fst (IndexJs.on_event options ev) = Reject error -> Spec.attempt_failure error.
Proof.
  destruct ev as [statusCode headers readable|reason| |]; cbn [IndexJs.on_event fst].
  - unfold IndexJs.resolveOnResponse.
    destruct (IndexJs.throws_on_status _ _); cbn [fst].
    + unfold IndexJs.bufferResponseBody, IndexJs.onStreamEnd, IndexJs.onStreamError.
      destruct readable as [chunks|chunks reason]; [|discriminate].
      destruct (optional_startsWith _ _) as [json|e]; [|discriminate].
      destruct (is_true json); [destruct (JSON_parse _)|];
        intros H; inversion H; subst; known_code.
    + destruct (Options.downstream options); cbn [fst]; [discriminate|].
      unfold IndexJs.bufferResponseBody, IndexJs.onStreamEnd, IndexJs.onStreamError.
      destruct readable as [chunks|chunks reason]; [|discriminate].
      destruct (optional_startsWith _ _) as [json|e]; [|discriminate].
      destruct (is_true json); [destruct (JSON_parse _)|];
        intros H; inversion H; subst; known_code.
  - apply client_error_failure.
  - intros H. inversion H; subst. known_code.
  - intros H. inversion H; subst. known_code.
Qed.

(** An attempt of [src/index.js] is rejected with a [TypeError] or with
    one of the six codes. *)
Lemma resolve_failure http2Session options ev error :
  fst (IndexJs.resolve http2Session options ev) = Reject error ->
  Spec.attempt_failure error.
Proof.
  unfold IndexJs.resolve.
  destruct (IndexJs.prepare http2Session options) as [[[body headers] url]|e] eqn:Hprepare.
  - pose proof (on_event_failure options ev error) as Hevent.
    destruct http2Session as [session|].
    + unfold IndexJs.resolveHttp2Client.
      destruct (destroyed session); [cbn; intros H; inversion H; subst; known_code|].
      destruct (closed session); [cbn; intros H; inversion H; subst; known_code|].
      destruct (IndexJs.on_event options ev) as [settled io]. exact Hevent.
    + unfold IndexJs.resolveHttp1Client.
      destruct (Js.startsWith url "http:").
      * destruct (IndexJs.on_event options ev) as [settled io]. exact Hevent.
      * cbn. intros H. inversion H; subst. left. reflexivity.
  - cbn. intros H. inversion H; subst. left. eapply prepare_throws. exact Hprepare.
Qed.

Lemma resolveRetryLoopError_throws options errorTrace error thrown :
  IndexJs.resolveRetryLoopError options errorTrace error = Throw thrown ->
  thrown = error \/ thrown = TypeError.
Proof.
  unfold IndexJs.resolveRetryLoopError.
  repeat match goal with
         | |- context [if ?b then _ else _] => destruct b
         | |- context [match ?x with Some _ => _ | None => _ end] => destruct x
         end; intros H; inversion H; auto.
Qed.

Lemma retry_while_failure env options retry :
  forall attempt http2Session recorded done error,
    outcome (IndexJs.retry_while env options retry attempt http2Session recorded done)
    = Thrown error ->
    Spec.attempt_failure error.
Proof.
  induction retry as [|retry IH]; intros attempt http2Session recorded done error.
  - discriminate.
  - rewrite retry_while_S. cbv zeta.
    pose proof (resolve_failure (peer env attempt http2Session) options
                                (transport env attempt)) as Hfailure.
    destruct (IndexJs.resolve (peer env attempt http2Session) options (transport env attempt))
      as [[response | rejected | crashed] io1]; cbn [fst] in Hfailure.
    + match goal with |- context [if ?c then _ else _] => destruct c end;
        [apply IH|discriminate].
    + destruct (retry =? 0)%nat.
      * cbn [outcome]. intros H. inversion H; subst. apply Hfailure. reflexivity.
      * destruct (IndexJs.resolveRetryLoopError options recorded rejected)
          as [trace'|thrown] eqn:Hcl; [apply IH|].
        cbn [outcome]. intros H. inversion H; subst.
        destruct (resolveRetryLoopError_throws _ _ _ _ Hcl) as [->| ->];
          [apply Hfailure; reflexivity|left; reflexivity].
    + discriminate.
Qed.

(** Where the transport takes each request and answers it with one
    event, what a call of [src/index.js] throws is a failure of one of its
    attempts: a [TypeError], or an error with the code of a client error, a
    client timeout, an invalid response status or an invalid response body
    format, or with one of the two codes of [http2Session.request]. No call
    throws [E_HTTP_REQUEST_DOWNSTREAM_ERROR]. *)
Theorem thrown_failures_classified env http2Session options error :
  outcome (IndexJs.fetch env http2Session options) = Thrown error ->
  Spec.attempt_failure error
  /\ Error.has_code error E_HTTP_REQUEST_DOWNSTREAM_ERROR = false.
Proof.
  intros Hthrown.
  assert (Hfailure : Spec.attempt_failure error).
  { revert Hthrown. unfold IndexJs.fetch.
    destruct (Js.truthy (Options.retry options)).
    - apply retry_while_failure.
    - pose proof (resolve_failure (peer env 0%nat http2Session) options
                                  (transport env 0%nat)) as Hfailure.
      destruct (IndexJs.resolve (peer env 0%nat http2Session) options (transport env 0%nat))
        as [[response | rejected | crashed] io1]; cbn [fst outcome settled_outcome] in *;
        try discriminate.
      intros H. inversion H; subst. apply Hfailure. reflexivity. }
  split; [exact Hfailure|].
  apply attempt_failure_other; [exact Hfailure|].
  cbn. intros H. repeat (destruct H as [H|H]; [discriminate H|]). exact H.
Qed.

End AttemptFailures.

(** ** [retryOnDownstreamError] *)
Section DownstreamFlag.

Context {rt : Runtime}.

Lemma resolveRetryLoopError_flag value options errorTrace error :
  Error.has_code error E_HTTP_REQUEST_DOWNSTREAM_ERROR = false ->
  IndexJs.resolveRetryLoopError (Options.set_retryOnDownstreamError value options)
                                errorTrace error
  = IndexJs.resolveRetryLoopError options errorTrace error.
Proof.
  intros Hcode. unfold IndexJs.resolveRetryLoopError. rewrite Hcode. reflexivity.
Qed.

Lemma retry_while_flag env value options retry :
  forall attempt http2Session recorded done,
    IndexJs.retry_while env (Options.set_retryOnDownstreamError value options) retry
                        attempt http2Session recorded done
    = IndexJs.retry_while env options retry attempt http2Session recorded done.
Proof.
  induction retry as [|retry IH]; intros attempt http2Session recorded done;
    [reflexivity|].
  rewrite !retry_while_S. cbv zeta.
  change (IndexJs.resolve (peer env attempt http2Session)
                          (Options.set_retryOnDownstreamError value options)
                          (transport env attempt))
    with (IndexJs.resolve (peer env attempt http2Session) options (transport env attempt)).
  pose proof (resolve_failure (peer env attempt http2Session) options
                              (transport env attempt)) as Hfailure.
  destruct (IndexJs.resolve (peer env attempt http2Session) options (transport env attempt))
    as [[response | rejected | crashed] io1]; cbn [fst] in Hfailure.
  - change (Options.retryOnStatus (Options.set_retryOnDownstreamError value options))
      with (Options.retryOnStatus options).
    change (Options.retryOnErrorResponseStatus
              (Options.set_retryOnDownstreamError value options))
      with (Options.retryOnErrorResponseStatus options).
    rewrite IH. reflexivity.
  - rewrite resolveRetryLoopError_flag.
    + destruct (retry =? 0)%nat; [reflexivity|].
      destruct (IndexJs.resolveRetryLoopError options recorded rejected); [|reflexivity].
      rewrite IH. reflexivity.
    + apply attempt_failure_other; [apply Hfailure; reflexivity|].
      cbn. intros H. repeat (destruct H as [H|H]; [discriminate H|]). exact H.
  - reflexivity.
Qed.

(** The failures an attempt of [part_000] is rejected with: those of
    [src/index.js], or one of the two failures of the session. *)
Lemma part000_on_event_failure options ev error :
  fst (Part000.on_event options ev) = Reject error -> Spec.attempt_failure error.
Proof.
  destruct ev as [statusCode headers readable|reason| |]; cbn [Part000.on_event fst].
  - unfold Part000.resolveOnResponse.
    destruct (IndexJs.throws_on_status _ _); cbn [fst];
      [|destruct (Options.downstream options); cbn [fst]; [discriminate|]];
      unfold Part000.bufferResponseBody, Part000.onStreamEnd, IndexJs.onStreamError;
      (destruct readable as [chunks|chunks reason]; [|discriminate]);
      match goal with
      | |- context [match ?decoded with Normal _ => _ | Throw _ => _ end] =>
          destruct decoded
      end; intros H; inversion H; subst;
      eapply attempt_failure_code; try reflexivity; cbn; tauto.
  - apply client_error_failure.
  - intros H. inversion H; subst. eapply attempt_failure_code; [reflexivity|cbn; tauto].
  - intros H. inversion H; subst. eapply attempt_failure_code; [reflexivity|cbn; tauto].
Qed.

Lemma part000_resolve_not_downstream http2Session options ev error :
  fst (Part000.resolve http2Session options ev) = Reject error ->
  Error.has_code error E_HTTP_REQUEST_DOWNSTREAM_ERROR = false.
Proof.
  assert (Hother : forall e, Spec.attempt_failure e ->
                             Error.has_code e E_HTTP_REQUEST_DOWNSTREAM_ERROR = false).
  { intros e He. apply attempt_failure_other; [exact He|].
    cbn. intros H. repeat (destruct H as [H|H]; [discriminate H|]). exact H. }
  unfold Part000.resolve.
  destruct (Part000.prepare http2Session options) as [[[body headers] url]|e] eqn:Hprepare.
  - pose proof (part000_on_event_failure options ev error) as Hevent.
    destruct http2Session as [session|].
    + unfold Part000.resolveHttp2Client.
      destruct (Bool.eqb true (destroyed session));
        [cbn; intros H; inversion H; subst; reflexivity|].
      destruct (Bool.eqb true (closed session));
        [cbn; intros H; inversion H; subst; reflexivity|].
      destruct (Part000.on_event options ev) as [settled io]. cbn [fst] in *.
      intros H. apply Hother, Hevent, H.
    + unfold Part000.resolveHttp1Client.
      destruct (Part000.on_event options ev) as [settled io]. cbn [fst] in *.
      intros H. apply Hother, Hevent, H.
  - cbn. intros H. inversion H; subst.
    rewrite (part000_prepare_throws _ _ _ Hprepare). reflexivity.
Qed.

Lemma part000_resolveRetryLoopError_flag
      value options errorTrace http2Session reconnected error :
  Error.has_code error E_HTTP_REQUEST_DOWNSTREAM_ERROR = false ->
  Part000.resolveRetryLoopError (Options.set_retryOnDownstreamError value options)
                                errorTrace http2Session reconnected error
  = Part000.resolveRetryLoopError options errorTrace http2Session reconnected error.
Proof.
  intros Hcode. unfold Part000.resolveRetryLoopError. rewrite Hcode. reflexivity.
Qed.

Lemma part000_retry_while_flag env after value options retry :
  forall attempt http2Session recorded done,
    Part000.retry_while env after (Options.set_retryOnDownstreamError value options) retry
                        attempt http2Session recorded done
    = Part000.retry_while env after options retry attempt http2Session recorded done.
Proof.
  induction retry as [|retry IH]; intros attempt http2Session recorded done;
    [reflexivity|].
  rewrite !part000_retry_while_S. cbv zeta.
  change (Part000.resolve (peer env attempt http2Session)
                          (Options.set_retryOnDownstreamError value options)
                          (transport env attempt))
    with (Part000.resolve (peer env attempt http2Session) options (transport env attempt)).
  pose proof (part000_resolve_not_downstream (peer env attempt http2Session) options
                                             (transport env attempt)) as Hfailure.
  destruct (Part000.resolve (peer env attempt http2Session) options (transport env attempt))
    as [[response | rejected | crashed] io1]; cbn [fst] in Hfailure.
  - change (Options.retryOnStatus (Options.set_retryOnDownstreamError value options))
      with (Options.retryOnStatus options).
    change (Options.retryOnErrorResponseStatus
              (Options.set_retryOnDownstreamError value options))
      with (Options.retryOnErrorResponseStatus options).
    rewrite IH. reflexivity.
  - rewrite part000_resolveRetryLoopError_flag by (apply Hfailure; reflexivity).
    destruct (retry =? 0)%nat; [reflexivity|].
    destruct (Part000.resolveRetryLoopError options recorded
                                            (peer env attempt http2Session)
                                            (reconnect env attempt) rejected)
      as [[[[trace' session']|thrown]|] io2]; [|reflexivity|reflexivity].
    change (Options.retryDelay (Options.set_retryOnDownstreamError value options))
      with (Options.retryDelay options).
    rewrite IH. reflexivity.
  - reflexivity.
Qed.

(** [retryOnDownstreamError] has no effect: no attempt is ever rejected
    with [E_HTTP_REQUEST_DOWNSTREAM_ERROR], so that a call runs the same,
    attempt by attempt, whatever the option is, in [src/index.js] and in
    [part_000]. *)
Theorem retryOnDownstreamError_has_no_effect env http2Session options value :
  IndexJs.fetch env http2Session (Options.set_retryOnDownstreamError value options)
  = IndexJs.fetch env http2Session options
  /\ Part000.fetch env http2Session (Options.set_retryOnDownstreamError value options)
     = Part000.fetch env http2Session options.
Proof.
  split.
  - unfold IndexJs.fetch, IndexJs.resolveRetryLoop.
    change (Options.retry (Options.set_retryOnDownstreamError value options))
      with (Options.retry options).
    change (IndexJs.retry_budget (Options.set_retryOnDownstreamError value options))
      with (IndexJs.retry_budget options).
    rewrite retry_while_flag. reflexivity.
  - unfold Part000.fetch, Part000.resolveRetryLoop.
    change (Options.retry (Options.set_retryOnDownstreamError value options))
      with (Options.retry options).
    change (Part000.retry_budget (Options.set_retryOnDownstreamError value options))
      with (Part000.retry_budget options).
    rewrite part000_retry_while_flag. reflexivity.
Qed.

End DownstreamFlag.

(** ** The headers and the body of the request that goes out *)
Section Framing.

Context {rt : Runtime}.

Lemma get_absent {V : Type} (o : JsObject.t V) k :
  ~ In k (JsObject.keys o) -> JsObject.get o k = None.
Proof.
  intros Hin. destruct (JsObject.get o k) eqn:Hget; [|reflexivity].
  exfalso. apply Hin. apply has_keys. unfold JsObject.has. rewrite Hget. reflexivity.
Qed.

(** Reading after [delete], in an object that holds a key once. *)
Lemma get_delete {V : Type} (o : JsObject.t V) k k' :
  NoDup (JsObject.keys o) ->
  JsObject.get (JsObject.delete o k) k'
  = if String.eqb k k' then None else JsObject.get o k'.
Proof.
  induction o as [|[k0 v0] o IH]; cbn [JsObject.delete JsObject.get JsObject.keys map fst];
    intros Hnd.
  - destruct (String.eqb k k'); reflexivity.
  - inversion Hnd as [|? ? Hk0 Hnd']; subst.
    destruct (String.eqb k0 k) eqn:E0.
    + apply String.eqb_eq in E0. subst k0.
      destruct (String.eqb k k') eqn:E.
      * apply String.eqb_eq in E. subst k'. apply get_absent. exact Hk0.
      * reflexivity.
    + cbn [JsObject.get]. rewrite (IH Hnd').
      destruct (String.eqb k0 k') eqn:E1; [|reflexivity].
      apply String.eqb_eq in E1. subst k'. rewrite String.eqb_sym, E0. reflexivity.
Qed.

Lemma well_formed_assign {V : Type} (src : JsObject.t V) :
  forall o, JsObject.well_formed o -> JsObject.well_formed (JsObject.assign o src).
Proof.
  unfold JsObject.assign.
  induction src as [|[k v] src IH]; intros o Hwf; cbn [fold_left fst snd]; [exact Hwf|].
  apply IH, well_formed_set, Hwf.
Qed.

Lemma normalizeHeaders_well_formed headers :
  JsObject.well_formed (IndexJs.normalizeHeaders headers).
Proof. apply normalize_well_formed. split; constructor. Qed.

(** An attempt of [src/index.js] without a session, once the options
    have given a body, headers and a URL: the request, the body and what
    the event of the transport leads to for an [http:] URL, and the
    [TypeError] of [http.request] for any other. *)
Lemma resolve_http1_io options body headers url ev :
  IndexJs.prepare None options = Normal (body, headers, url) ->
  IndexJs.resolve None options ev
  = if Js.startsWith url "http:"
    then (fst (IndexJs.on_event options ev),
          Http1Request false (Options.method options) url headers
            :: match Options.upstream options with
               | Some chunks => PipeUpstream chunks
               | None => EndBody body
               end
            :: snd (IndexJs.on_event options ev))
    else (Reject TypeError, [Http1Request false (Options.method options) url headers]).
Proof.
  intros Hprepare. unfold IndexJs.resolve. rewrite Hprepare.
  unfold IndexJs.resolveHttp1Client.
  destruct (Js.startsWith url "http:"); [|reflexivity].
  destruct (IndexJs.on_event options ev) as [settled io].
  cbn [fst snd IndexJs.send_body]. destruct (Options.upstream options); reflexivity.
Qed.

(** Without a session, [src/index.js] hands every URL to [http.request].
    For an [http:] URL the request goes out with the body, and the event
    of the transport settles the attempt; any other URL, an [https:] one
    included, is refused by [http.request], whose [TypeError] rejects the
    attempt while no body is written and nothing is piped. The class sets
    the framing header itself. Without an [upstream] the body is a text, it
    goes out as it is, and [content-length] is its [length], whatever
    [content-length] the caller gave; with an [upstream] the chunks are
    piped, [transfer-encoding] is [chunked], and a [content-length] of the
    caller stays beside it. Every other header is the caller's, under its
    key in lower case. *)
Theorem framing_header_replaces_the_callers options body headers url :
  IndexJs.prepare None options = Normal (body, headers, url) ->
  (forall ev,
      IndexJs.resolve None options ev
      = if Js.startsWith url "http:"
        then (fst (IndexJs.on_event options ev),
              Http1Request false (Options.method options) url headers
                :: match Options.upstream options with
                   | Some chunks => PipeUpstream chunks
                   | None => EndBody body
                   end
                :: snd (IndexJs.on_event options ev))
        else (Reject TypeError,
              [Http1Request false (Options.method options) url headers]))
  /\ (Options.upstream options = None ->
      exists text,
        body = Some text
        /\ JsObject.get headers "content-length" = Some (HNum (Js.length text))
        /\ forall k, k <> "content-length" ->
                     JsObject.get headers k
                     = JsObject.get (IndexJs.normalizeHeaders (Options.headers options)) k)
  /\ (Options.upstream options <> None ->
      JsObject.get headers "transfer-encoding" = Some (HStr "chunked")
      /\ forall k, k <> "transfer-encoding" ->
                   JsObject.get headers k
                   = JsObject.get (IndexJs.normalizeHeaders (Options.headers options)) k).
Proof.
  intros Hprepare. split; [intros ev; apply resolve_http1_io; exact Hprepare|].
  unfold IndexJs.prepare in Hprepare.
  destruct (IndexJs.normalizeBody _ _) as [body'|e]; cbn [bind] in Hprepare; [|discriminate].
  unfold IndexJs.createBodyHeaderDelimiter in Hprepare.
  destruct (Options.upstream options) as [chunks|]; cbn [orb bind] in Hprepare.
  - destruct (IndexJs.normalizeUrl _ _) as [url'|e]; cbn [bind] in Hprepare; [|discriminate].
    inversion Hprepare; subst. split; [discriminate|]. intros _.
    unfold JsObject.assign. cbn [fold_left fst snd]. split.
    + rewrite get_set, String.eqb_refl. reflexivity.
    + intros k Hk. rewrite get_set.
      destruct (String.eqb "transfer-encoding" k) eqn:E; [|reflexivity].
      apply String.eqb_eq in E. congruence.
  - destruct body' as [text|]; cbn [bind] in Hprepare; [|discriminate].
    destruct (IndexJs.normalizeUrl _ _) as [url'|e]; cbn [bind] in Hprepare; [|discriminate].
    inversion Hprepare; subst. split; [|congruence]. intros _.
    exists text. split; [reflexivity|].
    unfold JsObject.assign. cbn [fold_left fst snd]. split.
    + rewrite get_set, String.eqb_refl. reflexivity.
    + intros k Hk. rewrite get_set.
      destruct (String.eqb "content-length" k) eqn:E; [|reflexivity].
      apply String.eqb_eq in E. congruence.
Qed.

(** Whatever is written to it, the request comes first. *)
Lemma send_body_request options writable body request rest :
  exists sent,
    IndexJs.send_body options (Some writable) body (request :: rest) = request :: sent.
Proof.
  cbn [IndexJs.send_body].
  destruct (Options.upstream options); [|destruct writable]; eexists; reflexivity.
Qed.

Lemma http2_headers normalized k :
  JsObject.well_formed normalized ->
  JsObject.get (JsObject.delete (JsObject.assign normalized
                                                 [("transfer-encoding", HStr "chunked")])
                                "transfer-encoding") k
  = if String.eqb "transfer-encoding" k then None else JsObject.get normalized k.
Proof.
  intros Hwf. rewrite get_delete.
  - unfold JsObject.assign. cbn [fold_left fst snd]. rewrite get_set.
    destruct (String.eqb "transfer-encoding" k); reflexivity.
  - apply (well_formed_assign [("transfer-encoding", HStr "chunked")]) in Hwf.
    exact (proj1 Hwf).
Qed.

(** Over a live HTTP/2 session the headers of the request are the
    caller's, under their keys in lower case, without [transfer-encoding]:
    the class adds no framing header, so that a [content-length] is sent
    only when the caller gave one. The same holds in [part_000]. *)
Theorem http2_request_has_the_callers_headers http2Session options ev :
  destroyed http2Session = false -> closed http2Session = false ->
  (forall prepared,
      IndexJs.prepare (Some http2Session) options = Normal prepared ->
      exists sent rest,
        snd (IndexJs.resolve (Some http2Session) options ev)
        = Http2Request (Options.method options) (URL_path (snd prepared)) sent :: rest
        /\ forall k,
            JsObject.get sent k
            = if String.eqb "transfer-encoding" k then None
              else JsObject.get (IndexJs.normalizeHeaders (Options.headers options)) k)
  /\ (forall prepared,
         Part000.prepare (Some http2Session) options = Normal prepared ->
         exists sent rest,
           snd (Part000.resolve (Some http2Session) options ev)
           = Http2Request (Options.method options) (URL_path (snd prepared)) sent :: rest
           /\ forall k,
               JsObject.get sent k
               = if String.eqb "transfer-encoding" k then None
                 else JsObject.get (IndexJs.normalizeHeaders (Options.headers options)) k).
Proof.
  intros Hdestroyed Hclosed. split; intros [[body headers] url] Hprepare.
  - unfold IndexJs.resolve. rewrite Hprepare. unfold IndexJs.resolveHttp2Client.
    rewrite Hdestroyed, Hclosed.
    destruct (IndexJs.on_event options ev) as [settled io]. cbn [snd].
    destruct (send_body_request
                options (IndexJs.http2_writable (Options.method options)) body
                (Http2Request (Options.method options) (URL_path url)
                              (JsObject.delete headers "transfer-encoding")) io)
      as [rest Hrest].
    rewrite Hrest. eexists. exists rest. split; [reflexivity|].
    intros k. unfold IndexJs.prepare in Hprepare.
    destruct (IndexJs.normalizeBody _ _) as [body'|e]; cbn [bind] in Hprepare;
      [|discriminate].
    unfold IndexJs.createBodyHeaderDelimiter in Hprepare.
    rewrite orb_true_r in Hprepare. cbn [bind] in Hprepare.
    destruct (IndexJs.normalizeUrl _ _) as [url'|e]; cbn [bind] in Hprepare; [|discriminate].
    inversion Hprepare; subst. apply http2_headers, normalizeHeaders_well_formed.
  - unfold Part000.resolve. rewrite Hprepare. unfold Part000.resolveHttp2Client.
    rewrite Hdestroyed, Hclosed. cbn [Bool.eqb].
    destruct (Part000.on_event options ev) as [settled io]. cbn [snd].
    destruct (send_body_request
                options (IndexJs.http2_writable (Options.method options)) body
                (Http2Request (Options.method options) (URL_path url)
                              (JsObject.delete headers "transfer-encoding")) io)
      as [rest Hrest].
    rewrite Hrest. eexists. exists rest. split; [reflexivity|].
    intros k. unfold Part000.prepare in Hprepare.
    destruct (IndexJs.normalizeBody _ _) as [body'|e]; cbn [bind] in Hprepare;
      [|discriminate].
    unfold Part000.createBodyHeaderDelimiter in Hprepare.
    rewrite orb_true_r in Hprepare.
    destruct (IndexJs.normalizeUrl _ _) as [url'|e]; cbn [bind] in Hprepare; [|discriminate].
    inversion Hprepare; subst. apply http2_headers, normalizeHeaders_well_formed.
Qed.

(** A request that declares JSON and has no body. In [src/index.js]
    [JSON.stringify(undefined)] gives no text, its [length] throws, and the
    attempt is rejected with that [TypeError] before a request exists; the
    loop does not retry it. [part_000] sends the request with a
    [content-length] of [0] and ends it without a body. *)
Theorem json_request_without_body env options contentType :
  JSON_stringify VUndefined = None ->
  nullish (Options.body options) (Options.data options) = VUndefined ->
  JsObject.get (IndexJs.normalizeHeaders (Options.headers options)) "content-type"
  = Some (HStr contentType) ->
  Js.startsWith contentType "application/json" = true ->
  Options.upstream options = None ->
  (forall ev, IndexJs.resolve None options ev = (Reject TypeError, []))
  /\ (peer env 0%nat None = None ->
      Js.truthy (Options.retry options) = false \/ 1 <= IndexJs.retry_budget options ->
      IndexJs.fetch env None options = mkRun (Thrown TypeError) 1 [] [])
  /\ (forall url ev,
         IndexJs.normalizeUrl (Options.url options) (Options.base options) = Normal url ->
         exists sent rest,
           snd (Part000.resolve None options ev)
           = Http1Request (Js.startsWith url "https:") (Options.method options) url sent
               :: EndBody None :: rest
           /\ JsObject.get sent "content-length" = Some (HNum 0)).
Proof.
  intros Hstringify Hbody Htype Hjson Hupstream.
  assert (Hnormalize :
            IndexJs.normalizeBody (nullish (Options.body options) (Options.data options))
                                  (JsObject.get (IndexJs.normalizeHeaders
                                                   (Options.headers options))
                                                "content-type")
            = Normal None).
  { rewrite Hbody, Htype. unfold IndexJs.normalizeBody. cbn [optional_startsWith bind].
    rewrite Hjson. cbn [is_true]. rewrite Hstringify. reflexivity. }
  assert (Hresolve : forall ev, IndexJs.resolve None options ev = (Reject TypeError, [])).
  { intros ev. unfold IndexJs.resolve, IndexJs.prepare.
    rewrite Hnormalize, Hupstream. reflexivity. }
  split; [exact Hresolve|split].
  - intros Hpeer Hbudget. unfold IndexJs.fetch.
    destruct (Js.truthy (Options.retry options)) eqn:Htruthy.
    + destruct Hbudget as [Hfalse|Hbudget]; [discriminate|].
      unfold IndexJs.resolveRetryLoop.
      destruct (Z.to_nat (IndexJs.retry_budget options)) as [|retry] eqn:Hretry; [lia|].
      rewrite retry_while_S. cbv zeta. rewrite Hpeer, Hresolve.
      destruct (retry =? 0)%nat; reflexivity.
    + rewrite Hpeer, Hresolve. reflexivity.
  - intros url ev Hurl. unfold Part000.resolve, Part000.prepare.
    rewrite Hnormalize, Hupstream, Hurl. cbn [bind orb].
    unfold Part000.resolveHttp1Client.
    destruct (Part000.on_event options ev) as [settled io].
    cbn [snd IndexJs.send_body]. rewrite Hupstream.
    eexists. eexists. split; [reflexivity|].
    unfold Part000.createBodyHeaderDelimiter, JsObject.assign. cbn [fold_left fst snd].
    rewrite get_set, String.eqb_refl. reflexivity.
Qed.

End Framing.

(** ** The encoding of the body of a request *)
Section BodyEncoding.

Context {rt : Runtime}.

Lemma normalizeBody_text text contentType :
  IndexJs.normalizeBody (VStr text) contentType = Normal (Some text).
Proof. reflexivity. Qed.

Lemma normalizeBody_other given contentType :
  (forall text, given <> VStr text) ->
  IndexJs.normalizeBody given contentType
  = let* json := optional_startsWith contentType "application/json" in
    if is_true json
    then Normal (JSON_stringify given)
    else Normal (Some (querystring_stringify given)).
Proof.
  intros Hother. destruct given; try reflexivity. exfalso. eapply Hother. reflexivity.
Qed.

Lemma prepare_body http2Session options body headers url :
  IndexJs.prepare http2Session options = Normal (body, headers, url) ->
  IndexJs.normalizeBody
    (nullish (Options.body options) (Options.data options))
    (JsObject.get (IndexJs.normalizeHeaders (Options.headers options)) "content-type")
  = Normal body.
Proof.
  unfold IndexJs.prepare. destruct (IndexJs.normalizeBody _ _) as [body'|e]; cbn [bind];
    [|discriminate].
  destruct (IndexJs.createBodyHeaderDelimiter _ _); cbn [bind]; [|discriminate].
  destruct (IndexJs.normalizeUrl _ _); cbn [bind]; [|discriminate].
  intros H. inversion H. reflexivity.
Qed.

(** How [#resolve] encodes the body. A text goes out as it is, whatever
    the request declares. Any other value is encoded by [JSON.stringify]
    when the last header whose key is [content-type], in whatever letter
    case, has a text that starts with [application/json], in lower case,
    and by [querystring.stringify] when that header has another text or
    there is no such header. *)
Theorem request_body_encoding http2Session options body headers url :
  IndexJs.prepare http2Session options = Normal (body, headers, url) ->
  (forall text,
      nullish (Options.body options) (Options.data options) = VStr text ->
      body = Some text)
  /\ ((forall text, nullish (Options.body options) (Options.data options) <> VStr text) ->
      (forall before key contentType after,
          Options.headers options = before ++ (key, HStr contentType) :: after ->
          Js.toLowerCase key = "content-type" ->
          (forall k, In k (JsObject.keys after) -> Js.toLowerCase k <> "content-type") ->
          body = if Js.startsWith contentType "application/json"
                 then JSON_stringify (nullish (Options.body options) (Options.data options))
                 else Some (querystring_stringify
                              (nullish (Options.body options) (Options.data options))))
      /\ ((forall k, In k (JsObject.keys (Options.headers options)) ->
                     Js.toLowerCase k <> "content-type") ->
          body = Some (querystring_stringify
                         (nullish (Options.body options) (Options.data options))))).
Proof.
  intros Hprepare. apply prepare_body in Hprepare. split.
  - intros text Htext. rewrite Htext, normalizeBody_text in Hprepare.
    inversion Hprepare. reflexivity.
  - intros Hother. rewrite (normalizeBody_other _ _ Hother) in Hprepare. split.
    + intros before key contentType after Hheaders Hkey Hafter.
      assert (Hget : JsObject.get (IndexJs.normalizeHeaders (Options.headers options))
                                  "content-type"
                     = Some (HStr contentType)).
      { rewrite Hheaders. unfold IndexJs.normalizeHeaders.
        rewrite fold_left_app. cbn [fold_left].
        rewrite normalize_get_other by exact Hafter.
        unfold IndexJs.lower_set. cbn [fst snd].
        rewrite get_set, Hkey, String.eqb_refl. reflexivity. }
      rewrite Hget in Hprepare. cbn [optional_startsWith bind] in Hprepare.
      destruct (Js.startsWith contentType "application/json"); cbn [is_true] in Hprepare;
        inversion Hprepare; reflexivity.
    + intros Hnone.
      assert (Hget : JsObject.get (IndexJs.normalizeHeaders (Options.headers options))
                                  "content-type"
                     = None).
      { unfold IndexJs.normalizeHeaders. rewrite normalize_get_other by exact Hnone.
        reflexivity. }
      rewrite Hget in Hprepare. cbn [optional_startsWith bind is_true] in Hprepare.
      inversion Hprepare. reflexivity.
Qed.

End BodyEncoding.

(** ** A call as a whole: its result, its delays and its requests *)
Section Calls.

Context {rt : Runtime}.
Variable env : Environment.

(** A loop that starts with a positive [retry] ends in its body. *)
Lemma retry_while_defined options retry :
  forall attempt http2Session recorded done,
    (1 <= retry)%nat ->
    outcome (IndexJs.retry_while env options retry attempt http2Session recorded done)
    <> ReturnedUndefined.
Proof.
  induction retry as [|retry IH]; intros attempt http2Session recorded done Hretry; [lia|].
  rewrite retry_while_S. cbv zeta.
  destruct (IndexJs.resolve (peer env attempt http2Session) options (transport env attempt))
    as [[response | rejected | crashed] io1]; [| |discriminate].
  - destruct retry as [|retry].
    + cbn [Nat.ltb Nat.leb]. rewrite andb_false_r. discriminate.
    + match goal with |- context [if ?c then _ else _] => destruct c end;
        [apply IH; lia|discriminate].
  - destruct retry as [|retry]; [discriminate|]. cbn [Nat.eqb].
    destruct (IndexJs.resolveRetryLoopError options recorded rejected);
      [apply IH; lia|discriminate].
Qed.

Lemma floor_zero (x : Q) : Qfloor x = 0 <-> (0 <= x /\ x < 1)%Q.
Proof.
  split.
  - intros Hfloor. pose proof (Qfloor_le x) as Hle. pose proof (Qlt_floor x) as Hlt.
    rewrite Hfloor in Hle, Hlt. split; [exact Hle|exact Hlt].
  - intros [Hle Hlt].
    assert (0 <= Qfloor x).
    { change 0 with (Qfloor 0). apply Qfloor_resp_le. exact Hle. }
    assert (Qfloor x < 1).
    { rewrite Zlt_Qlt. eapply Qle_lt_trans; [apply Qfloor_le|exact Hlt]. }
    lia.
Qed.

Lemma truthy_nonzero (x : Q) : Js.truthy x = true <-> ~ (x == 0)%Q.
Proof.
  unfold Js.truthy. rewrite negb_true_iff. split.
  - intros H Heq. apply Qeq_bool_iff in Heq. congruence.
  - intros H. destruct (Qeq_bool x 0) eqn:E; [|reflexivity].
    apply Qeq_bool_iff in E. contradiction.
Qed.

(** A call of [src/index.js] resolves with [undefined] exactly when
    [retry] is a fraction above zero and below one; it then makes no attempt
    and sends nothing. *)
Theorem undefined_result_iff_fraction http2Session options :
  (outcome (IndexJs.fetch env http2Session options) = ReturnedUndefined
   <-> (0 < Options.retry options /\ Options.retry options < 1)%Q)
  /\ (outcome (IndexJs.fetch env http2Session options) = ReturnedUndefined ->
      attempts (IndexJs.fetch env http2Session options) = 0%nat
      /\ io (IndexJs.fetch env http2Session options) = []).
Proof.
  unfold IndexJs.fetch.
  destruct (Js.truthy (Options.retry options)) eqn:Htruthy.
  - unfold IndexJs.resolveRetryLoop, IndexJs.retry_budget, Js.Math_abs, Js.Math_floor.
    apply truthy_nonzero in Htruthy.
    destruct (Z.to_nat (Z.abs (Qfloor (Options.retry options)))) as [|retry] eqn:Hbudget.
    + assert (Hfloor : Qfloor (Options.retry options) = 0) by lia.
      apply floor_zero in Hfloor. destruct Hfloor as [Hle Hlt].
      split; [|intros _; split; reflexivity].
      split; [intros _|reflexivity]. split; [|exact Hlt].
      apply Qle_lt_or_eq in Hle. destruct Hle as [Hpos|Heq]; [exact Hpos|].
      exfalso. apply Htruthy. symmetry. exact Heq.
    + assert (Hdefined :
                outcome (IndexJs.retry_while env options (S retry) 0 http2Session [] [])
                <> ReturnedUndefined) by (apply retry_while_defined; lia).
      split; [|intros H; contradiction].
      split; [intros H; contradiction|].
      intros [Hpos Hlt].
      assert (Hfloor : Qfloor (Options.retry options) = 0).
      { apply floor_zero. split; [apply Qlt_le_weak; exact Hpos|exact Hlt]. }
      rewrite Hfloor in Hbudget. discriminate Hbudget.
  - destruct (IndexJs.resolve (peer env 0%nat http2Session) options (transport env 0%nat))
      as [[response | rejected | crashed] io1]; cbn [outcome settled_outcome].
    all: split; [|discriminate].
    all: split; [discriminate|].
    all: intros [Hpos _]; exfalso.
    all: unfold Js.truthy in Htruthy; apply negb_false_iff, Qeq_bool_iff in Htruthy.
    all: rewrite Htruthy in Hpos; apply (Qlt_irrefl 0); exact Hpos.
Qed.



Lemma requests_app io1 io2 :
  Spec.requests (io1 ++ io2) = (Spec.requests io1 + Spec.requests io2)%nat.
Proof. unfold Spec.requests. rewrite filter_app, length_app. reflexivity. Qed.

Lemma on_event_no_request options ev : Spec.requests (snd (IndexJs.on_event options ev)) = 0%nat.
Proof.
  destruct ev; cbn; try reflexivity. unfold IndexJs.resolveOnResponse.
  destruct (IndexJs.throws_on_status _ _); [reflexivity|].
  destruct (Options.downstream options); reflexivity.
Qed.

(** An attempt hands at most one request to the transport, and exactly
    one over HTTP/1.1 once its options gave a body, headers and a URL. *)
Lemma resolve_requests http2Session options ev :
  (Spec.requests (snd (IndexJs.resolve http2Session options ev)) <= 1)%nat
  /\ (http2Session = None ->
      (exists prepared, IndexJs.prepare None options = Normal prepared) ->
      Spec.requests (snd (IndexJs.resolve http2Session options ev)) = 1%nat).
Proof.
  pose proof (on_event_no_request options ev) as Hevent.
  unfold IndexJs.resolve.
  destruct http2Session as [session|].
  - split; [|discriminate].
    destruct (IndexJs.prepare (Some session) options) as [[[body headers] url]|e];
      [|cbn; lia].
    unfold IndexJs.resolveHttp2Client.
    destruct (destroyed session); [cbn; lia|]. destruct (closed session); [cbn; lia|].
    destruct (IndexJs.on_event options ev) as [settled io1]. cbn [snd] in *.
    cbn [IndexJs.send_body]. unfold Spec.requests in *.
    destruct (Options.upstream options);
      [|destruct (IndexJs.http2_writable (Options.method options))];
      cbn [filter Spec.is_request List.length]; rewrite Hevent; lia.
  - destruct (IndexJs.prepare None options) as [[[body headers] url]|e].
    + unfold IndexJs.resolveHttp1Client.
      destruct (Js.startsWith url "http:"); [|cbn; split; [lia|reflexivity]].
      destruct (IndexJs.on_event options ev) as [settled io1]. cbn [snd] in *.
      cbn [IndexJs.send_body]. unfold Spec.requests in *.
      destruct (Options.upstream options); cbn [filter Spec.is_request List.length];
        rewrite Hevent; split; [lia|reflexivity|lia|reflexivity].
    + split; [cbn; lia|]. intros _ [prepared H]. discriminate H.
Qed.

Lemma retry_while_requests options retry :
  forall attempt http2Session recorded done,
    let run := IndexJs.retry_while env options retry attempt http2Session recorded done in
    (Spec.requests (io run) + attempt <= Spec.requests done + attempts run)%nat
    /\ (http2Session = None ->
        (forall k, peer env k None = None) ->
        (exists prepared, IndexJs.prepare None options = Normal prepared) ->
        (Spec.requests (io run) + attempt = Spec.requests done + attempts run)%nat).
Proof.
  induction retry as [|retry IH]; intros attempt http2Session recorded done.
  - cbn [IndexJs.retry_while io attempts]. split; [lia|intros; lia].
  - cbv zeta. rewrite retry_while_S. cbv zeta.
    destruct (resolve_requests (peer env attempt http2Session) options
                               (transport env attempt)) as [Hone Hexact].
    destruct (IndexJs.resolve (peer env attempt http2Session) options (transport env attempt))
      as [settled io1]; cbn [snd] in Hone, Hexact.
    assert (Hstop : forall o trace',
               let run := mkRun o (S attempt) trace' (done ++ io1) in
               (Spec.requests (io run) + attempt <= Spec.requests done + attempts run)%nat
               /\ (http2Session = None ->
                   (forall k, peer env k None = None) ->
                   (exists prepared, IndexJs.prepare None options = Normal prepared) ->
                   (Spec.requests (io run) + attempt
                    = Spec.requests done + attempts run)%nat)).
    { intros o trace'. cbn [io attempts]. rewrite requests_app. split; [lia|].
      intros -> Hpeer Hprepared. rewrite Hpeer in Hexact.
      rewrite Hexact by (reflexivity || exact Hprepared). lia. }
    assert (Hnext : forall trace' delay,
               let run := IndexJs.retry_while env options retry (S attempt)
                                              (peer env attempt http2Session) trace'
                                              ((done ++ io1) ++ delay) in
               Spec.requests delay = 0%nat ->
               (Spec.requests (io run) + attempt <= Spec.requests done + attempts run)%nat
               /\ (http2Session = None ->
                   (forall k, peer env k None = None) ->
                   (exists prepared, IndexJs.prepare None options = Normal prepared) ->
                   (Spec.requests (io run) + attempt
                    = Spec.requests done + attempts run)%nat)).
    { intros trace' delay. cbv zeta. intros Hdelay.
      destruct (IH (S attempt) (peer env attempt http2Session) trace'
                   ((done ++ io1) ++ delay)) as [Hle Heq].
      cbv zeta in Hle, Heq. rewrite !requests_app, Hdelay in Hle, Heq.
      split; [lia|].
      intros -> Hpeer Hprepared. rewrite Hpeer in Hexact, Heq.
      rewrite Hexact in Heq by (reflexivity || exact Hprepared).
      specialize (Heq eq_refl Hpeer Hprepared). rewrite Hpeer. lia. }
    destruct settled as [response | rejected | crashed]; [| |apply Hstop].
    + match goal with |- context [if ?c then _ else _] => destruct c end; [|apply Hstop].
      specialize (Hnext recorded [] eq_refl). rewrite app_nil_r in Hnext. exact Hnext.
    + destruct (retry =? 0)%nat; [apply Hstop|].
      destruct (IndexJs.resolveRetryLoopError options recorded rejected) as [trace'|thrown];
        [|apply Hstop].
      apply Hnext. reflexivity.
Qed.

(** A call of [#resolveRetryLoop] in [src/index.js] hands at most one
    request to the transport for each attempt; over HTTP/1.1, once the
    options give a body, headers and a URL, it hands over exactly one for
    each attempt. *)
Theorem requests_count_attempts http2Session options :
  (Spec.requests (io (IndexJs.resolveRetryLoop env http2Session options))
   <= attempts (IndexJs.resolveRetryLoop env http2Session options))%nat
  /\ (http2Session = None ->
      (forall k, peer env k None = None) ->
      (exists prepared, IndexJs.prepare None options = Normal prepared) ->
      Spec.requests (io (IndexJs.resolveRetryLoop env http2Session options))
      = attempts (IndexJs.resolveRetryLoop env http2Session options)).
Proof.
  unfold IndexJs.resolveRetryLoop.
  destruct (retry_while_requests options (Z.to_nat (IndexJs.retry_budget options))
                                 0%nat http2Session [] []) as [Hle Heq].
  cbv zeta in Hle, Heq. change (Spec.requests []) with 0%nat in Hle, Heq.
  split; [lia|].
  intros Hsession Hpeer Hprepared. specialize (Heq Hsession Hpeer Hprepared). lia.
Qed.

End Calls.

(** ** Failures of the session in [part_000], and where a response body goes *)
Section Recovery.

Context {rt : Runtime}.

(** While attempts remain, [part_000] answers a failure of the session
    with [reconnect()], whatever the retry options are. On a session that
    is closed, [reconnect()] settles: when it succeeds the failure is
    recorded, the delay follows, and the next attempt runs on the new
    session; when it fails the reason of that failure is thrown as it is,
    and no delay follows. On a session that is destroyed and not closed
    the [close()] that [reconnect()] starts with never settles,
    [http2Session.close] returning at once without its callback: the call
    never settles, it makes no further attempt and throws nothing. *)
Theorem session_failure_reconnects
        env after options retry attempt http2Session session recorded done prepared :
  peer env attempt http2Session = Some session ->
  destroyed session = true \/ closed session = true ->
  Part000.prepare (Some session) options = Normal prepared ->
  exists error,
    Error.code error
    = Some (if destroyed session
            then E_HTTP_REQUEST_HTTP2_SESSION_DESTROYED
            else E_HTTP_REQUEST_HTTP2_SESSION_CLOSED)
    /\ Part000.retry_while env after options (S (S retry)) attempt http2Session recorded done
       = if closed session
         then match reconnect env attempt with
              | Some reason =>
                  mkRun (Thrown reason) (S attempt) recorded (done ++ [Reconnect])
              | None =>
                  Part000.retry_while env after options (S retry) (S attempt)
                                      (Some (mkSession false false)) (recorded ++ [error])
                                      (done ++ [Reconnect; Wait (Options.retryDelay options)])
              end
         else mkRun NeverSettles (S attempt) recorded (done ++ [Reconnect]).
Proof.
  intros Hpeer Hdead Hprepare. destruct prepared as [[body headers] url].
  rewrite part000_retry_while_S. cbv zeta. rewrite Hpeer.
  unfold Part000.resolve. rewrite Hprepare. unfold Part000.resolveHttp2Client.
  destruct session as [isDestroyed isClosed]. cbn [destroyed closed] in *.
  destruct isDestroyed; cbn [Bool.eqb].
  - eexists. split; cycle 1.
    + cbn [IndexJs.send_body Nat.eqb].
      unfold Part000.resolveRetryLoopError.
      replace (Error.has_code _ E_HTTP_REQUEST_CLIENT_ERROR) with false by reflexivity.
      replace (Error.has_code _ E_HTTP_REQUEST_HTTP2_SESSION_DESTROYED) with true
        by reflexivity.
      cbn [orb]. rewrite app_nil_r.
      unfold Part000.reconnecting, Part000.close_session. cbn [closed destroyed].
      destruct isClosed; cbn [Bool.eqb]; [|reflexivity].
      destruct (reconnect env attempt); reflexivity.
    + reflexivity.
  - destruct Hdead as [Hdead|Hclosed]; [discriminate|]. subst isClosed. cbn [Bool.eqb].
    eexists. split; cycle 1.
    + cbn [IndexJs.send_body Nat.eqb].
      unfold Part000.resolveRetryLoopError.
      replace (Error.has_code _ E_HTTP_REQUEST_CLIENT_ERROR) with false by reflexivity.
      replace (Error.has_code _ E_HTTP_REQUEST_HTTP2_SESSION_DESTROYED) with false
        by reflexivity.
      replace (Error.has_code _ E_HTTP_REQUEST_HTTP2_SESSION_CLOSED) with true
        by reflexivity.
      cbn [orb]. rewrite app_nil_r.
      unfold Part000.reconnecting, Part000.close_session. cbn [closed destroyed Bool.eqb].
      destruct (reconnect env attempt); reflexivity.
    + reflexivity.
Qed.

(** In [src/index.js] a session that is destroyed or closed ends the
    call: [http2Session.request] throws, the attempt is rejected with that
    error, and the loop throws it again at once, without a reconnect, a
    further attempt or a delay, whatever the retry options are. *)
Theorem dead_session_ends_the_call
        env options retry attempt http2Session session recorded done prepared :
  peer env attempt http2Session = Some session ->
  destroyed session = true \/ closed session = true ->
  IndexJs.prepare (Some session) options = Normal prepared ->
  IndexJs.retry_while env options (S retry) attempt http2Session recorded done
  = mkRun (Thrown (MkError "Error"
                           (Some (if destroyed session
                                  then "ERR_HTTP2_INVALID_SESSION"
                                  else "ERR_HTTP2_GOAWAY_SESSION"))
                           None NoCause))
          (S attempt) recorded done.
Proof.
  intros Hpeer Hdead Hprepare. destruct prepared as [[body headers] url].
  rewrite retry_while_S. cbv zeta. rewrite Hpeer.
  unfold IndexJs.resolve. rewrite Hprepare. unfold IndexJs.resolveHttp2Client.
  destruct (destroyed session) eqn:Hdestroyed.
  - cbn [IndexJs.send_body]. rewrite app_nil_r.
    destruct (retry =? 0)%nat; reflexivity.
  - destruct Hdead as [Hdead|Hclosed]; [discriminate|]. rewrite Hclosed.
    cbn [IndexJs.send_body]. rewrite app_nil_r.
    destruct (retry =? 0)%nat; reflexivity.
Qed.

(** Where the body of a response goes, in [src/index.js] and in
    [part_000]. A response that fails the status gate and whose body
    stream ends is rejected with [E_HTTP_REQUEST_INVALID_RESPONSE_STATUS]
    and carries the response with its status, its headers and its body.
    The body is what [JSON.parse] gives for a response that declares JSON,
    an empty text being read as [{}]; in [part_000] the list of events for
    one that declares an event stream; and the text as it came for any
    other. Where [JSON.parse] fails, the body is the text as it came and
    the failure of the format is the [cause]. Nothing is piped, with a
    [downstream] or without. A response that passes the gate while a
    [downstream] is given resolves at once, without a [body], and its
    chunks are piped, whatever it declares and however the stream ends. *)
Theorem response_body_destination options statusCode headers :
  (IndexJs.throws_on_status options statusCode = true ->
   Spec.textual (JsObject.get headers "content-type") ->
   forall chunks,
     Spec.status_failure
       (IndexJs.resolveOnResponse options Accept Reject statusCode headers
                                  (StreamEnd chunks))
       statusCode headers (String.concat "" chunks)
       (if Spec.declares headers "application/json"
        then JSON_parse (if String.eqb (String.concat "" chunks) ""
                         then "{}" else String.concat "" chunks)
        else Some (VStr (String.concat "" chunks)))
     /\ Spec.status_failure
          (Part000.resolveOnResponse options Accept Reject statusCode headers
                                     (StreamEnd chunks))
          statusCode headers (String.concat "" chunks)
          (if Spec.declares headers "application/json"
           then JSON_parse (if String.eqb (String.concat "" chunks) ""
                            then "{}" else String.concat "" chunks)
           else if Spec.declares headers "text/event-stream"
                then Some (Part000.contentTypeTextEventStream (String.concat "" chunks))
                else Some (VStr (String.concat "" chunks))))
  /\ (IndexJs.throws_on_status options statusCode = false ->
      Options.downstream options = true ->
      forall readable,
        IndexJs.resolveOnResponse options Accept Reject statusCode headers readable
        = (Accept (Response.mk statusCode headers None),
           [PipeDownstream (chunks_of readable)])
        /\ Part000.resolveOnResponse options Accept Reject statusCode headers readable
           = (Accept (Response.mk statusCode headers None),
              [PipeDownstream (chunks_of readable)])).
Proof.
  split.
  - intros Hgate Htext chunks. unfold Spec.status_failure, Spec.declares. split.
    + unfold IndexJs.resolveOnResponse.
      cbn [Response.status]. rewrite Hgate.
      unfold IndexJs.bufferResponseBody, IndexJs.onStreamEnd.
      cbn [chunks_of Response.set_body Response.headers Response.status].
      destruct (JsObject.get headers "content-type") as [[ct| |]|]; cbn in Htext;
        try tauto; cbn [optional_startsWith is_true]; try reflexivity.
      destruct (Js.startsWith ct "application/json"); cbn [is_true]; [|reflexivity].
      destruct (JSON_parse _) as [parsed|]; [reflexivity|].
      eexists. split; [reflexivity|]. split; reflexivity.
    + unfold Part000.resolveOnResponse.
      cbn [Response.status]. rewrite Hgate.
      unfold Part000.bufferResponseBody, Part000.onStreamEnd,
        Part000.contentTypeApplicationJson.
      cbn [chunks_of Response.set_body Response.headers Response.status].
      destruct (JsObject.get headers "content-type") as [[ct| |]|]; cbn in Htext;
        try tauto; cbn [optional_startsWith is_true bind]; try reflexivity.
      destruct (Js.startsWith ct "application/json"); cbn [is_true bind].
      * destruct (JSON_parse _) as [parsed|]; cbn [bind]; [reflexivity|].
        eexists. split; [reflexivity|]. split; reflexivity.
      * destruct (Js.startsWith ct "text/event-stream"); reflexivity.
  - intros Hgate Hdown readable.
    unfold IndexJs.resolveOnResponse, Part000.resolveOnResponse.
    cbn [Response.status]. rewrite Hgate, Hdown. split; reflexivity.
Qed.

End Recovery.

(** ** Event streams: fields, repeated names and blank bodies *)
Section EventFields.

Context {rt : Runtime}.

Lemma indexOf_from_absent c s :
  Spec.every (fun d => negb (Ascii.eqb d c)) s = true ->
  forall i, Js.indexOf_from c s i = -1.
Proof.
  induction s as [|d s IH]; intros Hs i; cbn [Js.indexOf_from]; [reflexivity|].
  cbn in Hs. apply andb_true_iff in Hs. destruct Hs as [Hd Hs].
  apply negb_true_iff in Hd. rewrite Hd. apply IH. exact Hs.
Qed.

Lemma substring_without_last s :
  String.substring 0 (String.length s - 1) s = Spec.without_last s.
Proof.
  induction s as [|c s IH]; [reflexivity|].
  destruct s as [|d s]; [reflexivity|].
  cbn [String.length Nat.sub] in *. rewrite Nat.sub_0_r in IH.
  cbn [String.substring]. cbn [String.substring] in IH. rewrite IH. reflexivity.
Qed.

(** [s.slice(0, -1)] drops the last code unit, and [s.slice(0)] none. *)
Lemma slice_without_last s : Js.slice s 0 (-1) = Spec.without_last s.
Proof.
  unfold Js.slice, Js.slice_index, Js.length. cbn [Z.ltb Z.compare].
  replace (Z.to_nat (Z.min 0 (Z.of_nat (String.length s)))) with 0%nat by lia.
  replace (Z.to_nat _) with (String.length s - 1)%nat by lia.
  apply substring_without_last.
Qed.

Lemma slice_from_start s : Js.slice_from s 0 = s.
Proof.
  unfold Js.slice_from, Js.slice, Js.slice_index, Js.length. cbn [Z.ltb Z.compare].
  destruct (Z.of_nat (String.length s) <? 0) eqn:E; [apply Z.ltb_lt in E; lia|].
  replace (Z.to_nat (Z.min 0 (Z.of_nat (String.length s)))) with 0%nat by lia.
  replace (Z.to_nat _) with (String.length s) by lia.
  apply substring_all.
Qed.

(** A line of an event is cut at its first colon: the name is what stands
    before it, and the value what [JSON.parse] makes of the trimmed text
    behind it, further colons included, or that text. A line without a
    colon gives as the name the line without its last code unit, and as the
    value the whole line, parsed or as it is. *)
Theorem event_field_is_cut_at_first_colon :
  (forall name rest,
      Spec.no_colon name ->
      Part000.eventStreamEntry (name ++ ":" ++ rest)
      = (name, Spec.parsed_or_text JSON_parse (Js.trim rest)))
  /\ (forall field,
         Spec.no_colon field ->
         Part000.eventStreamEntry field
         = (Spec.without_last field, Spec.parsed_or_text JSON_parse (Js.trim field))).
Proof.
  unfold Spec.no_colon, Spec.parsed_or_text. split.
  - intros name rest Hname. unfold Part000.eventStreamEntry, Js.indexOf.
    change (":" ++ rest)%string with (String ":"%char rest).
    rewrite indexOf_from_first by exact Hname.
    rewrite Z.add_0_l. fold (Js.length name). rewrite slice_prefix.
    replace (name ++ String ":"%char rest)%string with ((name ++ ":") ++ rest)%string
      by (rewrite append_assoc; reflexivity).
    replace (Js.length name + 1) with (Js.length (name ++ ":"))
      by (unfold Js.length; rewrite length_append; cbn [String.length]; lia).
    rewrite slice_from_suffix. destruct (JSON_parse _); reflexivity.
  - intros field Hfield. unfold Part000.eventStreamEntry, Js.indexOf.
    rewrite indexOf_from_absent by exact Hfield.
    change (-1 + 1) with 0. rewrite slice_without_last, slice_from_start.
    destruct (JSON_parse _); reflexivity.
Qed.

(** Reading after [Object.assign]: the last of the properties written
    under the key, or what the object held. *)
Lemma get_assign_rev {V : Type} (src : JsObject.t V) :
  forall o k,
    JsObject.get (JsObject.assign o src) k
    = match JsObject.get (rev src) k with
      | Some v => Some v
      | None => JsObject.get o k
      end.
Proof.
  unfold JsObject.assign.
  induction src as [|[k1 v1] src IH]; intros o k; cbn [fold_left fst snd rev];
    [reflexivity|].
  rewrite IH, get_app, get_set. cbn [JsObject.get].
  destruct (JsObject.get (rev src) k); [reflexivity|].
  destruct (String.eqb k1 k); reflexivity.
Qed.

Lemma fromEntries_well_formed {V : Type} (entries : list (string * V)) :
  JsObject.well_formed (JsObject.fromEntries entries).
Proof. apply well_formed_assign. split; constructor. Qed.

(** Each event of a body becomes one record. The record holds a name
    once, and under it the value of the last line of the event that has
    that name: of the lines that repeat a name only the last one counts. *)
Theorem event_fields_last_wins body :
  exists records,
    Part000.contentTypeTextEventStream body = VArr (map VObj records)
    /\ Forall2 (fun fields record =>
                  JsObject.well_formed record
                  /\ forall name,
                      JsObject.get record name
                      = JsObject.get
                          (rev (map Part000.eventStreamEntry (Js.split fields LF))) name)
               (Js.split (Js.trim body) (LF ++ LF)%string) records.
Proof.
  exists (map (fun fields =>
                 JsObject.fromEntries (map Part000.eventStreamEntry (Js.split fields LF)))
              (Js.split (Js.trim body) (LF ++ LF)%string)).
  split.
  - unfold Part000.contentTypeTextEventStream. rewrite map_map. reflexivity.
  - induction (Js.split (Js.trim body) (LF ++ LF)%string) as [|fields events IH];
      cbn [map]; constructor; [|exact IH].
    split; [apply fromEntries_well_formed|].
    intros name. unfold JsObject.fromEntries. rewrite get_assign_rev.
    destruct (JsObject.get _ name); reflexivity.
Qed.

(** A body that is empty or white space only decodes to one record with
    one field, whose name is the empty text. *)
Theorem blank_event_stream body :
  Js.trim body = "" ->
  Part000.contentTypeTextEventStream body
  = VArr [VObj [("", Spec.parsed_or_text JSON_parse "")]].
Proof.
  intros Htrim. unfold Part000.contentTypeTextEventStream. rewrite Htrim.
  change (Js.split "" (LF ++ LF)%string) with [""].
  cbn [map]. change (Js.split "" LF) with [""]. cbn [map].
  unfold Part000.eventStreamEntry, Spec.parsed_or_text.
  change (Js.trim (Js.slice_from "" (Js.indexOf "" ":"%char + 1))) with "".
  change (Js.slice "" 0 (Js.indexOf "" ":"%char)) with "".
  destruct (JSON_parse ""); rewrite fromEntries_one; reflexivity.
Qed.

End EventFields.

(** ** The configuration of an instance and the options of a call *)
Section Merging.

Lemma get_rev {V : Type} (o : JsObject.t V) k :
  NoDup (JsObject.keys o) -> JsObject.get (rev o) k = JsObject.get o k.
Proof.
  induction o as [|[k1 v1] o IH]; cbn [rev JsObject.keys map fst JsObject.get];
    intros Hnd; [reflexivity|].
  inversion Hnd as [|? ? Hk1 Hnd']; subst.
  rewrite get_app, (IH Hnd'). cbn [JsObject.get].
  destruct (String.eqb k1 k) eqn:E.
  - apply String.eqb_eq in E. subst k1. rewrite (get_absent o k Hk1). reflexivity.
  - destruct (JsObject.get o k); reflexivity.
Qed.

(** Reading after [Object.assign] from an object: the property of the
    source, or what the target held. *)
Lemma get_assign {V : Type} (o src : JsObject.t V) k :
  JsObject.well_formed src ->
  JsObject.get (JsObject.assign o src) k
  = match JsObject.get src k with
    | Some v => Some v
    | None => JsObject.get o k
    end.
Proof. intros [Hnd _]. rewrite get_assign_rev, (get_rev src k Hnd). reflexivity. Qed.

Lemma defaults_well_formed method : JsObject.well_formed (IndexJs.defaults method).
Proof.
  split.
  - unfold IndexJs.defaults, JsObject.keys. cbn [map fst].
    repeat (constructor; [cbn; intuition discriminate|]). constructor.
  - unfold IndexJs.defaults, JsObject.keys. cbn [map fst].
    repeat (constructor; [|repeat (constructor; [exact I|]); constructor]). constructor.
Qed.

Lemma argument_well_formed (config : Argument) :
  (forall o, config = ArgObject o -> JsObject.well_formed o) ->
  JsObject.well_formed match config with
                       | ArgString base => [("base", VStr base)]
                       | ArgObject o => o
                       | ArgUndefined => []
                       end.
Proof.
  intros Hwf. destruct config as [base|o|].
  - split; repeat constructor. cbn. tauto.
  - apply Hwf. reflexivity.
  - split; constructor.
Qed.

Lemma well_formed_delete {V : Type} (o : JsObject.t V) k :
  JsObject.well_formed o -> JsObject.well_formed (JsObject.delete o k).
Proof.
  intros [Hnd Hs]. unfold JsObject.well_formed.
  induction o as [|[k0 v0] o IH]; cbn [JsObject.delete]; [split; assumption|].
  cbn [JsObject.keys map fst] in Hnd, Hs.
  inversion Hnd as [|? ? Hk0 Hnd']; subst. inversion Hs as [|? ? Hs' Hall]; subst.
  destruct (String.eqb k0 k); [split; assumption|].
  destruct (IH Hnd' Hs') as [Hnd'' Hs''].
  assert (Hsub : forall x, In x (JsObject.keys (JsObject.delete o k)) ->
                           In x (JsObject.keys o)).
  { clear. intros x. induction o as [|[k1 v1] o IH]; cbn [JsObject.delete]; [tauto|].
    destruct (String.eqb k1 k); cbn [JsObject.keys map fst In]; [tauto|].
    intros [H|H]; [left; exact H|right; apply IH; exact H]. }
  cbn [JsObject.keys map fst]. split.
  - constructor; [intros Hin; apply Hk0, Hsub, Hin|exact Hnd''].
  - constructor; [exact Hs''|].
    apply Forall_forall. intros x Hx. rewrite Forall_forall in Hall. apply Hall, Hsub, Hx.
Qed.

(** What the constructor of [src/index.js] keeps. The configuration has no
    [url]: a [url] handed to the constructor serves as the [base] where no
    [base] is given, so that a text, an object with a [base] and an object
    with a [url] of the same value give the same instance. Every other
    property stays. On such an instance [#fetch] leaves the [url] of a call
    as it is, and a call without options does not throw: the options are
    the defaults, overwritten by the configuration, overwritten by the
    options of the call. *)
Theorem constructor_keeps_a_base config :
  (forall o, config = ArgObject o -> JsObject.well_formed o) ->
  (forall text,
      IndexJs.constructor (ArgObject [("url", VStr text)])
      = IndexJs.constructor (ArgString text)
      /\ IndexJs.constructor (ArgObject [("base", VStr text)])
         = IndexJs.constructor (ArgString text))
  /\ JsObject.well_formed (IndexJs.constructor config)
  /\ JsObject.get (IndexJs.constructor config) "url" = None
  /\ JsObject.get (IndexJs.constructor config) "base"
     = Some match config with
            | ArgString base => VStr base
            | ArgObject o => nullish (prop o "base") (prop o "url")
            | ArgUndefined => VUndefined
            end
  /\ (forall k, k <> "base" -> k <> "url" ->
                JsObject.get (IndexJs.constructor config) k
                = match config with
                  | ArgObject o => JsObject.get o k
                  | _ => None
                  end)
  /\ (forall plus method options,
         IndexJs.fetch_options plus (IndexJs.constructor config) method options
         = Normal (JsObject.assign
                     (JsObject.assign (IndexJs.defaults method) (IndexJs.constructor config))
                     match options with
                     | ArgString url => [("url", VStr url)]
                     | ArgObject o => o
                     | ArgUndefined => []
                     end)).
Proof.
  intros Hwf. split; [intros text; split; reflexivity|].
  apply argument_well_formed in Hwf. unfold IndexJs.constructor.
  set (given := match config with
                | ArgString base => [("base", VStr base)]
                | ArgObject o => o
                | ArgUndefined => []
                end) in *.
  set (base := nullish (prop given "base") (prop given "url")).
  pose proof (well_formed_set given "base" base Hwf) as Hset.
  assert (Hurl : JsObject.get (JsObject.delete (JsObject.set given "base" base) "url") "url"
                 = None).
  { rewrite get_delete by exact (proj1 Hset). rewrite String.eqb_refl. reflexivity. }
  split; [apply well_formed_delete; exact Hset|].
  split; [exact Hurl|]. split; [|split].
  - rewrite get_delete by exact (proj1 Hset). cbn [String.eqb Ascii.eqb Bool.eqb].
    rewrite get_set, String.eqb_refl. subst base given.
    destruct config as [text|o|]; reflexivity.
  - intros k Hbase Hnot. rewrite get_delete by exact (proj1 Hset).
    destruct (String.eqb "url" k) eqn:E; [apply String.eqb_eq in E; congruence|].
    rewrite get_set.
    destruct (String.eqb "base" k) eqn:E'; [apply String.eqb_eq in E'; congruence|].
    subst given. destruct config as [text|o|]; [|reflexivity|reflexivity].
    cbn [JsObject.get]. destruct (String.eqb "base" k) eqn:E''; [discriminate|reflexivity].
  - intros plus method options. unfold IndexJs.fetch_options, prop.
    rewrite Hurl. cbn [ToBoolean bind]. destruct options; reflexivity.
Qed.

(** The options of a call, merged: a property is the one of the call, or
    else the one of the configuration, or else the default. So the [retry]
    a call names decides whether the call loops, a [retry] of [undefined]
    included, and the [method] a call names replaces the one of the verb. *)
Theorem fetch_options_precedence plus config method o merged :
  JsObject.well_formed config -> JsObject.well_formed o ->
  IndexJs.fetch_options plus config method (ArgObject o) = Normal merged ->
  JsObject.well_formed merged
  /\ (forall k, k <> "url" ->
                JsObject.get merged k
                = match JsObject.get o k with
                  | Some v => Some v
                  | None => match JsObject.get config k with
                            | Some v => Some v
                            | None => JsObject.get (IndexJs.defaults method) k
                            end
                  end)
  /\ (forall v, JsObject.get o "retry" = Some v -> IndexJs.retries merged = ToBoolean v)
  /\ (forall v, JsObject.get o "method" = Some v -> prop merged "method" = v).
Proof.
  intros Hconfig Ho Hmerged.
  assert (Hshape : exists o',
             JsObject.well_formed o'
             /\ (forall k, k <> "url" -> JsObject.get o' k = JsObject.get o k)
             /\ merged = JsObject.assign (JsObject.assign (IndexJs.defaults method) config)
                                         o').
  { unfold IndexJs.fetch_options in Hmerged.
    destruct (ToBoolean (prop config "url")).
    - destruct (ToBoolean (prop o "url")).
      + destruct (first_of (prop o "url")) as [first|e]; cbn [bind] in Hmerged;
          [|discriminate].
        inversion Hmerged; subst. eexists. split; [apply well_formed_set; exact Ho|].
        split; [|reflexivity]. intros k Hk. rewrite get_set.
        destruct (String.eqb "url" k) eqn:E; [apply String.eqb_eq in E; congruence|].
        reflexivity.
      + cbn [bind] in Hmerged. inversion Hmerged; subst. exists o. auto.
    - cbn [bind] in Hmerged. inversion Hmerged; subst. exists o. auto. }
  destruct Hshape as (o' & Ho' & Hsame & ->).
  assert (Hget : forall k, k <> "url" ->
                   JsObject.get (JsObject.assign
                                   (JsObject.assign (IndexJs.defaults method) config) o') k
                   = match JsObject.get o k with
                     | Some v => Some v
                     | None => match JsObject.get config k with
                               | Some v => Some v
                               | None => JsObject.get (IndexJs.defaults method) k
                               end
                     end).
  { intros k Hk. rewrite (get_assign _ o' k Ho'), (Hsame k Hk).
    rewrite (get_assign _ config k Hconfig). reflexivity. }
  split; [|split; [exact Hget|split]].
  - apply well_formed_assign, well_formed_assign, defaults_well_formed.
  - intros v Hv. unfold IndexJs.retries, prop. rewrite Hget by discriminate.
    rewrite Hv. reflexivity.
  - intros v Hv. unfold prop. rewrite Hget by discriminate. rewrite Hv. reflexivity.
Qed.

(** Once the configuration holds a [url], which [connect] gives it, the
    [url] of a call that does not start with a slash is put behind the one
    of the configuration, with nothing between the two, and one that
    starts with a slash stays as it is; and a call without options
    throws. *)
Theorem relative_url_is_prefixed plus config method o prefix url :
  (forall a b, plus (VStr a) (VStr b) = VStr (a ++ b)) ->
  JsObject.well_formed config -> JsObject.well_formed o ->
  JsObject.get config "url" = Some (VStr prefix) -> prefix <> "" ->
  JsObject.get o "url" = Some (VStr url) -> url <> "" ->
  (exists merged,
      IndexJs.fetch_options plus config method (ArgObject o) = Normal merged
      /\ JsObject.get merged "url"
         = Some (VStr (if Js.startsWith url "/" then url else (prefix ++ url)%string)))
  /\ IndexJs.fetch_options plus config method ArgUndefined = Throw TypeError.
Proof.
  intros Hplus Hconfig Ho Hprefix Hfilled Hurl Hnot.
  assert (Htruthy : forall text, text <> "" -> ToBoolean (VStr text) = true).
  { intros text Htext. cbn. apply negb_true_iff, String.eqb_neq. exact Htext. }
  unfold IndexJs.fetch_options, prop. rewrite Hprefix, Hurl.
  rewrite !Htruthy by assumption. split; [|reflexivity].
  destruct url as [|c rest]; [congruence|]. cbn [first_of bind].
  eexists. split; [reflexivity|].
  rewrite get_assign by (apply well_formed_set; exact Ho).
  rewrite get_set, String.eqb_refl. rewrite Hplus.
  unfold is_text, Js.startsWith. cbn [String.eqb String.prefix].
  destruct (Ascii.eqb c "/"%char) eqn:E.
  - apply Ascii.eqb_eq in E. subst c.
    destruct (ascii_dec "/"%char "/"%char) as [_|Hne]; [|congruence].
    destruct rest; reflexivity.
  - destruct (ascii_dec "/"%char c) as [<-|_]; [rewrite Ascii.eqb_refl in E; discriminate|].
    reflexivity.
Qed.

End Merging.

(** ** The second copy of [part_000]: how a call fails *)
Section SecondCopy.

Context {rt : Runtime}.
Variable URL_pathname : string -> string.
Variable toUpperCase : string -> string.
Variable env : Environment.

(** No code is the arrow function: [lastIndexOf] finds nothing. *)
Lemma lastIndexOf_from_codes (errors : list JsError) :
  forall index found,
    Part000Second.lastIndexOf_from
      (map (fun e => Part000Second.CodeOf (Error.code e)) errors)
      Part000Second.ArrowFunction index found
    = found.
Proof.
  induction errors as [|e errors IH]; intros index found;
    cbn [map Part000Second.lastIndexOf_from]; [reflexivity|].
  rewrite IH. destruct (Error.code e); reflexivity.
Qed.

Lemma filter_from_all {A : Type} (callback : A -> Z -> bool) (items : list A) :
  (forall item index, callback item index = true) ->
  forall index, Part000Second.filter_from callback items index = items.
Proof.
  intros Hall. induction items as [|item items IH]; intros index;
    cbn [Part000Second.filter_from]; [reflexivity|].
  rewrite Hall, IH. reflexivity.
Qed.

Lemma unique_all reasons : Part000Second.unique reasons = reasons.
Proof.
  unfold Part000Second.unique, Part000Second.lastIndexOf.
  rewrite lastIndexOf_from_codes. apply filter_from_all.
  intros item index. unfold Js.includes. cbn [existsb].
  rewrite Z.eqb_refl, orb_true_r. reflexivity.
Qed.

Lemma after_loop_last earlier last :
  Part000Second.after_loop (earlier ++ [last])
  = Part000Second.Rejected (Some last)
                           match earlier with
                           | [] => None
                           | _ => Some earlier
                           end.
Proof.
  unfold Part000Second.after_loop. rewrite unique_all, rev_app_distr. cbn [rev app].
  destruct earlier as [|e earlier]; [reflexivity|].
  rewrite rev_involutive.
  destruct (rev (e :: earlier)) eqn:Hrev; [|reflexivity].
  apply (f_equal (@List.length _)) in Hrev. rewrite length_rev in Hrev. discriminate Hrev.
Qed.

(** In the second copy the filter that is to keep one reason of each code
    keeps every reason: [lastIndexOf] is given a function to look for, finds
    it nowhere, and answers [-1], which the test accepts. So after the loop
    the call rejects with the last reason recorded, and [retried] on it is
    the list of all the reasons before it, those of the same code included;
    with nothing recorded it rejects with [undefined]. *)
Theorem second_copy_keeps_every_reason :
  (forall reasons, Part000Second.unique reasons = reasons)
  /\ (forall earlier last,
         Part000Second.after_loop (earlier ++ [last])
         = Part000Second.Rejected (Some last)
                                  match earlier with
                                  | [] => None
                                  | _ => Some earlier
                                  end)
  /\ Part000Second.after_loop [] = Part000Second.Rejected None None.
Proof.
  split; [exact unique_all|]. split; [exact after_loop_last|]. reflexivity.
Qed.

(** One turn of the loop of the second copy. *)
Lemma second_retry_while_S authority options retry attempt http2Session recorded done :
  Part000Second.retry_while URL_pathname env authority options (S retry) attempt
                            http2Session recorded done
  = let http2Session := peer env attempt http2Session in
    let '(settled, io1) :=
      Part000Second.resolve URL_pathname http2Session authority options
                            (transport env attempt) in
    match settled with
    | Accept response =>
        if (Response.status response >=? 400)
           && (0 <? retry)%nat
           && (Js.includes (Options.retryOnStatus options) (Response.status response)
               || Options.retryOnErrorResponseStatus options)
        then Part000Second.retry_while URL_pathname env authority options retry
                                       (S attempt) http2Session recorded (done ++ io1)
        else Part000Second.mkCall (Part000Second.Resolved response) (S attempt) recorded
                                  (done ++ io1)
    | Reject reason =>
        if (retry <=? 0)%nat
        then Part000Second.retry_while URL_pathname env authority options retry
                                       (S attempt) http2Session (recorded ++ [reason])
                                       (done ++ io1)
        else match Part000.resolveRetryLoopError options recorded http2Session
                                                 (reconnect env attempt) reason with
             | (Some (Throw thrown), io2) =>
                 Part000Second.mkCall (Part000Second.Rejected (Some thrown) None)
                                      (S attempt) recorded ((done ++ io1) ++ io2)
             | (Some (Normal (recorded, http2Session)), io2) =>
                 Part000Second.retry_while URL_pathname env authority options retry
                                           (S attempt) http2Session recorded
                                           ((done ++ io1) ++ io2
                                            ++ [Wait (Options.retryDelay options)])
             | (None, io2) =>
                 Part000Second.mkCall Part000Second.Unsettled (S attempt) recorded
                                      ((done ++ io1) ++ io2)
             end
    | Uncaught error =>
        Part000Second.mkCall (Part000Second.Unhandled error) (S attempt) recorded
                             (done ++ io1)
    end.
Proof. reflexivity. Qed.

(** When the last attempt of the budget is rejected, the second copy
    records the rejection without asking whether it is one to retry, leaves
    the loop, and rejects with it; [retried] is then the list of the
    failures recorded before, when there are any. No delay follows. *)
Theorem second_copy_rejects_with_the_last
        authority options attempt http2Session recorded done reason io1 :
  Part000Second.resolve URL_pathname (peer env attempt http2Session) authority options
                        (transport env attempt)
  = (Reject reason, io1) ->
  Part000Second.retry_while URL_pathname env authority options 1 attempt http2Session
                            recorded done
  = Part000Second.mkCall
      (Part000Second.Rejected (Some reason)
                              match recorded with
                              | [] => None
                              | _ => Some recorded
                              end)
      (S attempt) (recorded ++ [reason]) (done ++ io1).
Proof.
  intros Hresolve. rewrite second_retry_while_S. cbv zeta. rewrite Hresolve.
  cbn [Nat.leb Part000Second.retry_while]. rewrite after_loop_last. reflexivity.
Qed.

(** With a [retry] that is a fraction above zero and below one, [fetch]
    of the second copy makes no attempt and rejects with an error of code
    [E_HTTP_REQUEST_FAILED] whose cause is [undefined]. *)
Theorem second_copy_fraction_fails http2Session authority options :
  (0 < Options.retry options /\ Options.retry options < 1)%Q ->
  Part000Second.fetch URL_pathname toUpperCase env http2Session authority options
  = Part000Second.mkCall (Part000Second.Failed None None) 0 [] [].
Proof.
  intros [Hpos Hlt]. unfold Part000Second.fetch.
  change (Options.retry (Options.set_method _ options)) with (Options.retry options).
  assert (Htruthy : Js.truthy (Options.retry options) = true).
  { apply truthy_nonzero. intros Heq. rewrite Heq in Hpos.
    exact (Qlt_irrefl 0 Hpos). }
  rewrite Htruthy. unfold Part000Second.resolveRetryLoop, IndexJs.retry_budget,
                     Js.Math_abs, Js.Math_floor.
  change (Options.retry (Options.set_method _ options)) with (Options.retry options).
  assert (Hfloor : Qfloor (Options.retry options) = 0).
  { apply floor_zero. split; [apply Qlt_le_weak; exact Hpos|exact Hlt]. }
  rewrite Hfloor. reflexivity.
Qed.

End SecondCopy.

(** ** The session of [part_000]: [close], [connect] and [reconnect] *)
Section Sessions.

Variable new_URL_of : jsvalue -> option Part000.URL.

(** After a [close] that settles the instance has no session, and the
    configuration it had; a [close] that does not settle leaves the instance
    as it is. *)
Lemma close_leaves_no_session this closing :
  snd (Part000.close this closing)
  = Part000.mkInstance (Part000.config this)
                       match fst (Part000.close this closing) with
                       | Part000.Unsettled => Part000.http2Session this
                       | _ => None
                       end.
Proof.
  unfold Part000.close, Part000.close_session. destruct this as [config [session|]];
    cbn [Part000.http2Session Part000.config]; [|reflexivity].
  destruct (Bool.eqb false (closed session)); [|reflexivity].
  destruct (destroyed session); [reflexivity|]. destruct closing; reflexivity.
Qed.

(** [close] settles unless the session is destroyed and not closed. *)
Lemma close_settles config session closing :
  closed session = true \/ destroyed session = false ->
  Part000.close (Part000.mkInstance config (Some session)) closing
  = (if closed session then Part000.Fulfilled
     else match closing with
          | Some error => Part000.Rejected error
          | None => Part000.Fulfilled
          end,
     Part000.mkInstance config None).
Proof.
  intros Hsession. unfold Part000.close, Part000.close_session.
  cbn [Part000.http2Session Part000.config].
  destruct (closed session); cbn [Bool.eqb]; [reflexivity|].
  destruct Hsession as [H|H]; [discriminate|]. rewrite H. reflexivity.
Qed.

Lemma close_never_settles config session closing :
  destroyed session = true -> closed session = false ->
  Part000.close (Part000.mkInstance config (Some session)) closing
  = (Part000.Unsettled, Part000.mkInstance config (Some session)).
Proof.
  intros Hdestroyed Hclosed. unfold Part000.close, Part000.close_session.
  cbn [Part000.http2Session Part000.config]. rewrite Hdestroyed, Hclosed. reflexivity.
Qed.

Lemma close_without_session config closing :
  Part000.close (Part000.mkInstance config None) closing
  = (Part000.Fulfilled, Part000.mkInstance config None).
Proof. reflexivity. Qed.

Lemma connect_after_close this authority options closing connecting session :
  Part000.connect new_URL_of this authority options closing connecting session
  = match fst (Part000.close this closing) with
    | Part000.Fulfilled =>
        match new_URL_of (if ToBoolean authority then authority
                          else prop (Part000.config this) "base") with
        | None => (Part000.Pending TypeError, Part000.mkInstance (Part000.config this) None)
        | Some url =>
            (match connecting with
             | None => Part000.Fulfilled
             | Some reason =>
                 Part000.Rejected
                   (MkError "Error" (Some Part000.E_HTTP_REQUEST_CONNECT_ERROR) None
                            (CauseError reason))
             end,
             Part000.mkInstance
               (JsObject.set
                  (JsObject.set (JsObject.assign (Part000.config this) options) "base"
                                (VStr (Part000.protocol url ++ "//" ++ Part000.host url)))
                  "url" (VStr (Part000.pathname url ++ Part000.search url)))
               (Some session))
        end
    | Part000.Rejected error | Part000.Pending error =>
        (Part000.Pending error, Part000.mkInstance (Part000.config this) None)
    | Part000.Unsettled =>
        (Part000.Unsettled,
         Part000.mkInstance (Part000.config this) (Part000.http2Session this))
    end.
Proof.
  unfold Part000.connect.
  pose proof (close_leaves_no_session this closing) as Hafter.
  destruct (Part000.close this closing) as [ended after]. cbn [fst snd] in *. subst after.
  cbn [Part000.config]. destruct ended; reflexivity.
Qed.

(** [connect] in [part_000]. Once the session before is closed and the
    authority, or else the [base] of the configuration, is a URL, the
    configuration is changed before the session connects, and stays so when
    it does not: [base] is the protocol and the host, [url] the path and
    the query, and the options of [connect] are written over the other
    properties, so that they count as defaults of every later call. The
    promise is fulfilled, or rejected with [E_HTTP_REQUEST_CONNECT_ERROR]
    and the reason as its cause. When closing the session before fails,
    or the value is no URL, the promise never settles, and the instance is
    left without a session. *)
Theorem connect_changes_the_configuration
        this authority options closing connecting session :
  JsObject.well_formed options ->
  (fst (Part000.close this closing) = Part000.Fulfilled ->
   forall url,
     new_URL_of (if ToBoolean authority then authority
                 else prop (Part000.config this) "base") = Some url ->
     fst (Part000.connect new_URL_of this authority options closing connecting session)
     = match connecting with
       | None => Part000.Fulfilled
       | Some reason =>
           Part000.Rejected (MkError "Error" (Some Part000.E_HTTP_REQUEST_CONNECT_ERROR)
                                     None (CauseError reason))
       end
     /\ Part000.http2Session
          (snd (Part000.connect new_URL_of this authority options closing connecting
                                session))
        = Some session
     /\ forall k,
         JsObject.get
           (Part000.config
              (snd (Part000.connect new_URL_of this authority options closing connecting
                                    session))) k
         = if String.eqb "url" k
           then Some (VStr (Part000.pathname url ++ Part000.search url))
           else if String.eqb "base" k
                then Some (VStr (Part000.protocol url ++ "//" ++ Part000.host url))
                else match JsObject.get options k with
                     | Some v => Some v
                     | None => JsObject.get (Part000.config this) k
                     end)
  /\ (fst (Part000.close this closing) = Part000.Fulfilled ->
      new_URL_of (if ToBoolean authority then authority
                  else prop (Part000.config this) "base") = None ->
      Part000.connect new_URL_of this authority options closing connecting session
      = (Part000.Pending TypeError, Part000.mkInstance (Part000.config this) None))
  /\ (forall error,
         fst (Part000.close this closing) = Part000.Rejected error ->
         Part000.connect new_URL_of this authority options closing connecting session
         = (Part000.Pending error, Part000.mkInstance (Part000.config this) None)).
Proof.
  intros Hoptions. rewrite connect_after_close. split; [|split].
  - intros Hclose url Hurl. rewrite Hclose, Hurl. cbn [fst snd Part000.http2Session].
    split; [reflexivity|]. split; [reflexivity|].
    intros k. cbn [Part000.config]. rewrite !get_set.
    destruct (String.eqb "url" k); [reflexivity|].
    destruct (String.eqb "base" k); [reflexivity|].
    apply get_assign. exact Hoptions.
  - intros Hclose Hurl. rewrite Hclose, Hurl. reflexivity.
  - intros error Hclose. rewrite Hclose. reflexivity.
Qed.

(** [reconnect] forgets the path. After [connect] to an authority with a
    path, the [url] of the configuration is that path and its query, and
    the [base] is the protocol and the host. A [reconnect] whose [close]
    settles, the session being closed, or not destroyed and closing without
    an error, connects to that [base]: the [url] is then the path of that,
    a single slash, while the [base] is what it was. On a session that is
    destroyed and not closed the [close] never settles, and neither does
    the [reconnect], which leaves the instance as it is. *)
Theorem reconnect_forgets_the_path
        this authority options closing session url closing' connecting' session' :
  fst (Part000.close this closing) = Part000.Fulfilled ->
  new_URL_of (if ToBoolean authority then authority
              else prop (Part000.config this) "base") = Some url ->
  new_URL_of (VStr (Part000.protocol url ++ "//" ++ Part000.host url))
  = Some (Part000.mkURL (Part000.protocol url) (Part000.host url) "/" "") ->
  let connected :=
    snd (Part000.connect new_URL_of this authority options closing None session) in
  let reconnected :=
    Part000.reconnect new_URL_of connected closing' connecting' session' in
  prop (Part000.config connected) "url"
  = VStr (Part000.pathname url ++ Part000.search url)
  /\ prop (Part000.config connected) "base"
     = VStr (Part000.protocol url ++ "//" ++ Part000.host url)
  /\ (closed session = true \/ (destroyed session = false /\ closing' = None) ->
      prop (Part000.config (snd reconnected)) "url" = VStr "/"
      /\ prop (Part000.config (snd reconnected)) "base"
         = prop (Part000.config connected) "base"
      /\ Part000.http2Session (snd reconnected) = Some session')
  /\ (destroyed session = true -> closed session = false ->
      reconnected = (Part000.Unsettled, connected)).
Proof.
  intros Hclose Hurl Hbase. cbv zeta.
  rewrite connect_after_close, Hclose, Hurl. cbn [snd].
  set (config := JsObject.set _ "url" _).
  assert (Hconfig_url : prop config "url"
                        = VStr (Part000.pathname url ++ Part000.search url)).
  { unfold prop. subst config. rewrite get_set, String.eqb_refl. reflexivity. }
  assert (Hconfig_base : prop config "base"
                         = VStr (Part000.protocol url ++ "//" ++ Part000.host url)).
  { unfold prop. subst config. rewrite !get_set. reflexivity. }
  split; [exact Hconfig_url|]. split; [exact Hconfig_base|]. split.
  - intros Hclosing.
    assert (Hended : Part000.close (Part000.mkInstance config (Some session)) closing'
                     = (Part000.Fulfilled, Part000.mkInstance config None)).
    { rewrite close_settles by tauto.
      destruct Hclosing as [Hclosed|[_ ->]]; [rewrite Hclosed; reflexivity|].
      destruct (closed session); reflexivity. }
    unfold Part000.reconnect.
    rewrite Hended, connect_after_close, close_without_session.
    cbn [fst ToBoolean Part000.config]. rewrite Hconfig_base, Hbase.
    cbn [snd Part000.config Part000.http2Session
         Part000.protocol Part000.host Part000.pathname Part000.search].
    unfold JsObject.assign. cbn [fold_left].
    split; [|split; [|reflexivity]].
    + unfold prop. rewrite get_set, String.eqb_refl. reflexivity.
    + unfold prop. rewrite !get_set. reflexivity.
  - intros Hdestroyed Hclosed. unfold Part000.reconnect.
    rewrite close_never_settles by assumption. reflexivity.
Qed.

End Sessions.

(** ** The second copy of [part_000]: verbs and budget *)
Section SecondCopyCalls.

Context {rt : Runtime}.
Variable URL_pathname : string -> string.
Variable toUpperCase : string -> string.
Variable env : Environment.

(** In the second copy the verb decides the method: it is written into
    the options of the call, which come last in the merge, so that neither
    a [method] of the call nor one of the configuration counts, and the
    method is the name of the verb in upper case. A verb that is called
    without options throws. [fetch] itself, called with options that name
    no method on an instance whose configuration names none, rejects with
    [E_HTTP_REQUEST_INVALID_METHOD]. *)
Theorem second_copy_verb_decides_the_method config method o :
  JsObject.well_formed config -> JsObject.well_formed o ->
  (exists merged,
      Part000Second.verb toUpperCase config method (ArgObject o) = Normal merged
      /\ JsObject.get merged "method" = Some (VStr (toUpperCase method))
      /\ forall k, k <> "method" ->
                   JsObject.get merged k
                   = match JsObject.get o k with
                     | Some v => Some v
                     | None => match JsObject.get config k with
                               | Some v => Some v
                               | None => JsObject.get Part000Second.defaults k
                               end
                     end)
  /\ Part000Second.verb toUpperCase config method ArgUndefined = Throw TypeError
  /\ (JsObject.get o "method" = None -> JsObject.get config "method" = None ->
      Part000Second.fetch_options toUpperCase config (ArgObject o)
      = Throw (MkError "TypeError" (Some Part000Second.E_HTTP_REQUEST_INVALID_METHOD)
                       None NoCause)).
Proof.
  intros Hconfig Ho. split; [|split; [reflexivity|]].
  - unfold Part000Second.verb, Part000Second.fetch_options.
    cbn [Part000Second.normalizeOptions].
    pose proof (well_formed_set o "method" (VStr method) Ho) as Hset.
    unfold prop. rewrite (get_assign _ (JsObject.set o "method" (VStr method)) _ Hset).
    rewrite get_set, String.eqb_refl.
    eexists. split; [reflexivity|]. split.
    + rewrite get_set, String.eqb_refl. reflexivity.
    + intros k Hk. rewrite get_set.
      destruct (String.eqb "method" k) eqn:E; [apply String.eqb_eq in E; congruence|].
      rewrite (get_assign _ (JsObject.set o "method" (VStr method)) _ Hset).
      rewrite get_set, E. rewrite (get_assign _ config k Hconfig). reflexivity.
  - intros Hmethod Hnone. unfold Part000Second.fetch_options.
    cbn [Part000Second.normalizeOptions]. unfold prop.
    rewrite (get_assign _ o _ Ho), Hmethod, (get_assign _ config _ Hconfig), Hnone.
    reflexivity.
Qed.

Lemma second_retry_while_made authority options retry :
  forall attempt http2Session recorded done,
    (attempt
     <= Part000Second.made
          (Part000Second.retry_while URL_pathname env authority options retry attempt
                                     http2Session recorded done)
     <= attempt + retry)%nat
    /\ ((1 <= retry)%nat ->
        (attempt + 1
         <= Part000Second.made
              (Part000Second.retry_while URL_pathname env authority options retry attempt
                                         http2Session recorded done))%nat).
Proof.
  induction retry as [|retry IH]; intros attempt http2Session recorded done.
  - cbn [Part000Second.retry_while Part000Second.made]. lia.
  - rewrite second_retry_while_S. cbv zeta.
    destruct (Part000Second.resolve URL_pathname (peer env attempt http2Session) authority
                                    options (transport env attempt))
      as [[response | reason | error] io1]; [| |cbn [Part000Second.made]; lia].
    + destruct (_ && _); [|cbn [Part000Second.made]; lia].
      pose proof (IH (S attempt) (peer env attempt http2Session) recorded (done ++ io1)).
      lia.
    + destruct (retry <=? 0)%nat.
      * pose proof (IH (S attempt) (peer env attempt http2Session) (recorded ++ [reason])
                       (done ++ io1)).
        lia.
      * destruct (Part000.resolveRetryLoopError _ _ _ _ _)
          as [[[[recorded' session']|thrown]|] io2];
          [|cbn [Part000Second.made]; lia|cbn [Part000Second.made]; lia].
        pose proof (IH (S attempt) session' recorded'
                       ((done ++ io1) ++ io2 ++ [Wait (Options.retryDelay options)])).
        lia.
Qed.

(** The budget of the second copy is the one of [src/index.js], not the
    one of the first copy: a call of [#resolveRetryLoop] makes at most
    [Math.abs(Math.floor(retry))] attempts, and at least one when that
    number is not zero. *)
Theorem second_copy_budget http2Session authority options :
  (Part000Second.made (Part000Second.resolveRetryLoop URL_pathname env http2Session
                                                      authority options)
   <= Z.to_nat (Js.Math_abs (Js.Math_floor (Options.retry options))))%nat
  /\ (1 <= Js.Math_abs (Js.Math_floor (Options.retry options)) ->
      (1 <= Part000Second.made
              (Part000Second.resolveRetryLoop URL_pathname env http2Session authority
                                              options))%nat).
Proof.
  unfold Part000Second.resolveRetryLoop.
  destruct (second_retry_while_made authority options
                                    (Z.to_nat (IndexJs.retry_budget options))
                                    0%nat http2Session [] []) as [Hle Hone].
  unfold IndexJs.retry_budget in *. split; [lia|].
  intros Hbudget. apply Hone. lia.
Qed.

End SecondCopyCalls.

(** ** The class on the samples *)
Section Samples.

Existing Instance Sample.runtime.

(** [retry: 3] against two resets and a response succeeds at the third
    attempt, after two delays. *)
Example retry_on_client_error :
  let run := IndexJs.fetch
               (Sample.environment [Sample.reset; Sample.reset;
                                    Sample.respond 200 Sample.success_text])
               None Sample.options in
  outcome run = Returned (Response.mk 200 Sample.json_headers
                                      (Some (VObj [("success", VBool true)])))
  /\ attempts run = 3%nat
  /\ Spec.waits (io run) = 2%nat.
Proof. vm_compute. repeat split; reflexivity. Qed.

(** [retryOnStatus: [503], retry: 2] against 503, 503, 200 rejects with
    the status failure after two attempts. *)
Example retry_on_status_too_few :
  let run := IndexJs.fetch Sample.unavailable None (Options.set_retry 2 Sample.on_503) in
  (exists cause response,
      outcome run = Thrown (MkError "Error" (Some E_HTTP_REQUEST_INVALID_RESPONSE_STATUS)
                                    (Some response) cause)
      /\ Response.status response = 503)
  /\ attempts run = 2%nat.
Proof. vm_compute. split; [|reflexivity]. eexists. eexists. split; reflexivity. Qed.

(** With [doNotThrowOnErrorStatus] and [retryOnErrorResponseStatus] the
    two 503 responses are retried without a recorded failure or a delay. *)
Example retry_on_accepted_status :
  let run := IndexJs.fetch Sample.unavailable None Sample.lenient in
  outcome run = Returned (Response.mk 200 Sample.json_headers
                                      (Some (VObj [("success", VBool true)])))
  /\ attempts run = 3%nat
  /\ errorTrace run = []
  /\ Spec.waits (io run) = 0%nat.
Proof. vm_compute. repeat split; reflexivity. Qed.

(** The first copy of [part_000] makes one attempt more than [retry]. *)
Example part000_one_more_attempt :
  attempts (Part000.fetch Sample.unreachable None Sample.options) = 4%nat
  /\ attempts (Part000.fetch Sample.unreachable None Sample.half) = 1%nat.
Proof. vm_compute. split; reflexivity. Qed.

(** A destroyed session and a closed one reject with their failures in
    [part_000]; in [src/index.js], which has no guard, the request itself
    throws. *)
Example dead_session_failures :
  option_map Error.code
             (match fst (Part000.resolve (Some Sample.dead) Sample.options Sample.reset) with
              | Reject error => Some error
              | _ => None
              end)
  = Some (Some E_HTTP_REQUEST_HTTP2_SESSION_DESTROYED)
  /\ option_map Error.code
                (match fst (Part000.resolve (Some (mkSession false true)) Sample.options
                                            Sample.reset) with
                 | Reject error => Some error
                 | _ => None
                 end)
     = Some (Some E_HTTP_REQUEST_HTTP2_SESSION_CLOSED)
  /\ option_map Error.code
                (match fst (IndexJs.resolve (Some Sample.dead) Sample.options Sample.reset) with
                 | Reject error => Some error
                 | _ => None
                 end)
     = Some (Some "ERR_HTTP2_INVALID_SESSION").
Proof. vm_compute. repeat split; reflexivity. Qed.

Example split_two :
  Js.split Sample.events_text (LF ++ LF)%string = ["a: 1"; "b: 2"].
Proof. vm_compute. reflexivity. Qed.

Example object_order :
  JsObject.keys (JsObject.fromEntries [("b", 1); ("2", 2); ("a", 3); ("1", 4); ("b", 5)])
  = ["1"; "2"; "b"; "a"].
Proof. vm_compute. reflexivity. Qed.

Example normalizeHeaders_mixed_case :
  IndexJs.normalizeHeaders Sample.mixed_case
  = [("content-type", HStr "application/json"); ("x-id", HStr "7")].
Proof. vm_compute. reflexivity. Qed.

(** C1, the claim as stated fails: in [src/index.js], with [retry: 0.5]
    the loop makes no attempt at all, and with [retry: -1.5] it makes two,
    where [max(1, floor(abs(retry)))] is one both times; in [part_000],
    with [retry: 3] the loop makes four attempts. *)
Lemma retry_budget_counterexample :
  (Js.truthy (Options.retry Sample.half) = true
   /\ Z.of_nat (attempts (IndexJs.fetch Sample.unreachable None Sample.half)) = 0
   /\ outcome (IndexJs.fetch Sample.unreachable None Sample.half) = ReturnedUndefined
   /\ Spec.attempt_budget (Options.retry Sample.half) = 1)
  /\ (Js.truthy (Options.retry Sample.negative) = true
      /\ Z.of_nat (attempts (IndexJs.fetch Sample.unreachable None Sample.negative)) = 2
      /\ Spec.attempt_budget (Options.retry Sample.negative) = 1)
  /\ (Js.truthy (Options.retry Sample.options) = true
      /\ Z.of_nat (attempts (Part000.fetch Sample.unreachable None Sample.options)) = 4
      /\ Spec.attempt_budget (Options.retry Sample.options) = 3).
Proof. vm_compute. repeat split; reflexivity. Qed.

(** C2, the code at the failing input: [retry: 2] in [part_000] gives
    three attempts; a client error and a client timeout are recorded, the
    third attempt fails with a client error, and what is thrown is that
    last client error, not the aggregate failure the statements after the
    loop would build from the recorded failures. [src/index.js] throws the
    same on its third attempt. *)
Theorem exhaustion_throws_last_failure :
  let run := Part000.fetch Sample.mixed None Sample.patient in
  let last := MkError "Error" (Some E_HTTP_REQUEST_CLIENT_ERROR) None
                      (CauseError Sample.socket_error) in
  attempts run = 3%nat
  /\ map Error.code (errorTrace run)
     = [Some E_HTTP_REQUEST_CLIENT_ERROR; Some E_HTTP_REQUEST_CLIENT_TIMEOUT]
  /\ Part000.every_same_code (errorTrace run) = false
  /\ outcome run = Thrown last
  /\ Part000.after_loop (errorTrace run)
     = Thrown (MkError "Error" (Some E_HTTP_REQUEST_RETRY_ERROR) None
                       (CauseTrace (errorTrace run)))
  /\ outcome (IndexJs.fetch Sample.mixed None (Options.set_retry 3 Sample.patient))
     = Thrown last.
Proof. vm_compute. repeat split; reflexivity. Qed.

(** C6, the code at the failing input: for a body of one code unit that
    takes two bytes, the content length written is one, in [src/index.js]
    and in [part_000] alike, and the body goes out as it is. *)
Theorem content_length_counts_code_units :
  IndexJs.createBodyHeaderDelimiter (Some Sample.accented) false
  = Normal [("content-length", HNum 1)]
  /\ Part000.createBodyHeaderDelimiter (Some Sample.accented) false
     = [("content-length", HNum 1)]
  /\ Spec.byte_length Sample.accented = 2
  /\ snd (IndexJs.resolve None Sample.accented_request Sample.reset)
     = [Http1Request false "GET" "http://localhost:8080/retry-test"
                     [("content-length", HNum 1)];
        EndBody (Some Sample.accented)].
Proof. vm_compute. repeat split; reflexivity. Qed.

(** C1 at [retry: 3], against a server that resets every connection. *)
Lemma retry_budget_attempts_witness :
  (1 <= Z.of_nat (attempts (IndexJs.fetch Sample.unreachable None Sample.options))
   <= Js.Math_abs (Js.Math_floor (Options.retry Sample.options)))
  /\ ((forall k,
          Z.of_nat (S k) < IndexJs.retry_budget Sample.options ->
          IndexJs.goes_on
            Sample.options
            (fst (IndexJs.resolve (IndexJs.session_at Sample.unreachable None k)
                                  Sample.options (transport Sample.unreachable k)))
          = true) ->
      Z.of_nat (attempts (IndexJs.fetch Sample.unreachable None Sample.options))
      = Js.Math_abs (Js.Math_floor (Options.retry Sample.options))).
Proof.
  apply (retry_budget_attempts Sample.unreachable None Sample.options).
  - reflexivity.
  - vm_compute. discriminate.
Defined.

(** C7 at the first attempt of [retry: 3], which resolves with 503 under
    [doNotThrowOnErrorStatus] and [retryOnErrorResponseStatus]. *)
Lemma retry_on_accepted_error_status_witness :
  IndexJs.retry_while Sample.unavailable Sample.lenient 3 0 None [] []
  = if (0 <? 2)%nat
       && (Js.includes (Options.retryOnStatus Sample.lenient) 503
           || Options.retryOnErrorResponseStatus Sample.lenient)
    then IndexJs.retry_while
           Sample.unavailable Sample.lenient 2 1 (peer Sample.unavailable 0%nat None) []
           ([] ++ [Http1Request false "GET" "http://localhost:8080/retry-test"
                                [("content-length", HNum 0)];
                   EndBody (Some "")])
    else mkRun (Returned (Response.mk 503 Sample.json_headers (Some (VObj []))))
               1 []
               ([] ++ [Http1Request false "GET" "http://localhost:8080/retry-test"
                                    [("content-length", HNum 0)];
                       EndBody (Some "")]).
Proof.
  apply (retry_on_accepted_error_status
           Sample.unavailable Sample.lenient 2 0 None [] []
           (Response.mk 503 Sample.json_headers (Some (VObj [])))
           [Http1Request false "GET" "http://localhost:8080/retry-test"
                         [("content-length", HNum 0)];
            EndBody (Some "")]).
  - reflexivity.
  - cbn. lia.
Defined.

(** C4 at the failure of a 503 response under [retryOnStatus: [503]]. *)
Lemma retry_classification_witness :
  (forall errorTrace,
      IndexJs.resolveRetryLoopError Sample.on_503 errorTrace (Sample.status_error 503)
      = if Spec.retryable Sample.on_503 (Spec.kind_of (Sample.status_error 503))
                          (Spec.failing_status (Sample.status_error 503))
        then Normal (errorTrace ++ [Sample.status_error 503])
        else Throw (Sample.status_error 503))
  /\ (forall retry attempt http2Session errorTrace io io1,
         IndexJs.resolve (peer Sample.unavailable attempt http2Session) Sample.on_503
                         (transport Sample.unavailable attempt)
         = (Reject (Sample.status_error 503), io1) ->
         (0 < retry)%nat ->
         IndexJs.retry_while Sample.unavailable Sample.on_503 (S retry) attempt
                             http2Session errorTrace io
         = if Spec.retryable Sample.on_503 (Spec.kind_of (Sample.status_error 503))
                             (Spec.failing_status (Sample.status_error 503))
           then IndexJs.retry_while Sample.unavailable Sample.on_503 retry (S attempt)
                                    (peer Sample.unavailable attempt http2Session)
                                    (errorTrace ++ [Sample.status_error 503])
                                    ((io ++ io1)
                                     ++ [Wait (Options.retryDelay Sample.on_503)])
           else mkRun (Thrown (Sample.status_error 503)) (S attempt) errorTrace
                      (io ++ io1)).
Proof.
  apply (retry_classification Sample.unavailable Sample.on_503 (Sample.status_error 503)).
  intros _. discriminate.
Defined.

(** C5 at a destroyed session. *)
Lemma dead_session_rejects_before_io_witness :
  snd (Part000.resolve (Some Sample.dead) Sample.options Sample.reset) = []
  /\ (exists error,
         fst (Part000.resolve (Some Sample.dead) Sample.options Sample.reset)
         = Reject error)
  /\ (forall prepared,
         Part000.prepare (Some Sample.dead) Sample.options = Normal prepared ->
         exists error,
           fst (Part000.resolve (Some Sample.dead) Sample.options Sample.reset)
           = Reject error
           /\ Error.code error
              = Some (if destroyed Sample.dead
                      then E_HTTP_REQUEST_HTTP2_SESSION_DESTROYED
                      else E_HTTP_REQUEST_HTTP2_SESSION_CLOSED)).
Proof.
  apply (dead_session_rejects_before_io Sample.dead Sample.options Sample.reset).
  left. reflexivity.
Defined.

(** The status gate at a 404 and at a 200 response with a JSON body. *)
Lemma status_gate_decides_witness :
  ((exists error,
       fst (IndexJs.resolveOnResponse Sample.options Accept Reject 404
                                      Sample.json_headers (StreamEnd ["{}"]))
       = Reject error
       /\ Error.code error = Some E_HTTP_REQUEST_INVALID_RESPONSE_STATUS)
   <-> Spec.status_gate Sample.options 404)
  /\ (forall onError onRedirect,
         IndexJs.resolveOnResponse (Options.set_doNotThrow onError onRedirect Sample.options)
                                   Accept Reject 200 Sample.json_headers (StreamEnd ["{}"])
         = IndexJs.resolveOnResponse Sample.options Accept Reject 200 Sample.json_headers
                                     (StreamEnd ["{}"])).
Proof.
  split.
  - apply (status_gate_decides Sample.options 404 Sample.json_headers ["{}"]).
    exact I.
  - apply (status_gate_decides Sample.options 200 Sample.json_headers ["{}"] I).
    reflexivity.
Defined.

(** C3: a 404 response whose body stream fails, under the default
    options. The status is one the gate fails, and the attempt is to be
    rejected with [E_HTTP_REQUEST_INVALID_RESPONSE_STATUS], which is what
    [#resolveOnResponse] prepares; but [#onStreamError], the listener of the
    failure, names a [reject] that is not in scope and throws a
    [ReferenceError]. The attempt is not rejected, with that failure or
    with any other, and the call ends on its first attempt with the
    exception instead of the failure of the status. *)
Theorem gated_response_with_failing_stream :
  Spec.status_gate Sample.options 404
  /\ IndexJs.resolveOnResponse Sample.options Accept Reject 404 Sample.json_headers
                               Sample.broken
     = (Uncaught ReferenceError, [])
  /\ ~ (exists error,
          fst (IndexJs.resolveOnResponse Sample.options Accept Reject 404
                                         Sample.json_headers Sample.broken)
          = Reject error)
  /\ outcome (IndexJs.fetch Sample.cut_off None Sample.options) = Crashed ReferenceError
  /\ attempts (IndexJs.fetch Sample.cut_off None Sample.options) = 1%nat.
Proof.
  split; [left; split; [lia|reflexivity]|].
  split; [reflexivity|]. split; [intros [error H]; discriminate H|].
  split; reflexivity.
Qed.

(** C10 at a 200 response that declares JSON and has no body. *)
Lemma empty_json_body_is_empty_object_witness :
  fst (IndexJs.resolveOnResponse Sample.options Accept Reject 200 Sample.json_headers
                                 (StreamEnd []))
  = Accept (Response.mk 200 Sample.json_headers (Some (VObj [])))
  /\ fst (Part000.resolveOnResponse Sample.options Accept Reject 200 Sample.json_headers
                                    (StreamEnd []))
     = Accept (Response.mk 200 Sample.json_headers (Some (VObj []))).
Proof.
  apply (empty_json_body_is_empty_object
           Sample.options 200 Sample.json_headers [] "application/json");
    reflexivity.
Defined.

(** C9 at a 200 response with the two events of the sample. *)
Lemma event_stream_decoded_witness :
  fst (Part000.resolveOnResponse Sample.options Accept Reject 200 Sample.event_headers
                                 (StreamEnd [Sample.events_text]))
  = Accept
      (Response.mk
         200 Sample.event_headers
         (Some (VArr (map (fun fields =>
                             VObj (JsObject.fromEntries
                                     (map Part000.eventStreamEntry (Js.split fields LF))))
                          (Js.split (Js.trim (String.concat "" [Sample.events_text]))
                                    (LF ++ LF)%string)))))
  /\ (forall field,
         Part000.eventStreamEntry field
         = (Js.slice field 0 (Js.indexOf field ":"%char),
            match JSON_parse (Js.trim (Js.slice_from field (Js.indexOf field ":"%char + 1)))
            with
            | Some parsed => parsed
            | None => VStr (Js.trim (Js.slice_from field (Js.indexOf field ":"%char + 1)))
            end))
  /\ (forall field1 value1 n1 field2 value2 n2,
         Spec.field_name field1 -> Js.numeral value1 = Some n1 ->
         (n1 <= 9007199254740992)%N ->
         Spec.field_name field2 -> Js.numeral value2 = Some n2 ->
         (n2 <= 9007199254740992)%N ->
         String.concat "" [Sample.events_text]
         = (Spec.event_text field1 value1 ++ LF ++ LF ++ Spec.event_text field2 value2)%string ->
         fst (Part000.resolveOnResponse Sample.options Accept Reject 200
                                        Sample.event_headers
                                        (StreamEnd [Sample.events_text]))
         = Accept (Response.mk 200 Sample.event_headers
                               (Some (VArr [VObj [(field1, VNum (inject_Z (Z.of_N n1)))];
                                            VObj [(field2, VNum (inject_Z (Z.of_N n2)))]])))).
Proof.
  apply (event_stream_decoded Sample.options 200 Sample.event_headers
                              [Sample.events_text] "text/event-stream");
    reflexivity.
Defined.

(** The content length of the form body of the tests. *)
Lemma content_length_ascii_witness :
  IndexJs.createBodyHeaderDelimiter (Some "bar=baz") false
  = Normal [("content-length", HNum (Spec.byte_length "bar=baz"))].
Proof.
  apply (content_length_ascii "bar=baz"). reflexivity.
Defined.

(** A 200 response whose body stream fails at once. *)
Lemma stream_error_is_uncaught_witness :
  fst (IndexJs.resolveOnResponse Sample.options Accept Reject 200 Sample.json_headers
                                 (StreamError [] Sample.socket_error))
  = Uncaught ReferenceError
  /\ fst (Part000.resolveOnResponse Sample.options Accept Reject 200 Sample.json_headers
                                    (StreamError [] Sample.socket_error))
     = Uncaught ReferenceError.
Proof.
  apply (stream_error_is_uncaught Sample.options 200 Sample.json_headers []
                                  Sample.socket_error).
  reflexivity.
Defined.

(** The third attempt of the mixed sample, with two failures of different
    kinds recorded before it. *)
Lemma last_attempt_throws_witness :
  outcome (IndexJs.retry_while
             Sample.mixed Sample.patient 1 2 None
             [Sample.status_error 503; Sample.status_error 500] [])
  = Thrown (MkError "Error" (Some E_HTTP_REQUEST_CLIENT_ERROR) None
                    (CauseError Sample.socket_error))
  /\ outcome (Part000.retry_while
                Sample.mixed Part000.after_loop Sample.patient 1 2 None
                [Sample.status_error 503; Sample.status_error 500] [])
     = Thrown (MkError "Error" (Some E_HTTP_REQUEST_CLIENT_ERROR) None
                       (CauseError Sample.socket_error)).
Proof.
  apply (last_attempt_throws
           Sample.mixed Part000.after_loop Sample.patient 2 None
           [Sample.status_error 503; Sample.status_error 500] []
           (MkError "Error" (Some E_HTTP_REQUEST_CLIENT_ERROR) None
                    (CauseError Sample.socket_error))
           [Http1Request false "GET" "http://localhost:8080/retry-test"
                         [("content-length", HNum 0)];
            EndBody (Some "")]
           (MkError "Error" (Some E_HTTP_REQUEST_CLIENT_ERROR) None
                    (CauseError Sample.socket_error))
           [Http1Request false "GET" "http://localhost:8080/retry-test"
                         [("content-length", HNum 0)];
            EndBody (Some "")]);
    reflexivity.
Defined.

(** The two events of the sample decode to [[{ a: 1 }, { b: 2 }]]. *)
Example event_stream_two_numerals :
  fst (Part000.resolveOnResponse Sample.options Accept Reject 200 Sample.event_headers
                                 (StreamEnd [Sample.events_text]))
  = Accept (Response.mk 200 Sample.event_headers
                        (Some (VArr [VObj [("a", VNum 1)]; VObj [("b", VNum 2)]]))).
Proof. vm_compute. reflexivity. Qed.

(** What a call against a server that resets every connection throws. *)
Lemma thrown_failures_classified_witness :
  Spec.attempt_failure
    (MkError "Error" (Some E_HTTP_REQUEST_CLIENT_ERROR) None (CauseError Sample.socket_error))
  /\ Error.has_code
       (MkError "Error" (Some E_HTTP_REQUEST_CLIENT_ERROR) None
                (CauseError Sample.socket_error))
       E_HTTP_REQUEST_DOWNSTREAM_ERROR
     = false.
Proof.
  apply (thrown_failures_classified (rt := Sample.runtime)
                                    Sample.unreachable None Sample.options).
  reflexivity.
Defined.

(** The form body of the tests under a content length of the caller that
    is not its own: the header that goes out is the length of the body. On
    an [https:] base the same request is refused. *)
Lemma framing_header_replaces_the_callers_witness :
  snd (IndexJs.resolve None Sample.form_request Sample.reset)
  = [Http1Request false "GET" "http://localhost:8080/retry-test"
                  [("content-length", HNum 7); ("custom-header", HStr "foo")];
     EndBody (Some "bar=baz")]
  /\ JsObject.get [("content-length", HNum 7); ("custom-header", HStr "foo")]
                  "content-length"
     = Some (HNum (Js.length "bar=baz"))
  /\ IndexJs.resolve None Sample.secure_request Sample.reset
     = (Reject TypeError,
        [Http1Request false "GET" "https://localhost:8443/retry-test"
                      [("content-length", HNum 7); ("custom-header", HStr "foo")]]).
Proof.
  assert (Hprepare : IndexJs.prepare None Sample.form_request
                     = Normal (Some "bar=baz",
                               [("content-length", HNum 7); ("custom-header", HStr "foo")],
                               "http://localhost:8080/retry-test"))
    by reflexivity.
  assert (Hsecure : IndexJs.prepare None Sample.secure_request
                    = Normal (Some "bar=baz",
                              [("content-length", HNum 7); ("custom-header", HStr "foo")],
                              "https://localhost:8443/retry-test"))
    by reflexivity.
  destruct (framing_header_replaces_the_callers (rt := Sample.runtime)
              Sample.form_request (Some "bar=baz")
              [("content-length", HNum 7); ("custom-header", HStr "foo")]
              "http://localhost:8080/retry-test" Hprepare)
    as (Hio & Hlength & _).
  destruct (framing_header_replaces_the_callers (rt := Sample.runtime)
              Sample.secure_request (Some "bar=baz")
              [("content-length", HNum 7); ("custom-header", HStr "foo")]
              "https://localhost:8443/retry-test" Hsecure)
    as (Hrefused & _).
  split; [rewrite Hio; reflexivity|]. split; [|rewrite Hrefused; reflexivity].
  destruct (Hlength eq_refl) as (text & Htext & Hget & _).
  inversion Htext; subst text. exact Hget.
Defined.

(** The same request over a live session: the content length of the
    caller goes out as it is, and no framing header with it. *)
Lemma http2_request_has_the_callers_headers_witness :
  exists sent rest,
    snd (IndexJs.resolve (Some Sample.live) Sample.form_request Sample.reset)
    = Http2Request "GET" "http://localhost:8080/retry-test" sent :: rest
    /\ JsObject.get sent "transfer-encoding" = None
    /\ JsObject.get sent "content-length" = Some (HStr "99").
Proof.
  destruct (http2_request_has_the_callers_headers (rt := Sample.runtime)
              Sample.live Sample.form_request Sample.reset eq_refl eq_refl)
    as [Hindex _].
  assert (Hprepare : IndexJs.prepare (Some Sample.live) Sample.form_request
                     = Normal (Some "bar=baz",
                               [("content-length", HStr "99");
                                ("custom-header", HStr "foo");
                                ("transfer-encoding", HStr "chunked")],
                               "http://localhost:8080/retry-test"))
    by reflexivity.
  destruct (Hindex _ Hprepare) as (sent & rest & Hio & Hget).
  exists sent, rest. split; [exact Hio|]. split.
  - rewrite Hget. reflexivity.
  - rewrite Hget. reflexivity.
Defined.

(** A [GET] that declares JSON and has no body, against any server. *)
Lemma json_request_without_body_witness :
  IndexJs.fetch Sample.unreachable None Sample.json_request
  = mkRun (Thrown TypeError) 1 [] []
  /\ exists sent rest,
      snd (Part000.resolve None Sample.json_request Sample.reset)
      = Http1Request false "GET" "http://localhost:8080/retry-test" sent
          :: EndBody None :: rest
      /\ JsObject.get sent "content-length" = Some (HNum 0).
Proof.
  assert (Htype : JsObject.get (IndexJs.normalizeHeaders
                                  (Options.headers Sample.json_request))
                               "content-type"
                  = Some (HStr "application/json")) by reflexivity.
  destruct (json_request_without_body (rt := Sample.runtime)
              Sample.unreachable Sample.json_request "application/json"
              eq_refl eq_refl Htype eq_refl eq_refl)
    as (_ & Hfetch & Hpart).
  split.
  - apply Hfetch; [reflexivity|]. right. vm_compute. discriminate.
  - apply (Hpart "http://localhost:8080/retry-test" Sample.reset). reflexivity.
Defined.

(** [retry: 0.5] resolves with [undefined]. *)
Lemma undefined_result_iff_fraction_witness :
  outcome (IndexJs.fetch Sample.unreachable None Sample.half) = ReturnedUndefined
  /\ attempts (IndexJs.fetch Sample.unreachable None Sample.half) = 0%nat
  /\ io (IndexJs.fetch Sample.unreachable None Sample.half) = [].
Proof.
  destruct (undefined_result_iff_fraction (rt := Sample.runtime)
                                          Sample.unreachable None Sample.half)
    as [Hiff Hnothing].
  assert (Hundefined : outcome (IndexJs.fetch Sample.unreachable None Sample.half)
                       = ReturnedUndefined).
  { apply Hiff. split; reflexivity. }
  split; [exact Hundefined|exact (Hnothing Hundefined)].
Defined.

(** Three attempts against a server that resets every connection: three
    requests. *)
Lemma requests_count_attempts_witness :
  Spec.requests (io (IndexJs.resolveRetryLoop Sample.unreachable None Sample.options))
  = attempts (IndexJs.resolveRetryLoop Sample.unreachable None Sample.options).
Proof.
  apply (requests_count_attempts (rt := Sample.runtime) Sample.unreachable None Sample.options).
  - reflexivity.
  - reflexivity.
  - eexists. reflexivity.
Defined.

(** A session that fails the first of three attempts in [part_000]. When
    it is closed, the reconnect of the sample succeeds and the loop goes
    on; when it is destroyed and not closed, the call never settles. *)
Lemma session_failure_reconnects_witness :
  (exists error,
      Error.code error = Some E_HTTP_REQUEST_HTTP2_SESSION_CLOSED
      /\ Part000.retry_while Sample.unreachable Part000.after_loop Sample.options 3 0
                             (Some Sample.shut) [] []
         = Part000.retry_while Sample.unreachable Part000.after_loop Sample.options 2 1
                               (Some (mkSession false false)) [error]
                               [Reconnect; Wait 200])
  /\ Part000.retry_while Sample.unreachable Part000.after_loop Sample.options 3 0
                         (Some Sample.dead) [] []
     = mkRun NeverSettles 1 [] [Reconnect].
Proof.
  split.
  - destruct (session_failure_reconnects (rt := Sample.runtime)
                Sample.unreachable Part000.after_loop Sample.options 1 0
                (Some Sample.shut) Sample.shut [] []
                (Some "", [("transfer-encoding", HStr "chunked")],
                 "http://localhost:8080/retry-test")
                eq_refl (or_intror eq_refl) eq_refl)
      as (error & Hcode & Hrun).
    exists error. split; [exact Hcode|exact Hrun].
  - destruct (session_failure_reconnects (rt := Sample.runtime)
                Sample.unreachable Part000.after_loop Sample.options 1 0
                (Some Sample.dead) Sample.dead [] []
                (Some "", [("transfer-encoding", HStr "chunked")],
                 "http://localhost:8080/retry-test")
                eq_refl (or_introl eq_refl) eq_refl)
      as (error & _ & Hrun).
    exact Hrun.
Defined.

(** The same session in [src/index.js]: the call ends at once. *)
Lemma dead_session_ends_the_call_witness :
  IndexJs.retry_while Sample.unreachable Sample.options 3 0 (Some Sample.dead) [] []
  = mkRun (Thrown (MkError "Error"
                           (Some (if destroyed Sample.dead
                                  then "ERR_HTTP2_INVALID_SESSION"
                                  else "ERR_HTTP2_GOAWAY_SESSION"))
                           None NoCause))
          1 [] [].
Proof.
  apply (dead_session_ends_the_call (rt := Sample.runtime)
           Sample.unreachable Sample.options 2 0 (Some Sample.dead) Sample.dead [] []
           (Some "", [("transfer-encoding", HStr "chunked")],
            "http://localhost:8080/retry-test")).
  - reflexivity.
  - left. reflexivity.
  - reflexivity.
Defined.

(** A 404 whose body is not the JSON it declares: the failure is the one
    of the status, carries the text, and has the failure of the format as
    its cause. A 404 whose body is the JSON it declares: the failure
    carries the object. *)
Lemma response_body_destination_witness :
  (Spec.status_failure
     (IndexJs.resolveOnResponse Sample.options Accept Reject 404 Sample.json_headers
                                (StreamEnd ["not json"]))
     404 Sample.json_headers "not json" None
   /\ Spec.status_failure
        (Part000.resolveOnResponse Sample.options Accept Reject 404 Sample.json_headers
                                   (StreamEnd ["not json"]))
        404 Sample.json_headers "not json" None)
  /\ (Spec.status_failure
        (IndexJs.resolveOnResponse Sample.options Accept Reject 404 Sample.json_headers
                                   (StreamEnd [Sample.success_text]))
        404 Sample.json_headers Sample.success_text
        (Some (VObj [("success", VBool true)]))
      /\ Spec.status_failure
           (Part000.resolveOnResponse Sample.options Accept Reject 404 Sample.json_headers
                                      (StreamEnd [Sample.success_text]))
           404 Sample.json_headers Sample.success_text
           (Some (VObj [("success", VBool true)]))).
Proof.
  split.
  - exact (proj1 (response_body_destination (rt := Sample.runtime)
                                            Sample.options 404 Sample.json_headers)
                 eq_refl I ["not json"]).
  - exact (proj1 (response_body_destination (rt := Sample.runtime)
                                            Sample.options 404 Sample.json_headers)
                 eq_refl I [Sample.success_text]).
Defined.

(** The line [data: 12:30], and a line [ping] without a colon. *)
Lemma event_field_is_cut_at_first_colon_witness :
  Part000.eventStreamEntry ("data" ++ ":" ++ " 12:30") = ("data", VStr "12:30")
  /\ Part000.eventStreamEntry "ping" = ("pin", VStr "ping").
Proof.
  destruct (event_field_is_cut_at_first_colon (rt := Sample.runtime)) as [Hcut Hwhole].
  split.
  - rewrite (Hcut "data" " 12:30" eq_refl). reflexivity.
  - rewrite (Hwhole "ping" eq_refl). reflexivity.
Defined.

(** A body of two line ends. *)
Lemma blank_event_stream_witness :
  Part000.contentTypeTextEventStream (LF ++ LF)
  = VArr [VObj [("", Spec.parsed_or_text JSON_parse "")]].
Proof. apply (blank_event_stream (rt := Sample.runtime) (LF ++ LF)). reflexivity. Defined.

Lemma sample_well_formed :
  JsObject.well_formed Sample.connected /\ JsObject.well_formed Sample.call.
Proof.
  split; (split;
          [unfold JsObject.keys; cbn [map fst Sample.connected Sample.call];
           repeat (constructor; [cbn; intuition discriminate|]); constructor
          |unfold JsObject.keys; cbn [map fst Sample.connected Sample.call];
           repeat (constructor; [|repeat (constructor; [exact I|]); constructor]);
           constructor]).
Qed.

(** The constructor on [{ url, timeout }]. *)
Lemma constructor_keeps_a_base_witness :
  JsObject.get (IndexJs.constructor
                  (ArgObject [("url", VStr "http://localhost"); ("timeout", VNum 5%Q)]))
               "url"
  = None
  /\ JsObject.get (IndexJs.constructor
                     (ArgObject [("url", VStr "http://localhost"); ("timeout", VNum 5%Q)]))
                  "base"
     = Some (VStr "http://localhost").
Proof.
  destruct (constructor_keeps_a_base
              (ArgObject [("url", VStr "http://localhost"); ("timeout", VNum 5%Q)]))
    as (_ & _ & Hurl & Hbase & _).
  - intros o Ho. inversion Ho; subst o. split.
    + unfold JsObject.keys. cbn [map fst].
      repeat (constructor; [cbn; intuition discriminate|]). constructor.
    + unfold JsObject.keys. cbn [map fst].
      repeat (constructor; [|repeat (constructor; [exact I|]); constructor]). constructor.
  - split; [exact Hurl|exact Hbase].
Defined.

(** A call [{ url: 'users', retry: undefined, method: 'DELETE' }] on a
    connected instance whose configuration has a [timeout]. *)
Lemma fetch_options_precedence_witness :
  JsObject.get
    [("method", VStr "DELETE"); ("headers", VObj []); ("retry", VUndefined);
     ("retryDelay", VNum 200%Q); ("url", VStr "/apiusers"); ("timeout", VNum 5000%Q);
     ("retryOnStatus", VArr []); ("base", VStr "https://example.com")]
    "timeout"
  = Some (VNum 5000%Q)
  /\ IndexJs.retries
       [("method", VStr "DELETE"); ("headers", VObj []); ("retry", VUndefined);
        ("retryDelay", VNum 200%Q); ("url", VStr "/apiusers"); ("timeout", VNum 5000%Q);
        ("retryOnStatus", VArr []); ("base", VStr "https://example.com")]
     = ToBoolean VUndefined
  /\ prop
       [("method", VStr "DELETE"); ("headers", VObj []); ("retry", VUndefined);
        ("retryDelay", VNum 200%Q); ("url", VStr "/apiusers"); ("timeout", VNum 5000%Q);
        ("retryOnStatus", VArr []); ("base", VStr "https://example.com")]
       "method"
     = VStr "DELETE".
Proof.
  destruct (fetch_options_precedence
              Sample.plus Sample.connected "GET" Sample.call
              [("method", VStr "DELETE"); ("headers", VObj []); ("retry", VUndefined);
               ("retryDelay", VNum 200%Q); ("url", VStr "/apiusers");
               ("timeout", VNum 5000%Q); ("retryOnStatus", VArr []);
               ("base", VStr "https://example.com")]
              (proj1 sample_well_formed) (proj2 sample_well_formed) eq_refl)
    as (_ & Hget & Hretry & Hmethod).
  split; [|split].
  - rewrite Hget by discriminate. reflexivity.
  - apply Hretry. reflexivity.
  - apply Hmethod. reflexivity.
Defined.

(** The same call: [users] behind [/api]. *)
Lemma relative_url_is_prefixed_witness :
  (exists merged,
      IndexJs.fetch_options Sample.plus Sample.connected "GET" (ArgObject Sample.call)
      = Normal merged
      /\ JsObject.get merged "url"
         = Some (VStr (if Js.startsWith "users" "/" then "users" else "/api" ++ "users")))
  /\ IndexJs.fetch_options Sample.plus Sample.connected "GET" ArgUndefined
     = Throw TypeError.
Proof.
  apply (relative_url_is_prefixed Sample.plus Sample.connected "GET" Sample.call
                                  "/api" "users").
  - reflexivity.
  - exact (proj1 sample_well_formed).
  - exact (proj2 sample_well_formed).
  - reflexivity.
  - discriminate.
  - reflexivity.
  - discriminate.
Defined.

(** The third attempt of the second copy, after two failures of the same
    code: both are in [retried]. *)
Lemma second_copy_rejects_with_the_last_witness :
  Part000Second.retry_while Sample.pathname Sample.unreachable None Sample.relative 1 2
                            None [Sample.status_error 503; Sample.status_error 503] []
  = Part000Second.mkCall
      (Part000Second.Rejected
         (Some (MkError "Error" (Some E_HTTP_REQUEST_CLIENT_ERROR) None
                        (CauseError Sample.socket_error)))
         (Some [Sample.status_error 503; Sample.status_error 503]))
      3
      ([Sample.status_error 503; Sample.status_error 503]
         ++ [MkError "Error" (Some E_HTTP_REQUEST_CLIENT_ERROR) None
                     (CauseError Sample.socket_error)])
      ([] ++ [Http1Request false "GET" "http://localhost:8080/retry-test"
                           [("content-length", HNum 0)];
              EndBody (Some "")]).
Proof.
  apply (second_copy_rejects_with_the_last (rt := Sample.runtime)
           Sample.pathname Sample.unreachable None Sample.relative 2 None
           [Sample.status_error 503; Sample.status_error 503] []).
  reflexivity.
Defined.

(** [retry: 0.5] in the second copy. *)
Lemma second_copy_fraction_fails_witness :
  Part000Second.fetch Sample.pathname Sample.toUpperCase Sample.unreachable None None
                      Sample.half
  = Part000Second.mkCall (Part000Second.Failed None None) 0 [] [].
Proof.
  apply (second_copy_fraction_fails (rt := Sample.runtime)
                                    Sample.pathname Sample.toUpperCase Sample.unreachable
                                    None None Sample.half).
  split; reflexivity.
Defined.

(** [connect('https://example.com/api?x=1', { timeout: 5000 })] on a new
    instance. *)
Lemma connect_changes_the_configuration_witness :
  fst (Part000.connect Sample.new_URL_of Sample.instance
                       (VStr "https://example.com/api?x=1") [("timeout", VNum 5000%Q)]
                       None None Sample.live)
  = Part000.Fulfilled
  /\ JsObject.get
       (Part000.config
          (snd (Part000.connect Sample.new_URL_of Sample.instance
                                (VStr "https://example.com/api?x=1")
                                [("timeout", VNum 5000%Q)] None None Sample.live)))
       "timeout"
     = Some (VNum 5000%Q).
Proof.
  destruct (connect_changes_the_configuration
              Sample.new_URL_of Sample.instance (VStr "https://example.com/api?x=1")
              [("timeout", VNum 5000%Q)] None None Sample.live)
    as (Hconnected & _ & _).
  - split; repeat constructor. cbn. tauto.
  - destruct (Hconnected eq_refl (Part000.mkURL "https:" "example.com" "/api" "?x=1")
                         eq_refl)
      as (Hpromise & _ & Hget).
    split; [exact Hpromise|]. rewrite Hget. reflexivity.
Defined.

(** The same [connect], and a [reconnect] after it: on a session that is
    open the path is lost, on one that is destroyed and not closed the
    [reconnect] never settles. *)
Lemma reconnect_forgets_the_path_witness :
  (let connected :=
     snd (Part000.connect Sample.new_URL_of Sample.instance
                          (VStr "https://example.com/api?x=1") [("timeout", VNum 5000%Q)]
                          None None Sample.live) in
   let reconnected :=
     Part000.reconnect Sample.new_URL_of connected None None Sample.live in
   prop (Part000.config connected) "url" = VStr ("/api" ++ "?x=1")
   /\ prop (Part000.config connected) "base" = VStr ("https:" ++ "//" ++ "example.com")
   /\ prop (Part000.config (snd reconnected)) "url" = VStr "/"
   /\ prop (Part000.config (snd reconnected)) "base" = prop (Part000.config connected) "base"
   /\ Part000.http2Session (snd reconnected) = Some Sample.live)
  /\ (let connected :=
        snd (Part000.connect Sample.new_URL_of Sample.instance
                             (VStr "https://example.com/api?x=1")
                             [("timeout", VNum 5000%Q)] None None Sample.dead) in
      Part000.reconnect Sample.new_URL_of connected None None Sample.live
      = (Part000.Unsettled, connected)).
Proof.
  split.
  - destruct (reconnect_forgets_the_path
                Sample.new_URL_of Sample.instance (VStr "https://example.com/api?x=1")
                [("timeout", VNum 5000%Q)] None Sample.live
                (Part000.mkURL "https:" "example.com" "/api" "?x=1") None None Sample.live
                eq_refl eq_refl eq_refl)
      as (Hurl & Hbase & Hagain & _).
    destruct (Hagain (or_intror (conj eq_refl eq_refl))) as (Hurl' & Hbase' & Hsession).
    cbv zeta. repeat split; assumption.
  - destruct (reconnect_forgets_the_path
                Sample.new_URL_of Sample.instance (VStr "https://example.com/api?x=1")
                [("timeout", VNum 5000%Q)] None Sample.dead
                (Part000.mkURL "https:" "example.com" "/api" "?x=1") None None Sample.live
                eq_refl eq_refl eq_refl)
      as (_ & _ & _ & Hnever).
    exact (Hnever eq_refl eq_refl).
Defined.

(** [get({ url: 'users', retry: undefined, method: 'DELETE' })] in the
    second copy. *)
Lemma second_copy_verb_decides_the_method_witness :
  (exists merged,
      Part000Second.verb Sample.toUpperCase Sample.connected "get" (ArgObject Sample.call)
      = Normal merged
      /\ JsObject.get merged "method" = Some (VStr (Sample.toUpperCase "get"))
      /\ forall k, k <> "method" ->
                   JsObject.get merged k
                   = match JsObject.get Sample.call k with
                     | Some v => Some v
                     | None => match JsObject.get Sample.connected k with
                               | Some v => Some v
                               | None => JsObject.get Part000Second.defaults k
                               end
                     end)
  /\ Part000Second.verb Sample.toUpperCase Sample.connected "get" ArgUndefined
     = Throw TypeError
  /\ (JsObject.get Sample.call "method" = None ->
      JsObject.get Sample.connected "method" = None ->
      Part000Second.fetch_options Sample.toUpperCase Sample.connected
                                  (ArgObject Sample.call)
      = Throw (MkError "TypeError" (Some Part000Second.E_HTTP_REQUEST_INVALID_METHOD)
                       None NoCause)).
Proof.
  apply (second_copy_verb_decides_the_method Sample.toUpperCase Sample.connected "get"
                                             Sample.call).
  - exact (proj1 sample_well_formed).
  - exact (proj2 sample_well_formed).
Defined.

(** An object under [Content-Type: text/plain]: the body is the one of
    [querystring.stringify]. *)
Lemma request_body_encoding_witness :
  Some (querystring_stringify
          (nullish (Options.body Sample.object_request)
                   (Options.data Sample.object_request)))
  = if Js.startsWith "text/plain" "application/json"
    then JSON_stringify (nullish (Options.body Sample.object_request)
                                 (Options.data Sample.object_request))
    else Some (querystring_stringify
                 (nullish (Options.body Sample.object_request)
                          (Options.data Sample.object_request))).
Proof.
  assert (Hprepare : IndexJs.prepare None Sample.object_request
                     = Normal (Some (querystring_stringify
                                       (nullish (Options.body Sample.object_request)
                                                (Options.data Sample.object_request))),
                               [("content-type", HStr "text/plain");
                                ("content-length", HNum 0)],
                               "http://localhost:8080/retry-test"))
    by reflexivity.
  destruct (request_body_encoding (rt := Sample.runtime) None Sample.object_request
                                  _ _ _ Hprepare)
    as [_ Hother].
  destruct Hother as [Hlast _]; [intros text; discriminate|].
  apply (Hlast [] "Content-Type" "text/plain" []).
  - reflexivity.
  - reflexivity.
  - intros k [].
Defined.

End Samples.
